(** * Book directory: the HTTP handlers of [server.js] over a model of the
    [books] table.

    The development has three layers.
    - [Js]: the JavaScript values a request carries, truthiness, [||].
    - [Pg]: the relational store behind [pool.query]: the [books] table of
      [initDatabase] (server.js:25-37), the text input functions of its
      column types, [LIKE] patterns, and the ten SQL statements the routes
      send, each under the name given next to its text in [sql].
    - [Server]: the seven route handlers (server.js:48-195), written in a
      small state and exception monad: [await pool.query] may throw,
      [try]/[catch] is [try_catch], [console.error] appends to a console.

    Modelling conventions.
    - Strings are byte strings.  [LOWER] and [ILIKE] lower the ASCII
      letters and then apply the case mapping of the database's locale to
      the other letters, which is a component of the store ([lc_ctype]);
      [ORDER BY genre] and [=] compare byte-wise.
    - A field of a request body is [undefined] or what [JSON.parse] made
      of it.  A JavaScript number is given by its decimal numeral, an
      integer or a mantissa with a number of decimals, and is printed as
      JavaScript prints that numeral, in fixed or in exponent notation.
      An array or an object is given by the text ToString makes of it and
      the text the driver writes for it.  Query and route parameters are
      strings.
    - The database is encoded in UTF-8, as the strings it is sent are: the
      sizes of the [VARCHAR] columns and the [_] of [LIKE] count
      characters.
    - The driver sends every parameter as text; the store reads an
      [INTEGER] as optional blanks, sign and decimal digits within 32 bits,
      a [DECIMAL(10,2)] as a decimal literal rounded to hundredths or as
      NaN, and refuses a [VARCHAR(n)] longer than [n] unless the excess is
      blank.  The properties below that tell what is stored are stated for
      the values on which these readings are those of the store: texts
      without a NUL character and within the column sizes, numbers in plain
      decimal notation.
    - [DECIMAL(10,2)] values are counted in hundredths, exactly; the texts
      the driver returns for counts and sums are read back exactly, and the
      number [parseFloat] makes of a sum is kept as the decimal it was read
      from, which is that number when the decimal has at most 15 digits.
    - Timestamps are integers; [CURRENT_TIMESTAMP] reads the store's clock.
    - A failed statement leaves the table and the sequence as they were. *)

From Stdlib Require Import ZArith Ascii String List Bool Lia.
From stdpp Require Import base option list sorting gmap strings pretty.

Open Scope string_scope.
Open Scope Z_scope.
Open Scope list_scope.

(** ** Characters and strings *)

Definition lower_char (c : ascii) : ascii :=
  let n := N_of_ascii c in
  if ((65 <=? n) && (n <=? 90))%N then ascii_of_N (n + 32) else c.

(** SQL [LOWER], on ASCII letters. *)
Fixpoint lower (s : string) : string :=
  match s with
  | EmptyString => EmptyString
  | String c s' => String (lower_char c) (lower s')
  end.

(** C [isspace]: blank, and the control characters 9 to 13. *)
Definition is_space (c : ascii) : bool :=
  let n := N_of_ascii c in
  ((n =? 32) || ((9 <=? n) && (n <=? 13)))%N.

Definition digit_of (c : ascii) : option Z :=
  let n := Z.of_N (N_of_ascii c) in
  if (48 <=? n) && (n <=? 57) then Some (n - 48) else None.

Fixpoint skip_spaces (s : string) : string :=
  match s with
  | String c s' => if is_space c then skip_spaces s' else s
  | EmptyString => EmptyString
  end.

(** Reads the longest prefix of decimal digits; returns its value, the
    number of digits read, and the rest. *)
Fixpoint read_digits (acc : Z) (n : nat) (s : string) : Z * nat * string :=
  match s with
  | String c s' =>
      match digit_of c with
      | Some d => read_digits (acc * 10 + d) (S n) s'
      | None => (acc, n, s)
      end
  | EmptyString => (acc, n, EmptyString)
  end.

Definition read_sign (s : string) : bool * string :=
  match s with
  | String "-" s' => (true, s')
  | String "+" s' => (false, s')
  | _ => (false, s)
  end.

Definition all_spaces (s : string) : bool :=
  match skip_spaces s with EmptyString => true | _ => false end.

(** The number of bytes of the UTF-8 character that begins with the byte
    [c]. *)
Definition mblen (c : ascii) : nat :=
  let n := N_of_ascii c in
  if (n <? 128)%N then 1%nat
  else if ((192 <=? n) && (n <? 224))%N then 2%nat
  else if ((224 <=? n) && (n <? 240))%N then 3%nat
  else if ((240 <=? n) && (n <? 248))%N then 4%nat
  else 1%nat.

(** The number of characters of [s] after the first [skip] bytes, which
    end a character begun before. *)
Fixpoint chars_after (skip : nat) (s : string) : nat :=
  match s with
  | EmptyString => 0%nat
  | String c s' =>
      match skip with
      | S k => chars_after k s'
      | O => S (chars_after (mblen c - 1) s')
      end
  end.

(** The length of a string in characters. *)
Definition chars (s : string) : nat := chars_after 0 s.

(** The number of bytes of [s] that its first [skip] bytes and the [n]
    characters after them take. *)
Fixpoint clip (n skip : nat) (s : string) : nat :=
  match s with
  | EmptyString => 0%nat
  | String c s' =>
      match skip with
      | S k => S (clip n k s')
      | O =>
          match n with
          | O => 0%nat
          | S n' => S (clip n' (mblen c - 1) s')
          end
      end
  end.

(** ** JavaScript values *)

Module Js.

(** What a field of [req.body], a query parameter or a route parameter
    holds: [undefined] and what [JSON.parse] makes.  A number is given by
    its decimal numeral: an integer, or [mantissa / 10 ^ decimals]; a
    numeral too large for a number gives an infinity.  Of an array or an
    object only two texts matter here: the one ToString makes of it and the
    one the driver writes for it, an array literal of the store or its
    JSON. *)
Inductive value :=
| JUndefined
| JNull
| JBool (b : bool)
| JNum (n : Z)
| JFrac (mantissa : Z) (decimals : nat)
| JInfinity (negative : bool)
| JStr (s : string)
| JComposite (text written : string).

#[global] Instance value_eq_dec : EqDecision value.
Proof. solve_decision. Defined.

(** ToBoolean. *)
Definition truthy (v : value) : bool :=
  match v with
  | JUndefined | JNull => false
  | JBool b => b
  | JNum n => negb (n =? 0)
  | JFrac m _ => negb (m =? 0)
  | JInfinity _ => true
  | JStr s => negb (String.eqb s "")
  | JComposite _ _ => true
  end.

(** The numeral [m / 10 ^ d] without the zeros that end its fraction. *)
Fixpoint shortest (m : Z) (d : nat) : Z * nat :=
  match d with
  | O => (m, O)
  | S d' => if m mod 10 =? 0 then shortest (m / 10) d' else (m, d)
  end.

(** The digits of [s] without the zeros that end them. *)
Fixpoint significand (fuel : nat) (s : Z) : Z :=
  match fuel with
  | O => s
  | S fuel' => if s mod 10 =? 0 then significand fuel' (s / 10) else s
  end.

(** The last [d] digits of [x], in front of [s]. *)
Fixpoint decimals (d : nat) (x : N) (s : string) : string :=
  match d with
  | O => s
  | S d' => decimals d' (x `div` 10)%N (String (pretty_N_char (x `mod` 10)%N) s)
  end.

(** [d.ddd] of the digits [s], as the exponent forms begin. *)
Definition scientific (s : string) : string :=
  substring 0 1 s +:+
  (if (1 <? String.length s)%nat
   then "." +:+ substring 1 (String.length s - 1) s else "").

(** Number::toString of [m / 10 ^ d]: [d.ddde+n] from 10^21 up and
    [d.ddde-n] below 10^-6; between them the integer part, and after a
    point the decimals there are. *)
Definition number_to_string (m : Z) (d : nat) : string :=
  let '(m, d) := shortest m d in
  let a := Z.abs m in
  let k := String.length (pretty a) in
  (if m <? 0 then "-" else "") +:+
  (if 10 ^ Z.of_nat (21 + d) <=? a then
     scientific (pretty (significand k a)) +:+ "e+" +:+ pretty (k - d - 1)%nat
   else if (0 <? a) && (a * 10 ^ 6 <? 10 ^ Z.of_nat d) then
     scientific (pretty a) +:+ "e-" +:+ pretty (d - k + 1)%nat
   else
     pretty (a / 10 ^ Z.of_nat d) +:+
     (if (d =? 0)%nat then ""
      else "." +:+ decimals d (Z.to_N (a mod 10 ^ Z.of_nat d)) "")).

(** ToString, as a template literal applies it. *)
Definition to_string (v : value) : string :=
  match v with
  | JUndefined => "undefined"
  | JNull => "null"
  | JBool true => "true"
  | JBool false => "false"
  | JNum n => number_to_string n 0
  | JFrac m d => number_to_string m d
  | JInfinity negative => (if negative then "-" else "") +:+ "Infinity"
  | JStr s => s
  | JComposite text _ => text
  end.

(** [a || b]. *)
Definition or (a b : value) : value := if truthy a then a else b.

(** [const { k } = obj]: a property that is not there reads [undefined]. *)
Definition prop (obj : gmap string value) (k : string) : value :=
  default JUndefined (obj !! k).

(** The same on [req.query], whose values are strings. *)
Definition param (obj : gmap string string) (k : string) : value :=
  from_option JStr JUndefined (obj !! k).

End Js.

Import Js.

(** ** The relational store *)

Module Pg.

(** *** Input functions of the column types *)

(** [INTEGER]: blanks, an optional sign, decimal digits, blanks; the value
    must fit 32 bits.  [None] is the error "invalid input syntax" or
    "out of range". *)
Definition int4_in (s : string) : option Z :=
  let '(neg, s1) := read_sign (skip_spaces s) in
  let '(v, n, rest) := read_digits 0 0 s1 in
  if (0 <? n)%nat && all_spaces rest then
    let z := if neg then - v else v in
    if (- 2147483648 <=? z) && (z <=? 2147483647) then Some z else None
  else None.

(** A [NUMERIC] value: the exact decimal [mantissa / 10 ^ scale], or the
    special value NaN. *)
Inductive numeric :=
| Numeric (mantissa : Z) (scale : nat)
| NumericNaN.

(** The text is [NaN], in any letter case, followed by blanks only. *)
Definition is_nan (s : string) : bool :=
  match s with
  | String a (String b (String c rest)) =>
      String.eqb (lower (String a (String b (String c "")))) "nan" && all_spaces rest
  | _ => false
  end.

(** [NUMERIC] without precision: blanks, then either [NaN] or an optional
    sign and digits with an optional fraction (at least one digit in all),
    then blanks. *)
Definition numeric_in (s : string) : option numeric :=
  if is_nan (skip_spaces s) then Some NumericNaN else
  let '(neg, s1) := read_sign (skip_spaces s) in
  let '(i, ni, s2) := read_digits 0 0 s1 in
  let '(m, nf, rest) :=
    match s2 with
    | String "." s3 => read_digits i 0 s3
    | _ => (i, 0%nat, s2)
    end in
  if (0 <? ni + nf)%nat && all_spaces rest then
    Some (Numeric (if neg then - m else m) nf)
  else None.

(** A [DECIMAL(10,2)] value: a number of hundredths, or NaN. *)
Inductive decimal :=
| Hundredths (n : Z)
| NaN.

#[global] Instance decimal_eq_dec : EqDecision decimal.
Proof. solve_decision. Defined.

(** The length coercion to [DECIMAL(10,2)]: round half away from zero to
    two places, then at most eight digits before the point; NaN passes. *)
Definition numeric_10_2 (x : numeric) : option decimal :=
  match x with
  | NumericNaN => Some NaN
  | Numeric m scale =>
      let r :=
        if (scale <=? 2)%nat then m * 10 ^ Z.of_nat (2 - scale)
        else
          let k := 10 ^ Z.of_nat (scale - 2) in
          let q := Z.abs m / k + (if k <=? 2 * (Z.abs m mod k) then 1 else 0) in
          Z.sgn m * q in
      if Z.abs r <? 10 ^ 10 then Some (Hundredths r) else None
  end.

(** The length coercion to [VARCHAR(n)]: a string of more than [n]
    characters is an error unless the excess is blank, and then it is cut.
    A string of at most [n] bytes is not looked at. *)
Definition varchar (n : nat) (s : string) : option string :=
  if (String.length s <=? n)%nat then Some s
  else
    let k := clip n 0 s in
    if forallb (λ c, Ascii.eqb c " ")
               (list_ascii_of_string (substring k (String.length s - k) s))
    then Some (substring 0 k s)
    else None.

(** A bound parameter is a text or NULL; an input function leaves NULL
    alone.  The outer [None] is the store's error. *)
Definition nullable {A B} (f : A → option B) (p : option A) : option (option B) :=
  match p with
  | None => Some None
  | Some s => Some <$> f s
  end.

(** A [NOT NULL] column refuses NULL. *)
Definition not_null {A} (v : option (option A)) : option A :=
  match v with
  | Some (Some x) => Some x
  | _ => None
  end.

(** *** [LIKE] patterns *)

Inductive tok := PAny | POne | PLit (c : ascii).

(** [%] is any sequence, [_] any one character, a backslash quotes the
    next character.  A pattern may not end in a lone backslash. *)
Fixpoint like_tokens (p : string) : option (list tok) :=
  match p with
  | EmptyString => Some []
  | String "%" p' => cons PAny <$> like_tokens p'
  | String "_" p' => cons POne <$> like_tokens p'
  | String "\" (String c p') => cons (PLit c) <$> like_tokens p'
  | String "\" EmptyString => None
  | String c p' => cons (PLit c) <$> like_tokens p'
  end.

(** The text from its next character on: the bytes that continue a UTF-8
    character are passed over. *)
Fixpoint next_char (s : string) : string :=
  match s with
  | String c s' =>
      let n := N_of_ascii c in
      if ((128 <=? n) && (n <? 192))%N then next_char s' else s
  | EmptyString => EmptyString
  end.

(** [LIKE] on a tokenised pattern.  After [%] the rest is tried at every
    byte; a try that begins inside a character finds nothing that the try
    at the beginning of that character does not find. *)
Fixpoint like_match (p : list tok) (s : string) : bool :=
  match p with
  | [] => match s with EmptyString => true | _ => false end
  | PAny :: p' =>
      (fix skip (s : string) : bool :=
         like_match p' s ||
         match s with EmptyString => false | String _ s' => skip s' end) s
  | POne :: p' =>
      match s with
      | EmptyString => false
      | String _ s' => like_match p' (next_char s')
      end
  | PLit c :: p' =>
      match s with
      | EmptyString => false
      | String d s' => Ascii.eqb c d && like_match p' s'
      end
  end.

(** [LOWER] under the case mapping [lc] of the locale: the ASCII letters
    are lowered, then [lc] folds what else the locale takes for a letter. *)
Definition sql_lower (lc : string → string) (s : string) : string :=
  lc (lower s).

(** [text ILIKE pattern]: both sides are lowered, then matched; [pat] is
    the lowered pattern. *)
Definition ilike (lc : string → string) (text : string) (pat : list tok) : bool :=
  like_match pat (sql_lower lc text).

(** *** The table *)

Record book := Book {
  id : Z;
  title : string;
  author : string;
  year : option Z;
  genre : option string;
  pages : option Z;
  price : option decimal;
  isbn : option string;
  description : option string;
  created_at : Z;
  updated_at : Z
}.

#[global] Instance book_eq_dec : EqDecision book.
Proof. solve_decision. Defined.

(** [books] in storage order, the [SERIAL] sequence behind [id], the clock
    behind [CURRENT_TIMESTAMP], and the case mapping of the locale the
    database was created with. *)
Record database := Database {
  books : list book;
  books_id_seq : Z;
  clock : Z;
  lc_ctype : string → string
}.

(** *** Statements *)

(** A [WHERE] condition of the list route; [$n] is the n-th parameter. *)
Inductive cond :=
| Search (n : nat)   (* (title ILIKE $n OR author ILIKE $n OR description ILIKE $n) *)
| GenreIs (n : nat). (* genre = $n *)

Inductive sql :=
| SelectBooks (conditions : list cond)
    (* SELECT * FROM books [WHERE c AND ...] ORDER BY created_at DESC *)
| SelectBook    (* SELECT * FROM books WHERE id = $1 *)
| InsertBook    (* INSERT INTO books (title, ..., description) VALUES ($1, ..., $8) RETURNING * *)
| UpdateBook    (* UPDATE books SET title = $1, ..., description = $8,
                   updated_at = CURRENT_TIMESTAMP WHERE id = $9 RETURNING * *)
| DeleteBook    (* DELETE FROM books WHERE id = $1 RETURNING * *)
| CountBooks    (* SELECT COUNT( * ) as count FROM books *)
| CountAuthors  (* SELECT COUNT(DISTINCT LOWER(author)) as count FROM books *)
| CountGenres   (* SELECT COUNT(DISTINCT genre) as count FROM books
                   WHERE genre IS NOT NULL AND genre != '' *)
| SumPrice      (* SELECT SUM(price) as total FROM books WHERE price IS NOT NULL *)
| SelectGenres. (* SELECT DISTINCT genre FROM books
                   WHERE genre IS NOT NULL AND genre != '' ORDER BY genre *)

(** A row of a result, by the statement that produced it. *)
Inductive row :=
| BookRow (b : book)
| CountRow (count : Z)
| TotalRow (total : option decimal)
| GenreRow (genre : option string).

(** The values a statement assigns to the editable columns. *)
Record fields := Fields {
  f_title : string;
  f_author : string;
  f_year : option Z;
  f_genre : option string;
  f_pages : option Z;
  f_price : option decimal;
  f_isbn : option string;
  f_description : option string
}.

(** The parameters [$1 .. $8] of INSERT and UPDATE once the statement is
    bound: the integer and numeric texts are read, the others stay text. *)
Record bound := Bound {
  b_title : option string;
  b_author : option string;
  b_year : option Z;
  b_genre : option string;
  b_pages : option Z;
  b_price : option numeric;
  b_isbn : option string;
  b_description : option string
}.

Definition bind8 (t a y g p pr i d : option string) : option bound :=
  y' ← nullable int4_in y;
  p' ← nullable int4_in p;
  pr' ← nullable numeric_in pr;
  Some (Bound t a y' g p' pr' i d).

(** Storing into the columns: the length coercions and [NOT NULL]. *)
Definition assign (b : bound) : option fields :=
  t ← not_null (nullable (varchar 500) (b_title b));
  a ← not_null (nullable (varchar 300) (b_author b));
  g ← nullable (varchar 100) (b_genre b);
  pr ← nullable numeric_10_2 (b_price b);
  i ← nullable (varchar 20) (b_isbn b);
  Some (Fields t a (b_year b) g (b_pages b) pr i (b_description b)).

Definition new_book (k : Z) (f : fields) (now : Z) : book :=
  Book k (f_title f) (f_author f) (f_year f) (f_genre f) (f_pages f)
       (f_price f) (f_isbn f) (f_description f) now now.

Definition set_fields (f : fields) (now : Z) (b : book) : book :=
  Book (id b) (f_title f) (f_author f) (f_year f) (f_genre f) (f_pages f)
       (f_price f) (f_isbn f) (f_description f) (created_at b) now.

(** [id = $n]; nothing equals NULL. *)
Definition id_is (k : option Z) (b : book) : Prop :=
  k = Some (id b).

#[global] Instance id_is_dec k b : Decision (id_is k b).
Proof. unfold id_is. apply _. Defined.

(** [genre IS NOT NULL AND genre != ''] *)
Definition has_genre (b : book) : bool :=
  match genre b with
  | Some g => negb (String.eqb g "")
  | None => false
  end.

(** One condition of the list route as a test on rows, with its parameter
    looked up; [None] when the parameter is missing or the pattern is
    malformed. *)
Definition resolve (lc : string → string) (params : list (option string)) (c : cond)
  : option (book → bool) :=
  match c with
  | Search n =>
      p ← params !! (n - 1)%nat;
      match p with
      | None => Some (λ _, false)
      | Some pat =>
          toks ← like_tokens (sql_lower lc pat);
          Some (λ b, ilike lc (title b) toks || ilike lc (author b) toks ||
                     match description b with
                     | Some d => ilike lc d toks
                     | None => false
                     end)
      end
  | GenreIs n =>
      p ← params !! (n - 1)%nat;
      match p with
      | None => Some (λ _, false)
      | Some g => Some (λ b, bool_decide (genre b = Some g))
      end
  end.

(** [ORDER BY created_at DESC] *)
Definition newest_first (a b : book) : Prop := created_at b ≤ created_at a.

#[global] Instance newest_first_dec a b : Decision (newest_first a b).
Proof. unfold newest_first. apply _. Defined.

(** [ORDER BY genre]: ascending, NULL last. *)
Definition genre_le (a b : option string) : Prop :=
  match a, b with
  | Some x, Some y => String.leb x y
  | _, None => True
  | None, Some _ => False
  end.

#[global] Instance genre_le_dec a b : Decision (genre_le a b).
Proof. destruct a, b; simpl; apply _. Defined.

(** [+] on [DECIMAL]: NaN absorbs. *)
Definition add (a b : decimal) : decimal :=
  match a, b with
  | Hundredths x, Hundredths y => Hundredths (x + y)
  | _, _ => NaN
  end.

Definition sum (l : list decimal) : decimal := foldr add (Hundredths 0) l.

(** Runs a statement with its parameters.  [None] is an error raised by the
    store; the table is then as before.  The texts of an INSERT or UPDATE
    are read and coerced to the column types before any row is looked at. *)
Definition exec (q : sql) (params : list (option string)) (d : database)
  : option (list row * database) :=
  match q, params with
  | SelectBooks conditions, _ =>
      tests ← mapM (resolve (lc_ctype d) params) conditions;
      let hit := filter (λ b, forallb (λ t : book → bool, t b) tests) (books d) in
      Some (BookRow <$> merge_sort newest_first hit, d)
  | SelectBook, [k] =>
      k' ← nullable int4_in k;
      Some (BookRow <$> filter (id_is k') (books d), d)
  | InsertBook, [t; a; y; g; p; pr; i; ds] =>
      b ← bind8 t a y g p pr i ds;
      f ← assign b;
      let new := new_book (books_id_seq d) f (clock d) in
      Some ([BookRow new],
            Database (books d ++ [new]) (books_id_seq d + 1) (clock d) (lc_ctype d))
  | UpdateBook, [t; a; y; g; p; pr; i; ds; k] =>
      b ← bind8 t a y g p pr i ds;
      k' ← nullable int4_in k;
      f ← assign b;
      match filter (id_is k') (books d) with
      | [] => Some ([], d)
      | hit =>
          let upd := set_fields f (clock d) in
          Some (BookRow ∘ upd <$> hit,
                Database ((λ r, if decide (id_is k' r) then upd r else r) <$> books d)
                         (books_id_seq d) (clock d) (lc_ctype d))
      end
  | DeleteBook, [k] =>
      k' ← nullable int4_in k;
      Some (BookRow <$> filter (id_is k') (books d),
            Database (filter (λ r, ¬ id_is k' r) (books d)) (books_id_seq d) (clock d)
                     (lc_ctype d))
  | CountBooks, [] =>
      Some ([CountRow (Z.of_nat (length (books d)))], d)
  | CountAuthors, [] =>
      Some ([CountRow (Z.of_nat (length (remove_dups
               (sql_lower (lc_ctype d) ∘ author <$> books d))))], d)
  | CountGenres, [] =>
      Some ([CountRow (Z.of_nat (length (remove_dups (genre <$> filter (λ b, has_genre b) (books d)))))], d)
  | SumPrice, [] =>
      match filter (λ b, is_Some (price b)) (books d) with
      | [] => Some ([TotalRow None], d)
      | priced => Some ([TotalRow (Some (sum (omap price priced)))], d)
      end
  | SelectGenres, [] =>
      Some (GenreRow <$> merge_sort genre_le
              (remove_dups (genre <$> filter (λ b, has_genre b) (books d))), d)
  | _, _ => None
  end.

End Pg.

Import Pg.

(** ** The server *)

Module Server.

(** node-postgres [prepareValue]: what is sent for a parameter: nothing
    for [null] and [undefined], for an array or an object what the driver
    writes, and otherwise [val.toString()]. *)
Definition prepareValue (v : value) : option string :=
  match v with
  | JUndefined | JNull => None
  | JComposite _ written => Some written
  | _ => Some (Js.to_string v)
  end.

(** One call of [pool.query], as the log of the run keeps it. *)
Record call := Call { text : sql; values : list value; ok : bool }.

(** What a handler runs against: the database, for each coming query
    whether the store is unreachable for it ([true]; no entry means
    reachable), the queries issued so far, and the lines written by
    [console.error]. *)
Record world := World {
  db : database;
  faults : list bool;
  queries : list call;
  console : list string
}.

Inductive outcome (A : Type) :=
| Returned (a : A)
| Thrown (e : string).
Arguments Returned {A} a.
Arguments Thrown {A} e.

Definition M (A : Type) : Type := world → outcome A * world.

#[global] Instance M_ret : MRet M := λ A a w, (Returned a, w).
#[global] Instance M_bind : MBind M := λ A B f m w,
  match m w with
  | (Returned a, w') => f a w'
  | (Thrown e, w') => (Thrown e, w')
  end.

Definition throw {A} (e : string) : M A := λ w, (Thrown e, w).

(** [try { body } catch (err) { handler }] *)
Definition try_catch {A} (body : M A) (handler : string → M A) : M A := λ w,
  match body w with
  | (Returned a, w') => (Returned a, w')
  | (Thrown e, w') => handler e w'
  end.

Definition console_error (line : string) : M unit := λ w,
  (Returned (), World (db w) (faults w) (queries w) (console w ++ [line])%list).

(** [await pool.query(text, values)]: throws when the store is unreachable
    or refuses the statement. *)
Definition pool_query (q : sql) (vs : list value) : M (list row) := λ w,
  let log b := (queries w ++ [Call q vs b])%list in
  match faults w with
  | true :: fs =>
      (Thrown "connection error", World (db w) fs (log false) (console w))
  | fs =>
      match exec q (prepareValue <$> vs) (db w) with
      | Some (rows, d) => (Returned rows, World d (tail fs) (log true) (console w))
      | None => (Thrown "query error", World (db w) (tail fs) (log false) (console w))
      end
  end.

(** *** Responses *)

Inductive json :=
| JsonRows (rows : list row)
| JsonRow (r : option row)
| JsonError (error : string)
| JsonMessage (message : string)
| JsonStats (totalBooks uniqueAuthors uniqueGenres : Z) (totalValue : decimal)
| JsonGenres (genres : list (option string)).

Record response := Response { status : Z; body : json }.

(** [res.status(code).json(body)]; [res.json] alone answers 200. *)
Definition res_json (code : Z) (b : json) : M response := mret (Response code b).

(** [rows[0].count] and [rows[0].total] of the one row an aggregate
    returns; reading a property of [undefined] throws. *)
Definition row0_count (rows : list row) : M Z :=
  match rows with
  | CountRow c :: _ => mret c
  | _ => throw "TypeError"
  end.

Definition row0_total (rows : list row) : M (option decimal) :=
  match rows with
  | TotalRow t :: _ => mret t
  | _ => throw "TypeError"
  end.

(** [row.genre] *)
Definition row_genre (r : row) : option string :=
  match r with
  | GenreRow g => g
  | BookRow b => genre b
  | _ => None
  end.

(** *** Routes *)

(** [app.get('/api/books')] *)
Definition get_books (query : gmap string string) : M response :=
  try_catch
    (let search := Js.param query "search" in
     let genre := Js.param query "genre" in
     let params : list value := [] in
     let conditions : list cond := [] in
     let '(conditions, params) :=
       if truthy search
       then ((conditions ++ [Search (length params + 1)])%list,
             (params ++ [JStr ("%" +:+ Js.to_string search +:+ "%")])%list)
       else (conditions, params) in
     let '(conditions, params) :=
       if truthy genre
       then ((conditions ++ [GenreIs (length params + 1)])%list,
             (params ++ [genre])%list)
       else (conditions, params) in
     rows ← pool_query (SelectBooks conditions) params;
     res_json 200 (JsonRows rows))
    (λ err,
       console_error "Error fetching books:";;
       res_json 500 (JsonError "Failed to fetch books")).

(** [app.get('/api/books/:id')] *)
Definition get_book (id : string) : M response :=
  try_catch
    (rows ← pool_query SelectBook [JStr id];
     if (length rows =? 0)%nat
     then res_json 404 (JsonError "Book not found")
     else res_json 200 (JsonRow (head rows)))
    (λ err,
       console_error "Error fetching book:";;
       res_json 500 (JsonError "Failed to fetch book")).

(** [app.post('/api/books')] *)
Definition post_book (body : gmap string value) : M response :=
  try_catch
    (let title := Js.prop body "title" in
     let author := Js.prop body "author" in
     let year := Js.prop body "year" in
     let genre := Js.prop body "genre" in
     let pages := Js.prop body "pages" in
     let price := Js.prop body "price" in
     let isbn := Js.prop body "isbn" in
     let description := Js.prop body "description" in
     if negb (truthy title) || negb (truthy author)
     then res_json 400 (JsonError "Title and author are required")
     else
       rows ← pool_query InsertBook
         [title; author; Js.or year JNull; Js.or genre JNull; Js.or pages JNull;
          Js.or price JNull; Js.or isbn JNull; Js.or description JNull];
       res_json 201 (JsonRow (head rows)))
    (λ err,
       console_error "Error adding book:";;
       res_json 500 (JsonError "Failed to add book")).

(** [app.put('/api/books/:id')] *)
Definition put_book (id : string) (body : gmap string value) : M response :=
  try_catch
    (let title := Js.prop body "title" in
     let author := Js.prop body "author" in
     let year := Js.prop body "year" in
     let genre := Js.prop body "genre" in
     let pages := Js.prop body "pages" in
     let price := Js.prop body "price" in
     let isbn := Js.prop body "isbn" in
     let description := Js.prop body "description" in
     if negb (truthy title) || negb (truthy author)
     then res_json 400 (JsonError "Title and author are required")
     else
       rows ← pool_query UpdateBook
         [title; author; Js.or year JNull; Js.or genre JNull; Js.or pages JNull;
          Js.or price JNull; Js.or isbn JNull; Js.or description JNull; JStr id];
       if (length rows =? 0)%nat
       then res_json 404 (JsonError "Book not found")
       else res_json 200 (JsonRow (head rows)))
    (λ err,
       console_error "Error updating book:";;
       res_json 500 (JsonError "Failed to update book")).

(** [app.delete('/api/books/:id')] *)
Definition delete_book (id : string) : M response :=
  try_catch
    (rows ← pool_query DeleteBook [JStr id];
     if (length rows =? 0)%nat
     then res_json 404 (JsonError "Book not found")
     else res_json 200 (JsonMessage "Book deleted successfully"))
    (λ err,
       console_error "Error deleting book:";;
       res_json 500 (JsonError "Failed to delete book")).

(** [app.get('/api/stats')]; [parseInt] and [parseFloat] read back the
    decimal texts the driver returns, [total || 0] replaces NULL.  The
    number [parseFloat] returns is kept as the decimal it read; of the text
    [NaN] it makes NaN, which [res.json] writes as [null]. *)
Definition get_stats : M response :=
  try_catch
    (totalBooksResult ← pool_query CountBooks [];
     authorsResult ← pool_query CountAuthors [];
     genresResult ← pool_query CountGenres [];
     totalValueResult ← pool_query SumPrice [];
     totalBooks ← row0_count totalBooksResult;
     uniqueAuthors ← row0_count authorsResult;
     uniqueGenres ← row0_count genresResult;
     total ← row0_total totalValueResult;
     res_json 200 (JsonStats totalBooks uniqueAuthors uniqueGenres
                         (default (Hundredths 0) total)))
    (λ err,
       console_error "Error fetching stats:";;
       res_json 500 (JsonError "Failed to fetch statistics")).

(** [app.get('/api/genres')] *)
Definition get_genres : M response :=
  try_catch
    (rows ← pool_query SelectGenres [];
     res_json 200 (JsonGenres (row_genre <$> rows)))
    (λ err,
       console_error "Error fetching genres:";;
       res_json 500 (JsonError "Failed to fetch genres")).

(** The seven operations of the service. *)
Inductive request :=
| List (query : gmap string string)
| Get (id : string)
| Create (body : gmap string value)
| Update (id : string) (body : gmap string value)
| Delete (id : string)
| Stats
| Genres.

Definition handle (r : request) : M response :=
  match r with
  | List query => get_books query
  | Get id => get_book id
  | Create body => post_book body
  | Update id body => put_book id body
  | Delete id => delete_book id
  | Stats => get_stats
  | Genres => get_genres
  end.

End Server.

Import Server.

(** ** Vocabulary of the properties *)

(** The store answers every coming query: no fault is scheduled. *)
Definition calm (w : world) : bool := forallb negb (faults w).

(** The calls a run added to the log. *)
Definition issued (w w' : world) : list call :=
  drop (length (queries w)) (queries w').

(** A request field that is missing, or the empty string. *)
Definition missing_or_empty (v : option value) : Prop :=
  v = None ∨ v = Some (JStr "").

(** The total count Stats reports, when it answers. *)
Definition stats_total (w : world) : option Z :=
  match get_stats w with
  | (Returned (Response _ (JsonStats n _ _ _)), _) => Some n
  | _ => None
  end.

(** A computation logs only successful calls when it returns, and only
    appends to the log in any case. *)
Definition clean {A} (m : M A) : Prop :=
  ∀ w, ∃ l, queries (m w).2 = (queries w ++ l)%list ∧
            ∀ a, (m w).1 = Returned a → Forall (λ c, ok c = true) l.

(** The table as the statements leave it: no timestamp is in the future,
    [created_at] is not after [updated_at], and [id] is a key handed out by
    the sequence. *)
Definition consistent (d : database) : Prop :=
  (∀ b, b ∈ books d → created_at b ≤ updated_at b ∧ updated_at b ≤ clock d) ∧
  NoDup (Pg.id <$> books d) ∧
  (∀ b, b ∈ books d → Pg.id b < books_id_seq d).

(** A computation keeps the table consistent. *)
Definition keeps {A} (m : M A) : Prop :=
  ∀ w, consistent (db w) → consistent (db (m w).2).

(** [needle] occurs in [hay], letter case apart. *)
Definition contains_ci (needle hay : string) : Prop :=
  ∃ pre post, lower hay = pre +:+ lower needle +:+ post.

(** The same with the letters of a locale: [needle] occurs in [hay] once
    both are lowered as the store lowers them. *)
Definition occurs_ci (lc : string → string) (needle hay : string) : Prop :=
  ∃ pre post, sql_lower lc hay = pre +:+ sql_lower lc needle +:+ post.

(** Not one of the three characters a [LIKE] pattern reads specially. *)
Definition plain_char (c : ascii) : bool :=
  negb (Ascii.eqb c "%") && negb (Ascii.eqb c "_") && negb (Ascii.eqb c "\").

Fixpoint plain (s : string) : bool :=
  match s with
  | EmptyString => true
  | String c s' => plain_char c && plain s'
  end.

(** The pattern that matches the characters of [s] literally. *)
Fixpoint lits (s : string) : list tok :=
  match s with
  | EmptyString => []
  | String c s' => PLit c :: lits s'
  end.

(** A query parameter filters when it is present and not empty. *)
Definition in_effect (p : option string) : option string :=
  match p with
  | Some s => if String.eqb s "" then None else Some s
  | None => None
  end.

(** What the search filter asks of a row, and the genre filter. *)
Definition search_ok (lc : string → string) (search : option string) (b : book) : Prop :=
  match in_effect search with
  | Some s =>
      occurs_ci lc s (title b) ∨ occurs_ci lc s (author b) ∨
      ∃ d, description b = Some d ∧ occurs_ci lc s d
  | None => True
  end.

Definition genre_ok (wanted : option string) (b : book) : Prop :=
  match in_effect wanted with
  | Some g => genre b = Some g
  | None => True
  end.

(** The search text holds no [LIKE] metacharacter. *)
Definition plain_search (query : gmap string string) : bool :=
  from_option plain true (query !! "search").

(** The optional columns, the request field each is fed from, and the
    value a row holds in it. *)
Inductive column := Year | Genre | Pages | Price | Isbn | Description.

Definition field_name (c : column) : string :=
  match c with
  | Year => "year"
  | Genre => "genre"
  | Pages => "pages"
  | Price => "price"
  | Isbn => "isbn"
  | Description => "description"
  end.

Inductive cell :=
| IntCell (n : Z)
| TextCell (s : string)
| DecimalCell (d : decimal).

(** The content of a column of a row; [None] is NULL. *)
Definition cell_of (c : column) (b : book) : option cell :=
  match c with
  | Year => IntCell <$> year b
  | Genre => TextCell <$> genre b
  | Pages => IntCell <$> pages b
  | Price => DecimalCell <$> price b
  | Isbn => TextCell <$> isbn b
  | Description => TextCell <$> description b
  end.

(** What the store makes of a text it is sent for a column. *)
Definition read (c : column) (text : string) : option cell :=
  match c with
  | Year | Pages => IntCell <$> int4_in text
  | Genre => TextCell <$> varchar 100 text
  | Price => DecimalCell <$> (numeric_in text ≫= numeric_10_2)
  | Isbn => TextCell <$> varchar 20 text
  | Description => Some (TextCell text)
  end.

(** What reaches the store for an optional field: [field || null], as the
    driver sends it. *)
Definition sent (v : value) : option string := prepareValue (Js.or v JNull).

(** The text the driver sends for a value that is not null. *)
Definition text_sent (v : value) : string := default "" (prepareValue v).

(** The genre of a row when it is neither NULL nor empty. *)
Definition named_genre (b : book) : option string :=
  g ← genre b; if decide (g = "") then None else Some g.

(** *** Vocabulary of the further properties *)

(** What the store answers to the next query: nothing when it is
    unreachable for it or refuses the statement. *)
Definition answer (q : sql) (vs : list value) (w : world)
  : option (list row * database) :=
  match faults w with
  | true :: _ => None
  | _ => exec q (prepareValue <$> vs) (db w)
  end.

(** The world after one query that left the database [d] and ended well
    or not. *)
Definition after (q : sql) (vs : list value) (w : world) (d : database)
    (well : bool) : world :=
  World d (tail (faults w)) (queries w ++ [Call q vs well]) (console w).

(** The message and the console line of the [catch] block of each route. *)
Definition failure_of (r : request) : string :=
  match r with
  | List _ => "Failed to fetch books"
  | Get _ => "Failed to fetch book"
  | Create _ => "Failed to add book"
  | Update _ _ => "Failed to update book"
  | Delete _ => "Failed to delete book"
  | Stats => "Failed to fetch statistics"
  | Genres => "Failed to fetch genres"
  end.

Definition log_line_of (r : request) : string :=
  match r with
  | List _ => "Error fetching books:"
  | Get _ => "Error fetching book:"
  | Create _ => "Error adding book:"
  | Update _ _ => "Error updating book:"
  | Delete _ => "Error deleting book:"
  | Stats => "Error fetching stats:"
  | Genres => "Error fetching genres:"
  end.

(** The answers of a route other than the internal error. *)
Definition regular (r : request) (resp : response) : Prop :=
  match r with
  | List _ => ∃ bs, resp = Response 200 (JsonRows (BookRow <$> bs))
  | Get _ =>
      (∃ b, resp = Response 200 (JsonRow (Some (BookRow b)))) ∨
      resp = Response 404 (JsonError "Book not found")
  | Create _ =>
      (∃ b, resp = Response 201 (JsonRow (Some (BookRow b)))) ∨
      resp = Response 400 (JsonError "Title and author are required")
  | Update _ _ =>
      (∃ b, resp = Response 200 (JsonRow (Some (BookRow b)))) ∨
      resp = Response 400 (JsonError "Title and author are required") ∨
      resp = Response 404 (JsonError "Book not found")
  | Delete _ =>
      resp = Response 200 (JsonMessage "Book deleted successfully") ∨
      resp = Response 404 (JsonError "Book not found")
  | Stats => ∃ n a g v, resp = Response 200 (JsonStats n a g v)
  | Genres => ∃ gs, resp = Response 200 (JsonGenres gs)
  end.

(** The status that tells a change was made, for the routes that write. *)
Definition done_status (r : request) : option Z :=
  match r with
  | Create _ => Some 201
  | Update _ _ | Delete _ => Some 200
  | _ => None
  end.

(** The store can read and store the values of a Create or Update body. *)
Definition acceptable (body : gmap string value) : Prop :=
  is_Some
    (bind8 (prepareValue (Js.prop body "title")) (prepareValue (Js.prop body "author"))
           (sent (Js.prop body "year")) (sent (Js.prop body "genre"))
           (sent (Js.prop body "pages")) (sent (Js.prop body "price"))
           (sent (Js.prop body "isbn")) (sent (Js.prop body "description"))
     ≫= assign).

(** By how much a request answered [resp] changes the number of rows. *)
Definition growth (r : request) (resp : response) : Z :=
  match r with
  | Create _ => if decide (status resp = 201) then 1 else 0
  | Delete _ => if decide (status resp = 200) then -1 else 0
  | _ => 0
  end.

(** Time passes: the store's clock moves on by [dt]. *)
Definition tick (dt : Z) (w : world) : world :=
  World (Database (books (db w)) (books_id_seq (db w)) (clock (db w) + dt)
                  (lc_ctype (db w)))
        (faults w) (queries w) (console w).

(** Requests served one after the other, each some time after the last. *)
Fixpoint serve (steps : list (Z * request)) (w : world) : world :=
  match steps with
  | [] => w
  | (dt, r) :: rest => serve rest (handle r (tick dt w)).2
  end.

(** The server at start: the table as [CREATE TABLE] leaves it, in a
    database of any locale. *)
Definition fresh (now : Z) (fs : list bool) (lc : string → string) : world :=
  World (Database [] 1 now lc) fs [] [].

(** *** Vocabulary of the amended properties *)

(** The text holds no NUL character; the store refuses a parameter that
    holds one. *)
Fixpoint nul_free (s : string) : bool :=
  match s with
  | EmptyString => true
  | String c s' => negb (Ascii.eqb c "000") && nul_free s'
  end.

(** A value that reaches the store as the model sends it: a text without
    NUL, or a number that JavaScript prints as its numeral: an integer it
    holds exactly (at most [Number.MAX_SAFE_INTEGER] in size), or a numeral
    of at most 15 digits and 20 decimals. *)
Definition wire_safe (v : value) : bool :=
  match v with
  | JStr s => nul_free s
  | JComposite _ written => nul_free written
  | JNum n => Z.abs n <=? 9007199254740991
  | JFrac m d => (Z.abs m <? 10 ^ 15) && (d <=? 20)%nat
  | _ => true
  end.

(** The value fits a text column of [limit] characters. *)
Definition fits (limit : nat) (v : value) : bool :=
  wire_safe v && (chars (text_sent v) <=? limit)%nat.

(** The store takes the value for the column: a text within the size of
    the column; for a number column, a text that reads as a decimal literal
    within the range of the column (for the price, a literal of at most
    1000 characters, or NaN). *)
Definition readable (c : column) (v : value) : bool :=
  wire_safe v &&
  match c with
  | Year | Pages => bool_decide (is_Some (int4_in (text_sent v)))
  | Genre => (chars (text_sent v) <=? 100)%nat
  | Price =>
      bool_decide (is_Some (numeric_in (text_sent v) ≫= numeric_10_2)) &&
      (String.length (text_sent v) <=? 1000)%nat
  | Isbn => (chars (text_sent v) <=? 20)%nat
  | Description => true
  end.

(** The value is within the column: it reaches the store as sent, and
    where the column has a size its text has at most that many
    characters. *)
Definition within (c : column) (v : value) : bool :=
  wire_safe v &&
  match c with
  | Genre => (chars (text_sent v) <=? 100)%nat
  | Isbn => (chars (text_sent v) <=? 20)%nat
  | _ => true
  end.

Definition columns : list column := [Year; Genre; Pages; Price; Isbn; Description].

(** A body the store takes: title and author fit their columns, and so
    does every optional field that is sent, that is, truthy. *)
Definition well_formed (body : gmap string value) : bool :=
  fits 500 (Js.prop body "title") && fits 300 (Js.prop body "author") &&
  forallb (λ c, let v := Js.prop body (field_name c) in
                negb (truthy v) || readable c v) columns.

(** What a column holds once a request gave [v] for it: NULL when [v] is
    falsy or absent, and what the store reads from its text otherwise. *)
Definition stored (c : column) (v : value) : option cell :=
  if truthy v then read c (text_sent v) else None.

(** The supplied value itself, where it has the JSON type of the column: a
    number for a number column (for the price, a number of at most two
    decimals), a string for a text column. *)
Definition supplied (c : column) (v : value) : option cell :=
  match c, v with
  | (Year | Pages), JNum n => Some (IntCell n)
  | Price, JNum n => Some (DecimalCell (Hundredths (100 * n)))
  | Price, JFrac m d =>
      if (d <=? 2)%nat
      then Some (DecimalCell (Hundredths (m * 10 ^ Z.of_nat (2 - d))))
      else None
  | (Genre | Isbn | Description), JStr s => Some (TextCell s)
  | _, _ => None
  end.

(** The text is written in another notation of integer literals than the
    plain decimal one: after blanks and a sign it begins with one of the
    prefixes [0x], [0o], [0b], or it holds an underscore, the separator of
    digits.  Stores differ on these notations. *)
Definition other_notation (s : string) : bool :=
  let core := (read_sign (skip_spaces s)).2 in
  match core with
  | String "0" (String c _) => existsb (Ascii.eqb c) (list_ascii_of_string "xXoObB")
  | _ => false
  end || existsb (Ascii.eqb "_") (list_ascii_of_string core).

(** A text no store reads as a 32-bit integer: it is not a decimal literal
    within the range, and it is not written in another notation either. *)
Definition never_an_integer (s : string) : bool :=
  negb (other_notation s) && bool_decide (int4_in s = None).

(** A case mapping that works character by character and leaves the three
    [LIKE] metacharacters alone, as the mappings of the usual locales do:
    it keeps the two [%] around a search text, and neither makes nor
    unmakes a metacharacter. *)
Definition characterwise (lc : string → string) : Prop :=
  (∀ s, lc ("%" +:+ s +:+ "%") = "%" +:+ lc s +:+ "%") ∧
  (∀ s, plain (lc s) = plain s).

(** Neither filter of a List query holds a NUL character. *)
Definition sendable (query : gmap string string) : bool :=
  from_option nul_free true (query !! "search") &&
  from_option nul_free true (query !! "genre").

(** The hundredths of a price that is a number. *)
Definition finite (p : decimal) : option Z :=
  match p with
  | Hundredths n => Some n
  | NaN => None
  end.

(** Two author names are the same, letter case apart, for the store. *)
Definition same_author (lc : string → string) (a b : string) : Prop :=
  sql_lower lc a = sql_lower lc b.

(** One name for each group of names that [f] maps to the same text: the
    last of each group. *)
Fixpoint representatives (f : string → string) (l : list string) : list string :=
  match l with
  | [] => []
  | x :: l' =>
      if decide (f x ∈ f <$> l') then representatives f l'
      else x :: representatives f l'
  end.

(** *** Sample data *)

(** The locale [C]: no letters beyond ASCII. *)
Definition c_locale : string → string := λ s, s.

Definition one_book : database :=
  Database
    [Book 1 "Dune" "Herbert" (Some 1965) (Some "Sci-Fi") None
          (Some (Hundredths 1250)) None None 100 100]
    2 200 c_locale.

Definition shelf : database :=
  Database
    [Book 1 "Dune" "Herbert" (Some 1965) (Some "Sci-Fi") None
          (Some (Hundredths 1250)) None None 100 100;
     Book 2 "Dune Messiah" "HERBERT" None (Some "") None None None None 110 110;
     Book 3 "Foundation" "Asimov" (Some 1951) None None (Some (Hundredths 999)) None
          (Some "The fall of an empire") 120 130]
    4 200 c_locale.

(** A world with a reachable store, an empty log and an empty console. *)
Definition at_rest (d : database) : world := World d [] [] [].

Definition author_only : gmap string value := {[ "author" := JStr "X" ]}.

Definition free_book : gmap string value :=
  list_to_map [("title", JStr "Dune"); ("author", JStr "Herbert");
               ("year", JNum 0); ("genre", JStr ""); ("price", JNum 0)].

Definition dune_1965 : gmap string value :=
  list_to_map [("title", JStr "Dune"); ("author", JStr "Frank Herbert");
               ("year", JNum 1965); ("price", JStr "12.50")].

Definition dune_scifi : gmap string string :=
  {[ "search" := "dune"; "genre" := "Sci-Fi" ]}.


Definition nan_priced : gmap string value :=
  list_to_map [("title", JStr "Untitled"); ("author", JStr "Anon");
               ("price", JStr "NaN")].

(** A locale with one letter beyond ASCII: the capital E with an acute
    accent, bytes 195 137 in UTF-8, lowers to the small one, bytes 195
    169. *)
Fixpoint e_acute (s : string) : string :=
  match s with
  | EmptyString => EmptyString
  | String a s' =>
      match s' with
      | String b r =>
          if Ascii.eqb a "195" && Ascii.eqb b "137"
          then String a (String "169" (e_acute r))
          else String a (e_acute s')
      | EmptyString => s
      end
  end.

Definition zola : database :=
  Database
    [Book 1 "Germinal" "Émile Zola" (Some 1885) None None None None None 100 100;
     Book 2 "Nana" "émile zola" (Some 1880) None None None None None 110 110;
     Book 3 "Dune" "Herbert" (Some 1965) None None None None None 120 120]
    4 200 e_acute.

Definition accented : gmap string value :=
  list_to_map [("title", JStr "Thérèse Raquin"); ("author", JStr "Émile Zola");
               ("isbn", JStr "ééééééééééé")].

(** ** The monad and the pool *)

Lemma calm_tail w d qs c :
  calm w = true → calm (World d (tail (faults w)) qs c) = true.
Proof.
  unfold calm; simpl. destruct (faults w) as [|b fs]; simpl; [done|].
  intros H. apply andb_true_iff in H. tauto.
Qed.

Lemma quiet_tail fs : forallb negb fs = true → forallb negb (tail fs) = true.
Proof. destruct fs as [|b fs]; simpl; [done|]. rewrite andb_true_iff. tauto. Qed.

(** Later worlds of a calm run are calm. *)
Ltac still_calm :=
  unfold calm in *; simpl; repeat (first [assumption | apply quiet_tail]).

(** With a reachable store a query ends as the statement does. *)
Lemma pool_query_calm q vs w :
  calm w = true →
  pool_query q vs w =
    match exec q (prepareValue <$> vs) (db w) with
    | Some (rows, d) =>
        (Returned rows,
         World d (tail (faults w)) (queries w ++ [Call q vs true]) (console w))
    | None =>
        (Thrown "query error",
         World (db w) (tail (faults w)) (queries w ++ [Call q vs false]) (console w))
    end.
Proof.
  unfold calm, pool_query. destruct (faults w) as [|[] fs]; simpl; try done.
Qed.

(** A query either returns rows and logs a success, or throws and logs a
    failure with the database untouched; it writes nothing to the console. *)
Lemma pool_query_cases q vs w :
  (∃ rows d fs, pool_query q vs w =
     (Returned rows, World d fs (queries w ++ [Call q vs true]) (console w))) ∨
  (∃ e fs, pool_query q vs w =
     (Thrown e, World (db w) fs (queries w ++ [Call q vs false]) (console w))).
Proof.
  unfold pool_query. destruct (faults w) as [|[] fs]; simpl.
  - destruct (exec q _ (db w)) as [[rows d]|]; [left|right]; eauto.
  - right; eauto.
  - destruct (exec q _ (db w)) as [[rows d]|]; [left|right]; eauto.
Qed.


Lemma issued_none w : issued w w = [].
Proof. unfold issued. apply drop_all. Qed.

(** ** Create: validation *)

Lemma missing_or_empty_falsy body k :
  missing_or_empty (body !! k) → truthy (Js.prop body k) = false.
Proof. unfold Js.prop. by intros [-> | ->]. Qed.

(** The guard [!title || !author] answers 400 and returns at once. *)
Lemma post_book_guard body w :
  truthy (Js.prop body "title") = false ∨ truthy (Js.prop body "author") = false →
  post_book body w =
    (Returned (Response 400 (JsonError "Title and author are required")), w).
Proof.
  intros H. unfold post_book, try_catch.
  assert (negb (truthy (Js.prop body "title")) || negb (truthy (Js.prop body "author")) = true) as ->.
  { destruct H as [-> | ->]; simpl; [done | apply orb_true_r]. }
  done.
Qed.

(** C1. A Create request whose title or author is missing or empty is
    answered with the client error 400 and the body
    [{ error: 'Title and author are required' }]; the handler returns before
    any query is issued, so the world after is the world before: no call is
    logged, the table is the same, and Stats reports the same total. *)
Theorem create_rejects_missing_title_or_author body w :
  missing_or_empty (body !! "title") ∨ missing_or_empty (body !! "author") →
  post_book body w =
    (Returned (Response 400 (JsonError "Title and author are required")), w) ∧
  issued w (post_book body w).2 = [] ∧
  books (db (post_book body w).2) = books (db w) ∧
  stats_total (post_book body w).2 = stats_total w.
Proof.
  intros H.
  assert (post_book body w =
    (Returned (Response 400 (JsonError "Title and author are required")), w)) as E.
  { apply post_book_guard.
    destruct H as [H | H]; [left | right]; by apply missing_or_empty_falsy. }
  rewrite E; simpl. split_and!; try done. apply issued_none.
Qed.

Lemma create_rejects_missing_title_or_author_witness :
  post_book author_only (at_rest one_book) =
    (Returned (Response 400 (JsonError "Title and author are required")),
     at_rest one_book) ∧
  stats_total (post_book author_only (at_rest one_book)).2 = Some 1.
Proof.
  destruct (create_rejects_missing_title_or_author author_only (at_rest one_book))
    as (E & _ & _ & S).
  - left; left. reflexivity.
  - split; [exact E | rewrite S; vm_compute; reflexivity].
Defined.

(** ** Store failures are caught *)

Lemma clean_ret {A} (a : A) : clean (mret a).
Proof. intros w. exists []. simpl. split; [by rewrite app_nil_r | by constructor]. Qed.

Lemma clean_throw {A} e : clean (@throw A e).
Proof. intros w. exists []. simpl. split; [by rewrite app_nil_r | done]. Qed.

Lemma clean_bind {A B} (m : M A) (f : A → M B) :
  clean m → (∀ a, clean (f a)) → clean (m ≫= f).
Proof.
  intros Hm Hf w. unfold mbind, M_bind.
  destruct (Hm w) as (l & E & Hl). destruct (m w) as [[a|e] w1]; simpl in *.
  - destruct (Hf a w1) as (l' & E' & Hl'). exists (l ++ l')%list.
    rewrite E', E, app_assoc. split; [done|].
    intros b Hb. apply Forall_app; eauto.
  - exists l. done.
Qed.

Lemma clean_pool_query q vs : clean (pool_query q vs).
Proof.
  intros w.
  destruct (pool_query_cases q vs w) as [(rows & d & fs & E) | (e & fs & E)];
    rewrite E; simpl.
  - exists [Call q vs true]. split; [done|]. by repeat constructor.
  - exists [Call q vs false]. done.
Qed.

Lemma clean_row0_count rows : clean (row0_count rows).
Proof. destruct rows as [|[] ?]; simpl; auto using clean_ret, clean_throw. Qed.

Lemma clean_row0_total rows : clean (row0_total rows).
Proof. destruct rows as [|[] ?]; simpl; auto using clean_ret, clean_throw. Qed.

Lemma clean_res_json code b : clean (res_json code b).
Proof. apply clean_ret. Qed.

Create HintDb clean.
#[global] Hint Resolve clean_ret clean_throw clean_pool_query clean_row0_count
  clean_row0_total clean_res_json : clean.

Ltac clean_steps :=
  repeat first
    [ apply clean_bind; [|intros ?]
    | solve [auto with clean]
    | match goal with |- context [if ?c then _ else _] => destruct c end ];
  simpl.

(** A handler of the shape every route has: whatever its body throws is
    logged and answered with 500. *)
Lemma try_catch_500 (body : M response) line msg w :
  clean body →
  ∃ resp w',
    try_catch body (λ _, console_error line;; res_json 500 (JsonError msg)) w
      = (Returned resp, w') ∧
    (Exists (λ c, ok c = false) (issued w w') → resp = Response 500 (JsonError msg)).
Proof.
  intros Hb. unfold try_catch. destruct (Hb w) as (l & E & Hl).
  destruct (body w) as [[r|e] w1]; simpl in *.
  - eexists _, _. split; [done|]. unfold issued. rewrite E, drop_app_length.
    intros Hx. specialize (Hl r eq_refl). apply Exists_exists in Hx as (c & Hc & Hf).
    rewrite Forall_forall in Hl. specialize (Hl c Hc). congruence.
  - eexists _, _. split; [done|]. done.
Qed.

(** C9. Every operation returns a response, whatever the store does: the
    handler never lets an exception out.  When a query of the run failed
    (the store was unreachable or refused the statement), the response has
    status 500 and a body of the shape [{ error: message }]. *)
Theorem store_failure_answers_500 r w :
  ∃ resp w',
    handle r w = (Returned resp, w') ∧
    (Exists (λ c, ok c = false) (issued w w') →
     status resp = 500 ∧ ∃ msg, body resp = JsonError msg).
Proof.
  assert (∀ (m : M response) line msg,
    clean m →
    ∃ resp w',
      try_catch m (λ _, console_error line;; res_json 500 (JsonError msg)) w
        = (Returned resp, w') ∧
      (Exists (λ c, ok c = false) (issued w w') →
       status resp = 500 ∧ ∃ e, body resp = JsonError e)) as shape.
  { intros b line msg Hb.
    destruct (try_catch_500 b line msg w Hb) as (resp & w' & E & H).
    exists resp, w'. split; [done|]. intros Hx. rewrite (H Hx). simpl. eauto. }
  destruct r; simpl;
    [unfold get_books | unfold get_book | unfold post_book | unfold put_book
    | unfold delete_book | unfold get_stats | unfold get_genres];
    apply shape; clean_steps.
Qed.

(** ** Invariants of the table *)

Lemma ids_filter (P : book → Prop) `{∀ b, Decision (P b)} (bs : list book) :
  NoDup (Pg.id <$> bs) → NoDup (Pg.id <$> filter P bs).
Proof.
  intros Hn. eapply sublist_NoDup; [exact Hn|].
  apply fmap_sublist, sublist_filter.
Qed.

Lemma ids_set_fields (P : book → Prop) `{∀ b, Decision (P b)} f now (bs : list book) :
  Pg.id <$> ((λ r, if decide (P r) then set_fields f now r else r) <$> bs)
  = Pg.id <$> bs.
Proof.
  rewrite <- list_fmap_compose. apply list_fmap_ext. intros i b _. simpl.
  by destruct (decide (P b)).
Qed.

(** A statement the store accepts keeps the table consistent. *)
Lemma exec_consistent q ps d rows d' :
  exec q ps d = Some (rows, d') → consistent d → consistent d'.
Proof.
  intros E [Ht [Hk Hs]]. destruct q; simpl in E.
  - destruct (mapM _ _); simpl in E; [|done]. by injection E as _ <-.
  - destruct ps as [|k [|]]; try done.
    destruct (nullable int4_in k); simpl in E; [|done]. by injection E as _ <-.
  - destruct ps as [|t [|a [|y [|g [|p [|pr [|i [|ds [|]]]]]]]]]; try done.
    destruct (bind8 _ _ _ _ _ _ _ _) as [bd|]; simpl in E; [|done].
    destruct (assign bd) as [f|]; simpl in E; [|done].
    injection E as _ <-. split; [|split]; simpl.
    + intros b [Hb | ->%list_elem_of_singleton]%elem_of_app; [by apply Ht|].
      simpl. lia.
    + rewrite fmap_app. apply NoDup_app. split_and!; [done | | apply NoDup_singleton].
      intros k (b & -> & Hb)%list_elem_of_fmap Hk0.
      apply list_elem_of_singleton in Hk0. specialize (Hs b Hb).
      simpl in Hk0. lia.
    + intros b [Hb | ->%list_elem_of_singleton]%elem_of_app.
      * specialize (Hs b Hb). lia.
      * simpl. lia.
  - destruct ps as [|t [|a [|y [|g [|p [|pr [|i [|ds [|k [|]]]]]]]]]]; try done.
    destruct (bind8 _ _ _ _ _ _ _ _) as [bd|]; simpl in E; [|done].
    destruct (nullable int4_in k) as [k'|]; simpl in E; [|done].
    destruct (assign bd) as [f|]; simpl in E; [|done].
    destruct (filter (id_is k') (books d)) as [|old hit].
    { by injection E as _ <-. }
    injection E as _ <-. split; [|split]; simpl.
    + intros b (r & -> & Hr)%list_elem_of_fmap. destruct (Ht r Hr).
      destruct (decide (id_is k' r)); simpl; lia.
    + by rewrite ids_set_fields.
    + intros b (r & -> & Hr)%list_elem_of_fmap. specialize (Hs r Hr).
      by destruct (decide (id_is k' r)).
  - destruct ps as [|k [|]]; try done.
    destruct (nullable int4_in k) as [k'|]; simpl in E; [|done].
    injection E as _ <-. split; [|split]; simpl.
    + intros b [_ Hb]%list_elem_of_filter. by apply Ht.
    + by apply ids_filter.
    + intros b [_ Hb]%list_elem_of_filter. by apply Hs.
  - destruct ps; [|done]. by injection E as _ <-.
  - destruct ps; [|done]. by injection E as _ <-.
  - destruct ps; [|done]. by injection E as _ <-.
  - destruct ps; [|done]. destruct (filter _ (books d)); by injection E as _ <-.
  - destruct ps; [|done]. by injection E as _ <-.
Qed.

(** The table as [CREATE TABLE] leaves it is consistent, whatever the time. *)
Example empty_table_consistent now lc : consistent (Database [] 1 now lc).
Proof.
  split_and!; simpl; [intros b Hb | constructor | intros b Hb];
    by apply elem_of_nil in Hb.
Qed.

Lemma keeps_ret {A} (a : A) : keeps (mret a).
Proof. by intros w. Qed.

Lemma keeps_throw {A} e : keeps (@throw A e).
Proof. by intros w. Qed.

Lemma keeps_bind {A B} (m : M A) (f : A → M B) :
  keeps m → (∀ a, keeps (f a)) → keeps (m ≫= f).
Proof.
  intros Hm Hf w Hw. unfold mbind, M_bind. specialize (Hm w Hw).
  destruct (m w) as [[a|e] w1]; simpl in *; [by apply Hf | done].
Qed.

Lemma keeps_try_catch {A} (m : M A) h :
  keeps m → (∀ e, keeps (h e)) → keeps (try_catch m h).
Proof.
  intros Hm Hh w Hw. unfold try_catch. specialize (Hm w Hw).
  destruct (m w) as [[a|e] w1]; simpl in *; [done | by apply Hh].
Qed.

Lemma keeps_console_error line : keeps (console_error line).
Proof. by intros w. Qed.

Lemma keeps_pool_query q vs : keeps (pool_query q vs).
Proof.
  intros w Hw. unfold pool_query.
  destruct (faults w) as [|[] fs]; simpl; try done;
    destruct (exec q _ (db w)) as [[rows d]|] eqn:E; simpl; try done;
    by eapply exec_consistent.
Qed.

Lemma keeps_row0_count rows : keeps (row0_count rows).
Proof. destruct rows as [|[] ?]; simpl; auto using keeps_ret, keeps_throw. Qed.

Lemma keeps_row0_total rows : keeps (row0_total rows).
Proof. destruct rows as [|[] ?]; simpl; auto using keeps_ret, keeps_throw. Qed.

Lemma keeps_res_json code b : keeps (res_json code b).
Proof. apply keeps_ret. Qed.

Create HintDb keeps.
#[global] Hint Resolve keeps_ret keeps_throw keeps_pool_query keeps_row0_count
  keeps_row0_total keeps_res_json keeps_console_error : keeps.

Ltac keeps_steps :=
  repeat first
    [ apply keeps_try_catch; [|intros ?]
    | apply keeps_bind; [|intros ?]
    | solve [auto with keeps]
    | match goal with |- context [if ?c then _ else _] => destruct c end ];
  simpl.

(** Every operation keeps the table consistent: timestamps ordered and not
    in the future, ids unique and below the sequence. *)
Lemma handle_consistent r w :
  consistent (db w) → consistent (db (handle r w).2).
Proof.
  revert w. change (keeps (handle r)).
  destruct r; simpl;
    [unfold get_books | unfold get_book | unfold post_book | unfold put_book
    | unfold delete_book | unfold get_stats | unfold get_genres];
    keeps_steps.
Qed.

(** ** Get and Delete by id *)

Lemma id_is_Some n b : id_is (Some n) b ↔ Pg.id b = n.
Proof. unfold id_is. split; [by intros [= ->] | by intros ->]. Qed.

Lemma get_book_calm id w :
  calm w = true →
  get_book id w =
    let w0 b := World (db w) (tail (faults w))
                  (queries w ++ [Call SelectBook [JStr id] b]) in
    match int4_in id with
    | None =>
        (Returned (Response 500 (JsonError "Failed to fetch book")),
         w0 false (console w ++ ["Error fetching book:"]))
    | Some n =>
        match filter (λ b, Pg.id b = n) (books (db w)) with
        | [] => (Returned (Response 404 (JsonError "Book not found")), w0 true (console w))
        | b :: _ => (Returned (Response 200 (JsonRow (Some (BookRow b)))), w0 true (console w))
        end
    end.
Proof.
  intros Hc. unfold get_book, try_catch, mbind, M_bind.
  rewrite pool_query_calm by done. simpl.
  destruct (int4_in id) as [n|]; simpl; [|done].
  rewrite (list_filter_iff _ (λ b, Pg.id b = n)) by (intros; apply id_is_Some).
  by destruct (filter _ (books (db w))).
Qed.

Lemma delete_book_calm id w :
  calm w = true →
  delete_book id w =
    let w0 d b := World d (tail (faults w))
                    (queries w ++ [Call DeleteBook [JStr id] b]) in
    match int4_in id with
    | None =>
        (Returned (Response 500 (JsonError "Failed to delete book")),
         w0 (db w) false (console w ++ ["Error deleting book:"]))
    | Some n =>
        let d := Database (filter (λ b, Pg.id b ≠ n) (books (db w)))
                          (books_id_seq (db w)) (clock (db w)) (lc_ctype (db w)) in
        match filter (λ b, Pg.id b = n) (books (db w)) with
        | [] => (Returned (Response 404 (JsonError "Book not found")), w0 d true (console w))
        | _ :: _ =>
            (Returned (Response 200 (JsonMessage "Book deleted successfully")),
             w0 d true (console w))
        end
    end.
Proof.
  intros Hc. unfold delete_book, try_catch, mbind, M_bind.
  rewrite pool_query_calm by done. simpl.
  destruct (int4_in id) as [n|]; simpl; [|done].
  rewrite (list_filter_iff _ (λ b, Pg.id b = n)) by (intros; apply id_is_Some).
  rewrite (list_filter_iff (λ r, ¬ id_is (Some n) r) (λ b, Pg.id b ≠ n))
    by (intros; by rewrite id_is_Some).
  by destruct (filter _ (books (db w))).
Qed.

Lemma filter_none_iff {A} (P : A → Prop) `{∀ x, Decision (P x)} (l : list A) :
  filter P l = [] ↔ ∀ x, x ∈ l → ¬ P x.
Proof.
  split.
  - intros E x Hx HP. eapply filter_nil_not_elem_of; eauto.
  - intros Hn. destruct (filter P l) as [|x l'] eqn:E; [done|].
    assert (x ∈ filter P l) as Hx by (rewrite E; left).
    apply list_elem_of_filter in Hx as [HP Hx]. by destruct (Hn x Hx).
Qed.

(** The store refuses such a text for an integer. *)
Lemma never_an_integer_unread s : never_an_integer s = true → int4_in s = None.
Proof.
  unfold never_an_integer. intros [_ H]%andb_true_iff.
  by apply bool_decide_eq_true in H.
Qed.

(** C3, amended.  With the store reachable, Get hands the id text to the
    store, which reads it as a 32-bit integer.  An id that reads as an
    integer matching no record is answered 404 'Book not found'; one that
    matches a record is answered 200 with such a record; an id that is
    neither a decimal literal within the 32-bit range nor written in
    another notation of integers (a prefix [0x], [0o], [0b], or digits
    separated by underscores) makes the query fail, and the answer is the
    internal error 500.  The table is never changed. *)
Theorem get_book_by_id id w :
  calm w = true →
  (∀ n, int4_in id = Some n → (∀ b, b ∈ books (db w) → Pg.id b ≠ n) →
     (get_book id w).1 = Returned (Response 404 (JsonError "Book not found"))) ∧
  (∀ n b, int4_in id = Some n → b ∈ books (db w) → Pg.id b = n →
     ∃ b', b' ∈ books (db w) ∧ Pg.id b' = n ∧
       (get_book id w).1 = Returned (Response 200 (JsonRow (Some (BookRow b'))))) ∧
  (never_an_integer id = true →
     (get_book id w).1 = Returned (Response 500 (JsonError "Failed to fetch book"))) ∧
  db (get_book id w).2 = db w.
Proof.
  intros Hc. rewrite get_book_calm by done. simpl. split_and!.
  - intros n -> Hn.
    assert (filter (λ b, Pg.id b = n) (books (db w)) = []) as ->; [|done].
    apply filter_none_iff. intros b Hb. by apply Hn.
  - intros n b -> Hb Hid.
    destruct (filter (λ b, Pg.id b = n) (books (db w))) as [|b' l] eqn:E.
    + rewrite filter_none_iff in E. by destruct (E b Hb).
    + assert (b' ∈ filter (λ b, Pg.id b = n) (books (db w))) as Hb'
        by (rewrite E; left).
      apply list_elem_of_filter in Hb' as [? ?]. by exists b'.
  - by intros ->%never_an_integer_unread.
  - destruct (int4_in id); [|done]. by destruct (filter _ _).
Qed.

Lemma get_book_by_id_witness :
  (get_book "7" (at_rest one_book)).1
    = Returned (Response 404 (JsonError "Book not found")) ∧
  (get_book "x1" (at_rest one_book)).1
    = Returned (Response 500 (JsonError "Failed to fetch book")) ∧
  (get_book "1.5" (at_rest one_book)).1
    = Returned (Response 500 (JsonError "Failed to fetch book")) ∧
  (get_book "4294967297" (at_rest one_book)).1
    = Returned (Response 500 (JsonError "Failed to fetch book")) ∧
  (get_book "12abc" (at_rest one_book)).1
    = Returned (Response 500 (JsonError "Failed to fetch book")).
Proof.
  split_and!.
  - apply (get_book_by_id "7" (at_rest one_book) eq_refl) with (n := 7).
    + vm_compute; reflexivity.
    + intros b Hb. apply list_elem_of_singleton in Hb as ->. vm_compute. discriminate.
  - apply (get_book_by_id "x1" (at_rest one_book) eq_refl). vm_compute; reflexivity.
  - apply (get_book_by_id "1.5" (at_rest one_book) eq_refl). vm_compute; reflexivity.
  - apply (get_book_by_id "4294967297" (at_rest one_book) eq_refl).
    vm_compute; reflexivity.
  - apply (get_book_by_id "12abc" (at_rest one_book) eq_refl).
    vm_compute; reflexivity.
Defined.

(** C3 as stated fails: a non-numeric id is answered 500, not 404. *)
Lemma get_non_numeric_id_not_404 :
  ∃ resp,
    (get_book "abc" (at_rest one_book)).1 = Returned resp ∧
    status resp = 500 ∧ status resp ≠ 404.
Proof. eexists. vm_compute. split_and!; [reflexivity | reflexivity | discriminate]. Qed.

Lemma filter_all {A} (P : A → Prop) `{∀ x, Decision (P x)} (l : list A) :
  (∀ x, x ∈ l → P x) → filter P l = l.
Proof.
  induction l as [|x l IH]; intros Hall; [done|].
  rewrite filter_cons_True by (apply Hall; left).
  f_equal. apply IH. intros y Hy. apply Hall. by right.
Qed.

(** Under the key, the rows with another id are all the rows but one. *)
Lemma delete_one (bs : list book) n :
  NoDup (Pg.id <$> bs) → (∃ b, b ∈ bs ∧ Pg.id b = n) →
  length bs = S (length (filter (λ b, Pg.id b ≠ n) bs)).
Proof.
  induction bs as [|x l IH]; intros Hk (b & Hb & Hid).
  - by apply elem_of_nil in Hb.
  - rewrite fmap_cons in Hk. apply NoDup_cons in Hk as [Hx Hl].
    destruct (decide (Pg.id x = n)) as [Hxn|Hxn].
    + rewrite filter_cons_False by (intros ?; done).
      rewrite filter_all; [done|]. intros y Hy E. apply Hx.
      rewrite Hxn, <- E. by apply list_elem_of_fmap_2.
    + rewrite filter_cons_True by done. simpl. f_equal. apply IH; [done|].
      exists b. split; [|done].
      apply elem_of_cons in Hb as [-> | Hb]; [done | done].
Qed.

(** C8, amended.  With the store reachable: a Delete answered 200 carries
    the confirmation, has removed exactly the rows whose id is the one the
    store read from the text (of which there was at least one; exactly one
    when the table is consistent) and kept every other row, and a Get of
    the same id afterwards is answered 404; a Delete of an id that reads as
    the id of a record is answered 200; a Delete of an id that reads as an
    integer matching no record is answered 404 and leaves the database as
    it was; a Delete of an id that is neither a decimal literal within the
    32-bit range nor written in another notation of integers is answered
    with the internal error 500 and leaves the database as it was. *)
Theorem delete_then_get id w :
  calm w = true →
  (∀ resp w', delete_book id w = (Returned resp, w') → status resp = 200 →
     body resp = JsonMessage "Book deleted successfully" ∧
     (∃ n, (∀ m, int4_in id = Some m → m = n) ∧
           (∃ b, b ∈ books (db w) ∧ Pg.id b = n) ∧
           books (db w') = filter (λ b, Pg.id b ≠ n) (books (db w))) ∧
     (consistent (db w) → length (books (db w)) = S (length (books (db w')))) ∧
     (get_book id w').1 = Returned (Response 404 (JsonError "Book not found"))) ∧
  (∀ n b, int4_in id = Some n → b ∈ books (db w) → Pg.id b = n →
     (delete_book id w).1 =
       Returned (Response 200 (JsonMessage "Book deleted successfully"))) ∧
  (∀ n, int4_in id = Some n → (∀ b, b ∈ books (db w) → Pg.id b ≠ n) →
     (delete_book id w).1 = Returned (Response 404 (JsonError "Book not found")) ∧
     db (delete_book id w).2 = db w) ∧
  (never_an_integer id = true →
     (delete_book id w).1 = Returned (Response 500 (JsonError "Failed to delete book")) ∧
     db (delete_book id w).2 = db w).
Proof.
  intros Hc. rewrite delete_book_calm by done. simpl. split_and!.
  - intros resp w' E H200.
    destruct (int4_in id) as [n|] eqn:En; [|by inversion E; subst].
    destruct (filter (λ b, Pg.id b = n) (books (db w))) as [|b l] eqn:Ef;
      inversion E; subst; clear E; [done|]. simpl.
    assert (∃ b, b ∈ books (db w) ∧ Pg.id b = n) as Hex.
    { assert (b ∈ filter (λ b, Pg.id b = n) (books (db w))) as Hb
        by (rewrite Ef; left).
      apply list_elem_of_filter in Hb as [? ?]. by exists b. }
    split_and!; [done| | |].
    + exists n. split_and!; [by intros m [= <-] | done | done].
    + intros (_ & Hk & _). by apply delete_one.
    + rewrite get_book_calm by (by apply calm_tail). simpl. rewrite En.
      rewrite list_filter_filter.
      assert (filter (λ b, Pg.id b = n ∧ Pg.id b ≠ n) (books (db w)) = []) as ->;
        [|done].
      apply filter_none_iff. intros b' _ [? ?]. done.
  - intros n b -> Hb Hid.
    destruct (filter (λ b, Pg.id b = n) (books (db w))) as [|b' l] eqn:E; [|done].
    rewrite filter_none_iff in E. by destruct (E b Hb).
  - intros n -> Hn.
    assert (filter (λ b, Pg.id b = n) (books (db w)) = []) as ->
      by (apply filter_none_iff; intros b Hb; by apply Hn).
    simpl. split; [done|].
    rewrite filter_all by done. by destruct (db w).
  - by intros ->%never_an_integer_unread.
Qed.

Lemma delete_then_get_witness :
  (delete_book "1" (at_rest one_book)).1 =
     Returned (Response 200 (JsonMessage "Book deleted successfully")) ∧
  (get_book "1" (delete_book "1" (at_rest one_book)).2).1 =
     Returned (Response 404 (JsonError "Book not found")) ∧
  db (delete_book "2" (at_rest one_book)).2 = one_book ∧
  (delete_book "one" (at_rest one_book)).1 =
     Returned (Response 500 (JsonError "Failed to delete book")).
Proof.
  destruct (delete_then_get "1" (at_rest one_book) eq_refl) as (Hget & Hok & _).
  destruct (delete_then_get "2" (at_rest one_book) eq_refl) as (_ & _ & Hno & _).
  destruct (delete_then_get "one" (at_rest one_book) eq_refl) as (_ & _ & _ & Hbad).
  split_and!.
  - vm_compute; reflexivity.
  - eapply Hget; vm_compute; reflexivity.
  - apply (Hno 2); [vm_compute; reflexivity|].
    intros b Hb. apply list_elem_of_singleton in Hb as ->. vm_compute. discriminate.
  - apply Hbad. vm_compute; reflexivity.
Defined.

(** C8 as stated fails: the id [abc] is the id of no record, and Delete
    answers it with the internal error 500, not with 404. *)
Lemma delete_non_numeric_id_not_404 :
  ∃ resp,
    (delete_book "abc" (at_rest one_book)).1 = Returned resp ∧
    status resp = 500 ∧ status resp ≠ 404 ∧
    (∀ b, b ∈ books one_book → int4_in "abc" ≠ Some (Pg.id b)).
Proof.
  eexists. split_and!;
    [vm_compute; reflexivity | reflexivity | simpl; discriminate |].
  intros b _. vm_compute. discriminate.
Qed.

(** ** Stats and Genres *)

(** [SELECT ... WHERE genre IS NOT NULL AND genre != ''] keeps these. *)
Lemma has_genre_named b : has_genre b = true ↔ named_genre b ≠ None.
Proof.
  unfold has_genre, named_genre. destruct (genre b) as [g|]; simpl; [|done].
  destruct (String.eqb_spec g ""); case_decide; naive_solver.
Qed.

Lemma omap_cons_match {A B} (f : A → option B) x (l : list A) :
  omap f (x :: l) =
    match f x with Some y => y :: omap f l | None => omap f l end.
Proof. reflexivity. Qed.

Lemma named_genre_Some b g : named_genre b = Some g → genre b = Some g.
Proof.
  unfold named_genre. destruct (genre b); simpl; [|done].
  case_decide; naive_solver.
Qed.

Lemma genres_selected (bs : list book) :
  genre <$> filter (λ b, has_genre b) bs = Some <$> omap named_genre bs.
Proof.
  induction bs as [|b bs IH]; [done|].
  rewrite filter_cons.
  rewrite omap_cons_match.
  destruct (named_genre b) as [g|] eqn:En.
  - rewrite decide_True
      by (apply Is_true_true, has_genre_named; congruence).
    rewrite !fmap_cons, IH. by rewrite (named_genre_Some b g).
  - rewrite decide_False; [done|].
    intros H. apply Is_true_true, has_genre_named in H. done.
Qed.

Lemma elem_of_named_genres (bs : list book) g :
  g ∈ omap named_genre bs ↔ g ≠ "" ∧ ∃ b, b ∈ bs ∧ genre b = Some g.
Proof.
  rewrite list_elem_of_omap. unfold named_genre. split.
  - intros (b & Hb & E). destruct (genre b) as [g'|] eqn:Eg; simpl in E; [|done].
    case_decide; simplify_eq. eauto.
  - intros (Hg & b & Hb & Eg). exists b. rewrite Eg. simpl. by case_decide.
Qed.

Lemma remove_dups_fmap_inj {A B} `{EqDecision A, EqDecision B}
    (f : A → B) `{!Inj (=) (=) f} (l : list A) :
  remove_dups (f <$> l) = f <$> remove_dups l.
Proof.
  induction l as [|x l IH]; [done|].
  rewrite fmap_cons.
  change (remove_dups (f x :: (f <$> l))) with
    (if decide_rel elem_of (f x) (f <$> l)
     then remove_dups (f <$> l) else f x :: remove_dups (f <$> l)).
  change (remove_dups (x :: l)) with
    (if decide_rel elem_of x l then remove_dups l else x :: remove_dups l).
  destruct (decide_rel elem_of (f x) (f <$> l)) as [H1|H1],
           (decide_rel elem_of x l) as [H2|H2];
    rewrite ?fmap_cons, ?IH; try done.
  - apply list_elem_of_fmap in H1 as (y & E & Hy). apply (inj f) in E. by subst.
  - destruct H1. by apply list_elem_of_fmap_2.
Qed.

Lemma length_remove_dups `{Countable A} (l : list A) :
  length (remove_dups l) = size (list_to_set l : gset A).
Proof.
  rewrite <- (size_list_to_set (C := gset A) (remove_dups l))
    by apply NoDup_remove_dups.
  f_equal. apply set_eq. intros x.
  by rewrite !elem_of_list_to_set, elem_of_remove_dups.
Qed.

Lemma sum_priced (bs : list book) :
  sum (omap price (filter (λ b, is_Some (price b)) bs)) = sum (omap price bs).
Proof.
  induction bs as [|b bs IH]; [done|].
  rewrite filter_cons, (omap_cons_match price b bs).
  destruct (decide (is_Some (price b))) as [[p E]|N].
  - rewrite omap_cons_match, E. unfold sum in *. simpl. by rewrite IH.
  - destruct (price b) eqn:E; [destruct N; eauto | done].
Qed.

Lemma sum_unpriced (bs : list book) :
  (∀ b, b ∈ bs → price b = None) → sum (omap price bs) = Hundredths 0.
Proof.
  induction bs as [|b bs IH]; intros Hn; [done|].
  rewrite omap_cons_match, (Hn b) by left.
  apply IH. intros b' Hb'. apply Hn. by right.
Qed.

(** A sum of numbers is their sum; one NaN makes the sum NaN. *)
Lemma sum_finite (l : list decimal) :
  NaN ∉ l → sum l = Hundredths (foldr Z.add 0 (omap finite l)).
Proof.
  induction l as [|p l IH]; intros Hn; [done|].
  rewrite not_elem_of_cons in Hn. destruct Hn as [Hp Hl].
  destruct p as [n|]; [|done].
  unfold sum in *. simpl. by rewrite IH.
Qed.

Lemma add_NaN a : add a NaN = NaN.
Proof. by destruct a. Qed.

Lemma sum_NaN (l : list decimal) : NaN ∈ l → sum l = NaN.
Proof.
  induction l as [|p l IH]; intros Hn; [by apply elem_of_nil in Hn|].
  unfold sum in *. simpl.
  apply elem_of_cons in Hn as [<- | Hn]; [done|].
  rewrite IH by done. apply add_NaN.
Qed.

Lemma prices_finite (bs : list book) :
  omap finite (omap price bs) = omap (λ b, price b ≫= finite) bs.
Proof.
  induction bs as [|b bs IH]; [done|].
  rewrite (omap_cons_match price), (omap_cons_match (λ b, price b ≫= finite)).
  destruct (price b) as [p|]; [|exact IH].
  rewrite omap_cons_match. cbn [mbind option_bind].
  destruct (finite p); by rewrite IH.
Qed.

(** The representatives are as many as the images without duplicates. *)
Lemma representatives_images f (l : list string) :
  f <$> representatives f l = remove_dups (f <$> l).
Proof.
  induction l as [|x l IH]; [done|].
  rewrite fmap_cons.
  change (remove_dups (f x :: (f <$> l))) with
    (if decide_rel elem_of (f x) (f <$> l)
     then remove_dups (f <$> l) else f x :: remove_dups (f <$> l)).
  simpl representatives.
  destruct (decide (f x ∈ f <$> l)) as [H1|H1],
           (decide_rel elem_of (f x) (f <$> l)) as [H2|H2];
    rewrite ?fmap_cons, ?IH; done.
Qed.

Lemma representatives_subseteq f (l : list string) : representatives f l ⊆ l.
Proof.
  induction l as [|x l IH]; [done|]. simpl.
  destruct (decide (f x ∈ f <$> l)).
  - intros y Hy. right. by apply IH.
  - intros y [-> | Hy]%elem_of_cons; [left | right; by apply IH].
Qed.

Lemma get_stats_calm w :
  calm w = true →
  ∃ w',
    get_stats w =
      (Returned (Response 200 (JsonStats
         (Z.of_nat (length (books (db w))))
         (Z.of_nat (length (remove_dups
            (sql_lower (lc_ctype (db w)) ∘ author <$> books (db w)))))
         (Z.of_nat (length (remove_dups (genre <$> filter (λ b, has_genre b) (books (db w))))))
         (sum (omap price (books (db w)))))), w') ∧
    db w' = db w.
Proof.
  intros Hc. unfold get_stats, try_catch, mbind, M_bind.
  do 4 (rewrite pool_query_calm by still_calm; simpl).
  pose proof (sum_priced (books (db w))) as Hs.
  destruct (filter (λ b, is_Some (price b)) (books (db w))) as [|b l];
    simpl in *; rewrite <- Hs; eexists; split; reflexivity.
Qed.

(** C5, amended.  With the store reachable, Stats answers 200 with exactly
    the four counters, read from the table as it is and leaving it
    unchanged.  [totalBooks] is the number of rows.  [uniqueAuthors] is the
    number of authors up to letter case as the store lowers it: the size of
    the set of lowered names, and the length of a list of authors of the
    table in which every author of the table has exactly one namesake.
    [uniqueGenres] is the size of the set of genres that are neither NULL
    nor empty.  [totalValue] is the sum of the prices that are not NULL
    when they are all numbers and the sum has at most 15 digits, as a
    JavaScript number holds exactly; it is 0 when no row has a price, and
    NaN as soon as one price is NaN. *)
Theorem stats_counters w :
  calm w = true →
  ∃ (authors genres : gset string) (names : list string) total w',
    get_stats w =
      (Returned (Response 200 (JsonStats
         (Z.of_nat (length (books (db w))))
         (Z.of_nat (size authors)) (Z.of_nat (size genres)) total)), w') ∧
    db w' = db w ∧
    (∀ a, a ∈ authors ↔
          ∃ b, b ∈ books (db w) ∧ sql_lower (lc_ctype (db w)) (author b) = a) ∧
    (length names = size authors ∧
     (∀ a, a ∈ names → ∃ b, b ∈ books (db w) ∧ author b = a) ∧
     (∀ b, b ∈ books (db w) →
           ∃ a, a ∈ names ∧ same_author (lc_ctype (db w)) (author b) a) ∧
     (∀ i j a a', names !! i = Some a → names !! j = Some a' →
                  same_author (lc_ctype (db w)) a a' → i = j)) ∧
    (∀ g, g ∈ genres ↔ g ≠ "" ∧ ∃ b, b ∈ books (db w) ∧ genre b = Some g) ∧
    ((∀ b, b ∈ books (db w) → price b ≠ Some NaN) →
       let s := foldr Z.add 0 (omap (λ b, price b ≫= finite) (books (db w))) in
       Z.abs s < 10 ^ 15 → total = Hundredths s) ∧
    ((∀ b, b ∈ books (db w) → price b = None) → total = Hundredths 0) ∧
    ((∃ b, b ∈ books (db w) ∧ price b = Some NaN) → total = NaN).
Proof.
  intros Hc. destruct (get_stats_calm w Hc) as (w' & E & Hdb).
  set (lc := lc_ctype (db w)) in *.
  set (f := sql_lower lc).
  exists (list_to_set (f ∘ author <$> books (db w))),
         (list_to_set (omap named_genre (books (db w)))),
         (representatives f (author <$> books (db w))),
         (sum (omap price (books (db w)))), w'.
  assert (f <$> representatives f (author <$> books (db w))
          = remove_dups (f ∘ author <$> books (db w))) as Hrep.
  { rewrite representatives_images. by rewrite <- list_fmap_compose. }
  split_and!; try done.
  - rewrite E. repeat f_equal.
    + apply length_remove_dups.
    + rewrite genres_selected, remove_dups_fmap_inj by apply _.
      rewrite length_fmap. apply length_remove_dups.
  - intros a. rewrite elem_of_list_to_set, list_elem_of_fmap.
    split; intros (b & ? & ?); exists b; done.
  - rewrite <- length_remove_dups, <- Hrep. by rewrite length_fmap.
  - intros a Ha. apply representatives_subseteq in Ha.
    apply list_elem_of_fmap in Ha as (b & -> & Hb). by exists b.
  - intros b Hb.
    assert (f (author b) ∈ f <$> representatives f (author <$> books (db w))) as Hin.
    { rewrite Hrep, elem_of_remove_dups.
      apply list_elem_of_fmap. by exists b. }
    apply list_elem_of_fmap in Hin as (a & Ea & Ha). by exists a.
  - intros i j a a' Hi Hj Hs.
    assert (NoDup (f <$> representatives f (author <$> books (db w)))) as Hnd
      by (rewrite Hrep; apply NoDup_remove_dups).
    eapply NoDup_lookup; [exact Hnd | |].
    + rewrite list_lookup_fmap, Hi. reflexivity.
    + rewrite list_lookup_fmap, Hj. simpl. f_equal. symmetry. exact Hs.
  - intros g. rewrite elem_of_list_to_set. apply elem_of_named_genres.
  - intros Hfin s _. rewrite sum_finite, prices_finite; [done|].
    intros (b & Hp & Hb)%list_elem_of_omap. by apply (Hfin b).
  - apply sum_unpriced.
  - intros (b & Hb & Hp). apply sum_NaN. apply list_elem_of_omap. by exists b.
Qed.

Lemma stats_counters_witness :
  ∃ (authors genres : gset string) (names : list string) total w',
    get_stats (at_rest shelf) =
      (Returned (Response 200 (JsonStats 3 (Z.of_nat (size authors))
                                 (Z.of_nat (size genres)) total)), w') ∧
    length names = size authors ∧
    (∀ b, b ∈ books shelf → ∃ a, a ∈ names ∧ same_author c_locale (author b) a) ∧
    total = Hundredths 2249.
Proof.
  destruct (stats_counters (at_rest shelf) eq_refl)
    as (authors & genres & names & total & w' & E & _ & _ & (Hl & _ & Hn & _) & _
        & Ht & _).
  exists authors, genres, names, total, w'. split_and!; [exact E | exact Hl | exact Hn |].
  rewrite Ht; [reflexivity | | vm_compute; reflexivity].
  intros b Hb. simpl in Hb.
  repeat (apply elem_of_cons in Hb as [-> | Hb]; [simpl; discriminate|]).
  by apply elem_of_nil in Hb.
Defined.

Example stats_of_shelf :
  (get_stats (at_rest shelf)).1
  = Returned (Response 200 (JsonStats 3 2 1 (Hundredths 2249))).
Proof. vm_compute. reflexivity. Qed.

Example stats_of_empty_table lc :
  (get_stats (at_rest (Database [] 1 0 lc))).1
  = Returned (Response 200 (JsonStats 0 0 0 (Hundredths 0))).
Proof. reflexivity. Qed.

(** Letter case is folded as the locale of the database has it: two
    spellings of one author count once. *)
Example stats_fold_accents :
  (get_stats (at_rest zola)).1
  = Returned (Response 200 (JsonStats 3 2 0 (Hundredths 0))).
Proof. vm_compute. reflexivity. Qed.

(** C5 as stated fails.  The store takes the text [NaN] for a price; with
    such a row in the table, which a Create puts there, the total of the
    prices that are not NULL is no number: Stats answers NaN, which the
    response carries as [null], though another row has the price 12.50. *)
Lemma stats_total_is_not_a_sum :
  ∃ b w1 n a g,
    post_book nan_priced (at_rest one_book)
      = (Returned (Response 201 (JsonRow (Some (BookRow b)))), w1) ∧
    price b = Some NaN ∧
    (∃ b0, b0 ∈ books (db w1) ∧ price b0 = Some (Hundredths 1250)) ∧
    (get_stats w1).1 = Returned (Response 200 (JsonStats n a g NaN)) ∧
    ∀ z, NaN ≠ Hundredths z.
Proof.
  eexists _, _, _, _, _. split_and!.
  - vm_compute. reflexivity.
  - reflexivity.
  - eexists. split; [left | reflexivity].
  - vm_compute. reflexivity.
  - discriminate.
Qed.

#[local] Instance genre_le_total : Total genre_le.
Proof.
  intros [x|] [y|]; simpl; try tauto.
  destruct (String.leb_total x y) as [H|H]; rewrite H; simpl; tauto.
Qed.

Lemma all_Some {A} (l : list (option A)) :
  Forall is_Some l → l = Some <$> omap (λ x, x) l.
Proof.
  induction 1 as [|x l [y ->] _ IH]; [done|].
  rewrite omap_cons_match, fmap_cons. by f_equal.
Qed.

Lemma Sorted_genre_le (gs : list string) :
  Sorted genre_le (Some <$> gs) → Sorted (λ a b : string, String.leb a b) gs.
Proof.
  induction gs as [|g gs IH]; [constructor|].
  rewrite fmap_cons. intros H. inversion H as [|? ? Hs Hh]; subst.
  constructor; [by apply IH|].
  destruct gs as [|g' gs]; [constructor|].
  rewrite fmap_cons in Hh. inversion Hh; subst. by constructor.
Qed.

Lemma row_genre_GenreRow (l : list (option string)) :
  row_genre <$> (GenreRow <$> l) = l.
Proof. rewrite <- list_fmap_compose. apply list_fmap_id. Qed.

Lemma get_genres_calm w :
  calm w = true →
  ∃ w',
    get_genres w =
      (Returned (Response 200 (JsonGenres
         (merge_sort genre_le
            (remove_dups (genre <$> filter (λ b, has_genre b) (books (db w))))))),
       w') ∧
    db w' = db w.
Proof.
  intros Hc. unfold get_genres, try_catch, mbind, M_bind.
  rewrite pool_query_calm by still_calm. simpl.
  rewrite row_genre_GenreRow. eexists. split; reflexivity.
Qed.

(** C6. With the store reachable, Genres answers 200 with a list of genre
    strings that has no duplicate, is sorted ascending, and holds exactly
    the genres of the table that are neither NULL nor empty; the table is
    unchanged. *)
Theorem genres_sorted_distinct w :
  calm w = true →
  ∃ (gs : list string) w',
    get_genres w = (Returned (Response 200 (JsonGenres (Some <$> gs))), w') ∧
    db w' = db w ∧
    NoDup gs ∧
    Sorted (λ a b : string, String.leb a b) gs ∧
    (∀ g, g ∈ gs ↔ g ≠ "" ∧ ∃ b, b ∈ books (db w) ∧ genre b = Some g).
Proof.
  intros Hc. destruct (get_genres_calm w Hc) as (w' & E & Hdb).
  rewrite genres_selected, remove_dups_fmap_inj in E by apply _.
  set (l := remove_dups (omap named_genre (books (db w)))) in *.
  pose proof (merge_sort_Permutation genre_le (Some <$> l)) as Hp.
  pose proof (Sorted_merge_sort genre_le (Some <$> l)) as Hs.
  set (L := merge_sort genre_le (Some <$> l)) in *.
  assert (L = Some <$> omap (λ x, x) L) as EL.
  { apply all_Some. rewrite Hp. apply Forall_fmap, Forall_true. by eexists. }
  exists (omap (λ x, x) L), w'. rewrite <- EL. split_and!; try done.
  - apply (NoDup_fmap_1 Some). rewrite <- EL, Hp.
    apply NoDup_fmap_2; [apply _|]. apply NoDup_remove_dups.
  - apply Sorted_genre_le. by rewrite <- EL.
  - intros g. transitivity (Some g ∈ L).
    + by rewrite <- (list_elem_of_fmap_inj Some (omap (λ x, x) L) g), <- EL.
    + rewrite Hp, (list_elem_of_fmap_inj Some). unfold l.
      rewrite elem_of_remove_dups. apply elem_of_named_genres.
Qed.

Lemma genres_sorted_distinct_witness :
  ∃ (gs : list string) w',
    get_genres (at_rest shelf) =
      (Returned (Response 200 (JsonGenres (Some <$> gs))), w') ∧
    db w' = shelf ∧
    NoDup gs ∧
    Sorted (λ a b : string, String.leb a b) gs ∧
    (∀ g, g ∈ gs ↔ g ≠ "" ∧ ∃ b, b ∈ books shelf ∧ genre b = Some g).
Proof. exact (genres_sorted_distinct (at_rest shelf) eq_refl). Defined.

Example genres_of_shelf :
  (get_genres (at_rest shelf)).1 = Returned (Response 200 (JsonGenres [Some "Sci-Fi"])).
Proof. vm_compute. reflexivity. Qed.

(** ** List: the search pattern *)

Lemma app_cons c s t : String c s +:+ t = String c (s +:+ t).
Proof. reflexivity. Qed.

Lemma app_empty_l t : "" +:+ t = t.
Proof. reflexivity. Qed.

Lemma app_empty_r s : s +:+ "" = s.
Proof. induction s as [|c s IH]; [done|]. by rewrite app_cons, IH. Qed.

Lemma lower_app s t : lower (s +:+ t) = lower s +:+ lower t.
Proof. induction s as [|c s IH]; [done|]. rewrite app_cons. simpl. by rewrite IH. Qed.

(** Lowering a character neither makes nor unmakes a metacharacter. *)
Lemma plain_char_lower c : plain_char (lower_char c) = plain_char c.
Proof.
  destruct c as [[] [] [] [] [] [] [] []]; vm_compute; reflexivity.
Qed.

Lemma plain_lower s : plain (lower s) = plain s.
Proof.
  induction s as [|c s IH]; [done|]. simpl. by rewrite plain_char_lower, IH.
Qed.

Lemma like_tokens_plain_char c p :
  plain_char c = true →
  like_tokens (String c p) = cons (PLit c) <$> like_tokens p.
Proof.
  destruct c as [[] [] [] [] [] [] [] []]; try reflexivity;
    vm_compute; discriminate.
Qed.

(** A plain text between two [%] is read as its own characters between two
    wildcards. *)
Lemma like_tokens_plain s :
  plain s = true → like_tokens (s +:+ "%") = Some (lits s ++ [PAny]).
Proof.
  induction s as [|c s IH]; [done|].
  change (plain (String c s)) with (plain_char c && plain s).
  intros [Hc Hs]%andb_true_iff.
  rewrite app_cons, like_tokens_plain_char, IH by done. done.
Qed.

(** The locale [C] maps nothing. *)
Lemma c_locale_characterwise : characterwise c_locale.
Proof. by split. Qed.

Lemma search_pattern lc s :
  characterwise lc → plain s = true →
  like_tokens (sql_lower lc ("%" +:+ s +:+ "%"))
  = Some (PAny :: lits (sql_lower lc s) ++ [PAny]).
Proof.
  intros [Hp Hm] Hs. unfold sql_lower. rewrite !lower_app.
  change (lower "%") with "%". rewrite Hp, app_cons, app_empty_l.
  change (like_tokens (String "%" ?p)) with (cons PAny <$> like_tokens p).
  rewrite like_tokens_plain by (by rewrite Hm, plain_lower). done.
Qed.

Lemma like_any_unfold p s :
  like_match (PAny :: p) s =
    like_match p s ||
    match s with
    | EmptyString => false
    | String _ s' => like_match (PAny :: p) s'
    end.
Proof. by destruct s. Qed.

Lemma like_any p s :
  like_match (PAny :: p) s = true ↔
  ∃ pre rest, s = pre +:+ rest ∧ like_match p rest = true.
Proof.
  induction s as [|c s IH]; rewrite like_any_unfold.
  - rewrite orb_false_r. split.
    + intros H. by exists "", "".
    + intros ([|] & rest & E & H); [|done]. by rewrite app_empty_l in E; subst.
  - rewrite orb_true_iff, IH. split.
    + intros [H | (pre & rest & -> & H)].
      * by exists "", (String c s).
      * by exists (String c pre), rest.
    + intros ([|c' pre] & rest & E & H).
      * left. by rewrite app_empty_l in E; subst.
      * right. rewrite app_cons in E. injection E as -> ->. eauto.
Qed.

Lemma like_lits t p s :
  like_match (lits t ++ p) s = true ↔
  ∃ rest, s = t +:+ rest ∧ like_match p rest = true.
Proof.
  revert s. induction t as [|c t IH]; intros s.
  - simpl. split; [by exists s | by intros (rest & -> & H)].
  - simpl. destruct s as [|d s].
    + split; [done | by intros (rest & E & _)].
    + rewrite andb_true_iff, IH. split.
      * intros [Hc (rest & -> & H)]. apply Ascii.eqb_eq in Hc as ->. by exists rest.
      * intros (rest & E & H). rewrite app_cons in E. injection E as -> ->.
        split; [apply Ascii.eqb_refl | eauto].
Qed.

Lemma like_any_all s : like_match [PAny] s = true.
Proof. apply like_any. exists s, "". by rewrite app_empty_r. Qed.

(** [%t%] matches the texts that contain [t]. *)
Lemma like_contains t s :
  like_match (PAny :: lits t ++ [PAny]) s = true ↔
  ∃ pre post, s = pre +:+ t +:+ post.
Proof.
  rewrite like_any. split.
  - intros (pre & rest & -> & H). apply like_lits in H as (post & -> & _). eauto.
  - intros (pre & post & ->). exists pre, (t +:+ post). split; [done|].
    apply like_lits. exists post. split; [done | apply like_any_all].
Qed.

Lemma ilike_occurs lc s text :
  ilike lc text (PAny :: lits (sql_lower lc s) ++ [PAny]) = true ↔ occurs_ci lc s text.
Proof. unfold ilike, occurs_ci. apply like_contains. Qed.

Lemma ilike_contains s text :
  ilike c_locale text (PAny :: lits (lower s) ++ [PAny]) = true ↔ contains_ci s text.
Proof. unfold ilike, contains_ci, sql_lower, c_locale. apply like_contains. Qed.

(** ** List: the filters *)

Lemma resolve_search lc params n s :
  characterwise lc → plain s = true →
  params !! (n - 1)%nat = Some (Some ("%" +:+ s +:+ "%")) →
  ∃ t, resolve lc params (Search n) = Some t ∧
       ∀ b, t b = true ↔
            occurs_ci lc s (title b) ∨ occurs_ci lc s (author b) ∨
            ∃ d, description b = Some d ∧ occurs_ci lc s d.
Proof.
  intros Hlc Hs Hp. unfold resolve. rewrite Hp.
  cbn -[sql_lower like_tokens String.append].
  rewrite search_pattern by done. simpl. eexists. split; [done|].
  intros b. rewrite !orb_true_iff, !ilike_occurs.
  destruct (description b) as [d|].
  - rewrite ilike_occurs.
    split; [intros [[?|?]|?]; eauto | intros [?|[?|(d' & [= <-] & ?)]]; auto].
  - split; [intros [[?|?]|?]; auto; done | intros [?|[?|(d' & ? & ?)]]; auto; done].
Qed.

Lemma resolve_genre lc params n g :
  params !! (n - 1)%nat = Some (Some g) →
  ∃ t, resolve lc params (GenreIs n) = Some t ∧ ∀ b, t b = true ↔ genre b = Some g.
Proof.
  intros Hp. unfold resolve. rewrite Hp. simpl. eexists. split; [done|].
  intros b. apply bool_decide_eq_true.
Qed.

Lemma exec_select conditions params d tests :
  mapM (resolve (lc_ctype d) params) conditions = Some tests →
  exec (SelectBooks conditions) params d =
    Some (BookRow <$> merge_sort newest_first
            (filter (λ b, forallb (λ t : book → bool, t b) tests) (books d)), d).
Proof. intros E. unfold exec. by rewrite E. Qed.

(** Which statement the list route sends. *)
Lemma get_books_query query :
  get_books query =
    try_catch
      (rows ←
         match in_effect (query !! "search"), in_effect (query !! "genre") with
         | Some s, Some g =>
             pool_query (SelectBooks [Search 1; GenreIs 2])
                        [JStr ("%" +:+ s +:+ "%"); JStr g]
         | Some s, None =>
             pool_query (SelectBooks [Search 1]) [JStr ("%" +:+ s +:+ "%")]
         | None, Some g => pool_query (SelectBooks [GenreIs 1]) [JStr g]
         | None, None => pool_query (SelectBooks []) []
         end;
       res_json 200 (JsonRows rows))
      (λ err,
         console_error "Error fetching books:";;
         res_json 500 (JsonError "Failed to fetch books")).
Proof.
  unfold get_books, Js.param, in_effect.
  destruct (query !! "search") as [s|], (query !! "genre") as [g|]; simpl;
    try destruct (String.eqb s ""); try destruct (String.eqb g ""); done.
Qed.

Lemma elem_of_selected (tests : list (book → bool)) bs b :
  b ∈ merge_sort newest_first (filter (λ b, forallb (λ t : book → bool, t b) tests) bs)
  ↔ b ∈ bs ∧ Forall (λ t : book → bool, t b = true) tests.
Proof.
  rewrite merge_sort_Permutation, list_elem_of_filter.
  rewrite Is_true_true, forallb_forall, Forall_forall.
  setoid_rewrite <- list_elem_of_In. tauto.
Qed.

#[local] Instance newest_first_total : Total newest_first.
Proof. intros a b. unfold newest_first. lia. Qed.

(** C4, amended.  With the store reachable, a case mapping that works
    character by character, and filter texts the store takes (no NUL
    character) of which the search text is free of the [LIKE]
    metacharacters, List answers 200 with books of the table, newest first,
    and a book of the table is returned iff it passes every filter in
    effect: a search in effect asks that the text occur, letter case apart,
    in the title, the author or the description; a genre in effect asks
    that the genre be exactly that text.  A filter is in effect when its
    parameter is present and not empty; with none in effect every book is
    returned. *)
Theorem list_filters query w :
  calm w = true →
  characterwise (lc_ctype (db w)) →
  plain_search query = true →
  sendable query = true →
  ∃ bs w',
    get_books query w = (Returned (Response 200 (JsonRows (BookRow <$> bs))), w') ∧
    db w' = db w ∧
    Sorted newest_first bs ∧
    ∀ b, b ∈ bs ↔
         b ∈ books (db w) ∧
         search_ok (lc_ctype (db w)) (query !! "search") b ∧
         genre_ok (query !! "genre") b.
Proof.
  intros Hc Hlc Hp _. rewrite get_books_query. unfold try_catch, mbind, M_bind.
  unfold search_ok, genre_ok. set (lc := lc_ctype (db w)) in *.
  assert (∀ s, in_effect (query !! "search") = Some s → plain s = true) as Hs.
  { unfold plain_search, in_effect in *. intros s.
    destruct (query !! "search") as [s'|]; [|done]. simpl in Hp.
    destruct (String.eqb s' ""); [done|]. by intros [= <-]. }
  destruct (in_effect (query !! "search")) as [s|],
           (in_effect (query !! "genre")) as [g|];
    rewrite pool_query_calm by done; simpl prepareValue; simpl fmap.
  - destruct (resolve_search lc [Some ("%" +:+ s +:+ "%"); Some g] 1 s)
      as (t1 & E1 & H1); [done | by apply Hs | done |].
    destruct (resolve_genre lc [Some ("%" +:+ s +:+ "%"); Some g] 2 g)
      as (t2 & E2 & H2); [done|].
    rewrite (exec_select _ _ _ [t1; t2]) by (cbn [mapM]; fold lc; by rewrite E1, E2).
    eexists _, _. split_and!; [done | done | apply Sorted_merge_sort, _ |].
    intros b. rewrite elem_of_selected, !Forall_cons, Forall_nil, <- H1, <- H2. tauto.
  - destruct (resolve_search lc [Some ("%" +:+ s +:+ "%")] 1 s) as (t1 & E1 & H1);
      [done | by apply Hs | done |].
    rewrite (exec_select _ _ _ [t1]) by (cbn [mapM]; fold lc; by rewrite E1).
    eexists _, _. split_and!; [done | done | apply Sorted_merge_sort, _ |].
    intros b. rewrite elem_of_selected, !Forall_cons, Forall_nil, <- H1. tauto.
  - destruct (resolve_genre lc [Some g] 1 g) as (t2 & E2 & H2); [done|].
    rewrite (exec_select _ _ _ [t2]) by (cbn [mapM]; fold lc; by rewrite E2).
    eexists _, _. split_and!; [done | done | apply Sorted_merge_sort, _ |].
    intros b. rewrite elem_of_selected, !Forall_cons, Forall_nil, <- H2. tauto.
  - rewrite (exec_select _ _ _ []) by done.
    eexists _, _. split_and!; [done | done | apply Sorted_merge_sort, _ |].
    intros b. rewrite elem_of_selected, Forall_nil. tauto.
Qed.

Lemma list_filters_witness :
  ∃ bs w',
    get_books dune_scifi (at_rest shelf)
      = (Returned (Response 200 (JsonRows (BookRow <$> bs))), w') ∧
    db w' = shelf ∧
    Sorted newest_first bs ∧
    ∀ b, b ∈ bs ↔
         b ∈ books shelf ∧
         search_ok c_locale (Some "dune") b ∧ genre_ok (Some "Sci-Fi") b.
Proof.
  exact (list_filters dune_scifi (at_rest shelf) eq_refl c_locale_characterwise
           eq_refl eq_refl).
Defined.

Example list_dune_scifi :
  ∃ b, (get_books dune_scifi (at_rest shelf)).1
         = Returned (Response 200 (JsonRows [BookRow b])) ∧ Pg.id b = 1.
Proof. eexists. vm_compute. split; reflexivity. Qed.

(** A search finds a text whatever the case of its letters, accented ones
    included where the locale knows them. *)
Example list_folds_accents :
  (get_books {[ "search" := "ÉMILE" ]} (at_rest zola)).1
  = Returned (Response 200 (JsonRows
      [BookRow (Book 2 "Nana" "émile zola" (Some 1880) None None None None None 110 110);
       BookRow (Book 1 "Germinal" "Émile Zola" (Some 1885) None None None None None
                     100 100)])).
Proof. vm_compute. reflexivity. Qed.

(** C4 as stated fails.  The search text [d_ne] is not contained in any
    field of the book Dune, yet List returns it; and an empty [genre]
    parameter, though present, returns books of another genre. *)
Lemma list_search_is_a_pattern :
  ∃ b rows,
    (get_books {[ "search" := "d_ne" ]} (at_rest shelf)).1
      = Returned (Response 200 (JsonRows rows)) ∧
    BookRow b ∈ rows ∧
    ¬ (contains_ci "d_ne" (title b) ∨ contains_ci "d_ne" (author b) ∨
       ∃ d, description b = Some d ∧ contains_ci "d_ne" d) ∧
    ∃ b' rows',
      (get_books {[ "genre" := "" ]} (at_rest shelf)).1
        = Returned (Response 200 (JsonRows rows')) ∧
      BookRow b' ∈ rows' ∧ genre b' ≠ Some "".
Proof.
  eexists _, _. split_and!.
  - vm_compute. reflexivity.
  - left.
  - simpl. rewrite <- !ilike_contains.
    intros [H | [H | (d & [=] & _)]]; vm_compute in H; discriminate.
  - eexists _, _. split_and!.
    + vm_compute. reflexivity.
    + left.
    + simpl. discriminate.
Qed.

(** ** List: wildcards in the search text *)



(** ** Numbers as texts *)

Lemma digit_of_pretty d :
  (d < 10)%N → digit_of (pretty_N_char d) = Some (Z.of_N d).
Proof.
  intros H.
  assert (d = 0 ∨ d = 1 ∨ d = 2 ∨ d = 3 ∨ d = 4 ∨ d = 5 ∨ d = 6 ∨ d = 7
          ∨ d = 8 ∨ d = 9)%N as Hd by lia.
  repeat (destruct Hd as [-> | Hd]; [reflexivity|]). by subst.
Qed.

(** Reading back the digits the printer puts in front of a text. *)
Lemma read_digits_pretty x :
  ∃ k : nat,
    ((0 < x)%N → (0 < k)%nat) ∧
    ∀ acc n s,
      read_digits acc n (pretty_N_go x s)
      = read_digits (acc * 10 ^ Z.of_nat k + Z.of_N x) (n + k) s.
Proof.
  induction (N.lt_wf_0 x) as [x _ IH].
  destruct (decide (x = 0)%N) as [-> | Hx].
  - exists 0%nat. split; [lia|]. intros acc n s.
    rewrite pretty_N_go_0, Nat.add_0_r. f_equal. simpl. lia.
  - destruct (IH (x `div` 10)%N) as (k & _ & Hk).
    { apply N.div_lt; lia. }
    exists (S k). split; [lia|]. intros acc n s.
    rewrite pretty_N_go_step, Hk by lia.
    cbn [read_digits]. rewrite digit_of_pretty by (apply N.mod_lt; lia).
    f_equal; [|lia].
    rewrite Nat2Z.inj_succ, Z.pow_succ_r by lia.
    pose proof (N.div_mod x 10 ltac:(lia)) as Hdm.
    assert (Z.of_N x = 10 * Z.of_N (x `div` 10) + Z.of_N (x `mod` 10)) by lia.
    lia.
Qed.

(** A printed positive number starts with a digit. *)
Lemma pretty_head x s :
  (0 < x)%N → ∃ d rest, (d < 10)%N ∧ pretty_N_go x s = String (pretty_N_char d) rest.
Proof.
  revert s. induction (N.lt_wf_0 x) as [x _ IH]. intros s Hx.
  rewrite pretty_N_go_step by done.
  destruct (decide (x `div` 10 = 0)%N) as [-> | Hd].
  - rewrite pretty_N_go_0. eexists _, _. split; [|done]. apply N.mod_lt. lia.
  - apply IH; [apply N.div_lt; lia | by apply N.neq_0_lt_0].
Qed.

Lemma digit_head d rest :
  (d < 10)%N →
  skip_spaces (String (pretty_N_char d) rest) = String (pretty_N_char d) rest ∧
  read_sign (String (pretty_N_char d) rest) = (false, String (pretty_N_char d) rest).
Proof.
  intros H.
  assert (d = 0 ∨ d = 1 ∨ d = 2 ∨ d = 3 ∨ d = 4 ∨ d = 5 ∨ d = 6 ∨ d = 7
          ∨ d = 8 ∨ d = 9)%N as Hd by lia.
  repeat (destruct Hd as [-> | Hd]; [by split|]). by subst.
Qed.

Lemma minus_head s : read_sign (skip_spaces (String "-" s)) = (true, s).
Proof. reflexivity. Qed.

(** The store reads the decimal text of an integer as that integer when
    it fits 32 bits, and refuses it otherwise. *)
Lemma int4_in_pretty (z : Z) :
  int4_in (pretty z) =
    if (- 2147483648 <=? z) && (z <=? 2147483647) then Some z else None.
Proof.
  destruct z as [|p|p].
  - reflexivity.
  - change (pretty (Z.pos p)) with (pretty_N_go (N.pos p) "").
    destruct (pretty_head (N.pos p) "") as (d & rest & Hd & E); [lia|].
    destruct (read_digits_pretty (N.pos p)) as (k & Hk & Hr).
    unfold int4_in. rewrite E.
    destruct (digit_head d rest Hd) as [-> ->]. rewrite <- E, Hr.
    cbn [read_digits all_spaces skip_spaces Z.mul Z.add Nat.add].
    assert ((0 <? k)%nat = true) as -> by (apply Nat.ltb_lt, Hk; lia).
    cbn [andb]. by rewrite Z.add_0_l.
  - change (pretty (Z.neg p)) with ("-" +:+ pretty_N_go (N.pos p) "").
    destruct (read_digits_pretty (N.pos p)) as (k & Hk & Hr).
    unfold int4_in. rewrite app_cons, app_empty_l, minus_head. rewrite Hr.
    cbn [read_digits all_spaces skip_spaces Z.mul Z.add Nat.add].
    assert ((0 <? k)%nat = true) as -> by (apply Nat.ltb_lt, Hk; lia).
    cbn [andb]. by rewrite Z.add_0_l.
Qed.

Lemma int4_in_pretty_fits (z : Z) :
  - 2147483648 ≤ z ≤ 2147483647 → int4_in (pretty z) = Some z.
Proof.
  intros Hz. rewrite int4_in_pretty.
  assert ((-2147483648 <=? z) && (z <=? 2147483647) = true) as ->; [|done].
  apply andb_true_iff. split; apply Z.leb_le; lia.
Qed.

Lemma int4_in_pretty_Some (z y : Z) :
  int4_in (pretty z) = Some y → y = z ∧ - 2147483648 ≤ z ≤ 2147483647.
Proof.
  rewrite int4_in_pretty.
  destruct (-2147483648 <=? z) eqn:E1, (z <=? 2147483647) eqn:E2; simpl;
    intros [= <-].
  apply Z.leb_le in E1, E2. done.
Qed.

(** An integer below 10^21 prints as its decimal numeral. *)
Lemma number_to_string_integer (n : Z) :
  Z.abs n < 10 ^ 21 → number_to_string n 0 = pretty n.
Proof.
  intros Hn. unfold number_to_string. cbn [shortest Nat.add Nat.eqb].
  destruct (Z.leb_spec (10 ^ Z.of_nat 21) (Z.abs n)) as [H|_]; [simpl in H; lia|].
  change (10 ^ Z.of_nat 0) with 1. rewrite Z.div_1_r, app_empty_r.
  assert ((0 <? Z.abs n) && (Z.abs n * 10 ^ 6 <? 1) = false) as ->.
  { apply andb_false_iff. destruct (Z.ltb_spec 0 (Z.abs n)); [right|by left].
    apply Z.ltb_ge. lia. }
  by destruct n.
Qed.

Lemma significand_pos fuel s : 0 < s → 0 < significand fuel s.
Proof.
  revert s. induction fuel as [|fuel IH]; intros s Hs; [done|]. simpl.
  destruct (Z.eqb_spec (s mod 10) 0) as [E|_]; [|done].
  apply IH. apply Z.div_str_pos. pose proof (Z.div_mod s 10). lia.
Qed.

Lemma substring_head c s : substring 0 1 (String c s) = String c "".
Proof. by destruct s. Qed.

(** No exponent form reads as an integer. *)
Lemma int4_in_scientific neg x rest :
  0 < x →
  int4_in ((if neg : bool then "-" else "") +:+ scientific (pretty x) +:+ String "e" rest) = None.
Proof.
  intros Hx. destruct x as [|p|p]; try lia.
  change (pretty (Z.pos p)) with (pretty_N_go (N.pos p) "").
  destruct (pretty_head (N.pos p) "") as (d & r & Hd & ->); [lia|].
  assert (∃ c r', (c = "." ∨ c = "e")%char ∧
    scientific (String (pretty_N_char d) r) +:+ String "e" rest
    = String (pretty_N_char d) (String c r')) as (c & r' & Hc & ->).
  { unfold scientific.
    rewrite substring_head, !app_cons, !app_empty_l.
    destruct (1 <? _)%nat.
    - rewrite !app_cons. eauto.
    - rewrite app_empty_l. eauto. }
  assert (int4_in (String (pretty_N_char d) (String c r')) = None) as Hpos.
  { unfold int4_in. destruct (digit_head d (String c r') Hd) as [-> ->].
    cbn [read_digits]. rewrite digit_of_pretty by done.
    by destruct Hc as [-> | ->]. }
  destruct neg; [|by rewrite app_empty_l].
  rewrite app_cons, app_empty_l. unfold int4_in. rewrite minus_head.
  cbn [read_digits]. rewrite digit_of_pretty by done.
  by destruct Hc as [-> | ->].
Qed.

(** The store reads the text of a JavaScript integer as that integer when
    it fits 32 bits, and refuses it otherwise. *)
Lemma int4_in_integer_Some (z y : Z) :
  int4_in (number_to_string z 0) = Some y → y = z ∧ - 2147483648 ≤ z ≤ 2147483647.
Proof.
  destruct (Z.ltb_spec (Z.abs z) (10 ^ 21)) as [H|H].
  - rewrite number_to_string_integer by done. apply int4_in_pretty_Some.
  - unfold number_to_string. cbn [shortest Nat.add].
    destruct (Z.leb_spec (10 ^ Z.of_nat 21) (Z.abs z)) as [_|H']; [|simpl in H'; lia].
    change ("e+" +:+ ?s) with (String "e" (String "+" s)).
    intros E. rewrite (int4_in_scientific (z <? 0)) in E; [done|].
    apply significand_pos. lia.
Qed.

(** ** Create and Update: what is stored *)

Lemma pool_query_returned q vs w rows w' :
  pool_query q vs w = (Returned rows, w') →
  exec q (prepareValue <$> vs) (db w) = Some (rows, db w').
Proof.
  unfold pool_query. destruct (faults w) as [|[] fs];
    destruct (exec q _ (db w)) as [[r d]|]; intros [= <- <-]; done.
Qed.

Lemma nullable_Some {A B} (f : A → option B) p r :
  nullable f p = Some r → r = p ≫= f.
Proof.
  destruct p as [s|]; simpl; [|by intros [= <-]].
  destruct (f s); simpl; by intros [= <-].
Qed.

Lemma not_null_Some {A} (v : option (option A)) x :
  not_null v = Some x → v = Some (Some x).
Proof. destruct v as [[y|]|]; simpl; by intros [= <-]. Qed.

(** The columns of an accepted INSERT or UPDATE, from the texts sent. *)
Lemma assigned t a y g p pr i ds bd f :
  bind8 t a y g p pr i ds = Some bd → assign bd = Some f →
  Some (f_title f) = t ≫= varchar 500 ∧
  Some (f_author f) = a ≫= varchar 300 ∧
  f_year f = y ≫= int4_in ∧
  f_genre f = g ≫= varchar 100 ∧
  f_pages f = p ≫= int4_in ∧
  f_price f = (pr ≫= numeric_in) ≫= numeric_10_2 ∧
  f_isbn f = i ≫= varchar 20 ∧
  f_description f = ds.
Proof.
  unfold bind8, assign. intros Hb Ha.
  destruct (nullable int4_in y) as [y'|] eqn:Ey; [|done].
  destruct (nullable int4_in p) as [p'|] eqn:Ep; [|done].
  destruct (nullable numeric_in pr) as [pr'|] eqn:Epr; [|done].
  simpl in Hb. injection Hb as <-. simpl in Ha.
  destruct (not_null (nullable (varchar 500) t)) as [t'|] eqn:Et; [|done].
  destruct (not_null (nullable (varchar 300) a)) as [a'|] eqn:Ea; [|done].
  destruct (nullable (varchar 100) g) as [g'|] eqn:Eg; [|done].
  destruct (nullable numeric_10_2 pr') as [pr''|] eqn:Epr'; [|done].
  destruct (nullable (varchar 20) i) as [i'|] eqn:Ei; [|done].
  simpl in Ha. injection Ha as <-. simpl.
  apply not_null_Some, nullable_Some in Et, Ea.
  apply nullable_Some in Ey, Ep, Epr, Eg, Epr', Ei. subst. done.
Qed.

Lemma cells_assigned t a y g p pr i ds bd f b :
  bind8 t a y g p pr i ds = Some bd → assign bd = Some f →
  year b = f_year f → genre b = f_genre f → pages b = f_pages f →
  price b = f_price f → isbn b = f_isbn f → description b = f_description f →
  cell_of Year b = y ≫= read Year ∧
  cell_of Genre b = g ≫= read Genre ∧
  cell_of Pages b = p ≫= read Pages ∧
  cell_of Price b = pr ≫= read Price ∧
  cell_of Isbn b = i ≫= read Isbn ∧
  cell_of Description b = ds ≫= read Description.
Proof.
  intros Hb Ha E1 E2 E3 E4 E5 E6.
  destruct (assigned _ _ _ _ _ _ _ _ _ _ Hb Ha) as (_ & _ & H1 & H2 & H3 & H4 & H5 & H6).
  unfold cell_of, read. rewrite E1, E2, E3, E4, E5, E6, H1, H2, H3, H4, H5, H6.
  split_and!; [by destruct y | by destruct g | by destruct p
              | by destruct pr | by destruct i | by destruct ds].
Qed.

Lemma prepareValue_truthy v :
  truthy v = true → prepareValue v = Some (text_sent v).
Proof. by destruct v. Qed.

Lemma sent_falsy v : truthy v = false → sent v = None.
Proof. unfold sent, Js.or. by intros ->. Qed.

Lemma sent_truthy v : truthy v = true → sent v = Some (text_sent v).
Proof. unfold sent, Js.or. intros H. rewrite H. by apply prepareValue_truthy. Qed.

(** What a 201 of Create tells. *)
Lemma post_book_created body w b w' :
  post_book body w = (Returned (Response 201 (JsonRow (Some (BookRow b)))), w') →
  ∃ bd f,
    truthy (Js.prop body "title") = true ∧ truthy (Js.prop body "author") = true ∧
    bind8 (prepareValue (Js.prop body "title")) (prepareValue (Js.prop body "author"))
          (sent (Js.prop body "year")) (sent (Js.prop body "genre"))
          (sent (Js.prop body "pages")) (sent (Js.prop body "price"))
          (sent (Js.prop body "isbn")) (sent (Js.prop body "description")) = Some bd ∧
    assign bd = Some f ∧
    b = new_book (books_id_seq (db w)) f (clock (db w)) ∧
    books (db w') = books (db w) ++ [b].
Proof.
  unfold post_book, try_catch, mbind, M_bind.
  destruct (truthy (Js.prop body "title")) eqn:Ht; [|by intros [=]].
  destruct (truthy (Js.prop body "author")) eqn:Ha; [|by intros [=]].
  cbn [negb orb]. cbv beta.
  match goal with |- context [pool_query ?q ?vs w] =>
    destruct (pool_query q vs w) as [[rows|e] w1] eqn:E end; [|by intros [=]].
  intros [= Hh <-]. apply pool_query_returned in E.
  unfold exec in E. cbn [fmap list_fmap] in E. unfold sent.
  destruct (bind8 _ _ _ _ _ _ _ _) as [bd|] eqn:Eb; simpl in E; [|done].
  destruct (assign bd) as [f|] eqn:Ef; simpl in E; [|done].
  injection E as <- Ed. rewrite <- Ed. injection Hh as <-.
  exists bd, f. done.
Qed.

(** What a 200 of Update tells. *)
Lemma put_book_updated id body w resp w' :
  put_book id body w = (Returned resp, w') → status resp = 200 →
  ∃ bd f n old,
    truthy (Js.prop body "title") = true ∧ truthy (Js.prop body "author") = true ∧
    bind8 (prepareValue (Js.prop body "title")) (prepareValue (Js.prop body "author"))
          (sent (Js.prop body "year")) (sent (Js.prop body "genre"))
          (sent (Js.prop body "pages")) (sent (Js.prop body "price"))
          (sent (Js.prop body "isbn")) (sent (Js.prop body "description")) = Some bd ∧
    assign bd = Some f ∧
    int4_in id = Some n ∧
    old ∈ books (db w) ∧ Pg.id old = n ∧
    resp = Response 200 (JsonRow (Some (BookRow (set_fields f (clock (db w)) old)))) ∧
    books (db w') =
      (λ r, if decide (id_is (Some n) r) then set_fields f (clock (db w)) r else r)
        <$> books (db w).
Proof.
  unfold put_book, try_catch, mbind, M_bind.
  destruct (truthy (Js.prop body "title")) eqn:Ht; [|by intros [= <- <-]].
  destruct (truthy (Js.prop body "author")) eqn:Ha; [|by intros [= <- <-]].
  cbn [negb orb]. cbv beta.
  match goal with |- context [pool_query ?q ?vs w] =>
    destruct (pool_query q vs w) as [[rows|e] w1] eqn:E end;
    [|by intros [= <- <-]].
  apply pool_query_returned in E.
  unfold exec in E. cbn [fmap list_fmap] in E. unfold sent.
  destruct (bind8 _ _ _ _ _ _ _ _) as [bd|] eqn:Eb; simpl in E; [|done].
  destruct (int4_in id) as [n|] eqn:En; simpl in E; [|done].
  destruct (assign bd) as [f|] eqn:Ef; simpl in E; [|done].
  destruct (filter (id_is (Some n)) (books (db w))) as [|old hit] eqn:Eh.
  - injection E as <- _. by intros [= <- <-].
  - injection E as <- Ed. intros [= <- <-] _. rewrite <- Ed.
    assert (old ∈ filter (id_is (Some n)) (books (db w))) as Ho
      by (rewrite Eh; left).
    apply list_elem_of_filter in Ho as [Hid Ho]. apply id_is_Some in Hid.
    exists bd, f, n, old. done.
Qed.

Lemma cells_of_request body bd f b :
  bind8 (prepareValue (Js.prop body "title")) (prepareValue (Js.prop body "author"))
        (sent (Js.prop body "year")) (sent (Js.prop body "genre"))
        (sent (Js.prop body "pages")) (sent (Js.prop body "price"))
        (sent (Js.prop body "isbn")) (sent (Js.prop body "description")) = Some bd →
  assign bd = Some f →
  year b = f_year f → genre b = f_genre f → pages b = f_pages f →
  price b = f_price f → isbn b = f_isbn f → description b = f_description f →
  ∀ c, cell_of c b = sent (Js.prop body (field_name c)) ≫= read c.
Proof.
  intros Hb Ha E1 E2 E3 E4 E5 E6 c.
  destruct (cells_assigned _ _ _ _ _ _ _ _ _ _ b Hb Ha E1 E2 E3 E4 E5 E6)
    as (H1 & H2 & H3 & H4 & H5 & H6).
  by destruct c.
Qed.

Lemma sent_read c v : sent v ≫= read c = stored c v.
Proof.
  unfold stored. destruct (truthy v) eqn:E;
    [by rewrite sent_truthy | by rewrite sent_falsy].
Qed.


Lemma clip_all s :
  ∀ n skip, (chars_after skip s ≤ n)%nat → clip n skip s = String.length s.
Proof.
  induction s as [|c s IH]; intros n skip H; [done|]. cbn [clip chars_after] in *.
  destruct skip as [|k]; [|by rewrite IH].
  destruct n as [|n]; [lia|]. rewrite IH; [done | lia].
Qed.

Lemma substring_whole s : substring 0 (String.length s) s = s.
Proof. induction s as [|c s IH]; [done|]. simpl. by rewrite IH. Qed.

Lemma substring_end s m : substring (String.length s) m s = "".
Proof. induction s as [|c s IH]; [by destruct m | done]. Qed.

(** A text of at most [n] characters is stored as it is. *)
Lemma varchar_chars n s : (chars s ≤ n)%nat → varchar n s = Some s.
Proof.
  intros H. unfold varchar. destruct (String.length s <=? n)%nat; [done|].
  cbv zeta. rewrite (clip_all s n 0 H), substring_end, substring_whole.
  reflexivity.
Qed.

(** *** Values the store takes *)

Lemma is_nan_digit d rest :
  (d < 10)%N → is_nan (String (pretty_N_char d) rest) = false.
Proof.
  intros H.
  assert (d = 0 ∨ d = 1 ∨ d = 2 ∨ d = 3 ∨ d = 4 ∨ d = 5 ∨ d = 6 ∨ d = 7
          ∨ d = 8 ∨ d = 9)%N as Hd by lia.
  repeat (destruct Hd as [-> | Hd]; [by destruct rest as [|b [|c r]]|]).
  subst. by destruct rest as [|b [|c r]].
Qed.

Lemma is_nan_minus rest : is_nan (String "-" rest) = false.
Proof. by destruct rest as [|b [|c r]]. Qed.

(** The store reads the decimal text of an integer as that number. *)
Lemma numeric_in_pretty (z : Z) : numeric_in (pretty z) = Some (Numeric z 0).
Proof.
  destruct z as [|p|p].
  - reflexivity.
  - change (pretty (Z.pos p)) with (pretty_N_go (N.pos p) "").
    destruct (pretty_head (N.pos p) "") as (d & rest & Hd & E); [lia|].
    destruct (read_digits_pretty (N.pos p)) as (k & Hk & Hr).
    unfold numeric_in. rewrite E.
    destruct (digit_head d rest Hd) as [-> ->]. rewrite is_nan_digit by done.
    rewrite <- E, Hr.
    cbn [read_digits all_spaces skip_spaces Z.mul Z.add Nat.add].
    assert ((0 <? k + 0)%nat = true) as -> by (apply Nat.ltb_lt; lia).
    cbn [andb]. by rewrite Z.add_0_l.
  - change (pretty (Z.neg p)) with ("-" +:+ pretty_N_go (N.pos p) "").
    destruct (read_digits_pretty (N.pos p)) as (k & Hk & Hr).
    unfold numeric_in. rewrite app_cons, app_empty_l.
    change (skip_spaces (String "-" ?s)) with (String "-" s).
    rewrite is_nan_minus. change (read_sign (String "-" ?s)) with (true, s).
    cbv beta iota. rewrite Hr.
    cbn [read_digits all_spaces skip_spaces Z.mul Z.add Nat.add].
    assert ((0 <? k + 0)%nat = true) as -> by (apply Nat.ltb_lt; lia).
    cbn [andb]. by rewrite Z.add_0_l.
Qed.

Lemma numeric_10_2_integer z :
  numeric_10_2 (Numeric z 0) =
    if Z.abs (z * 100) <? 10 ^ 10 then Some (Hundredths (z * 100)) else None.
Proof. reflexivity. Qed.

Lemma app_assoc_s (a b c : string) : (a +:+ b) +:+ c = a +:+ b +:+ c.
Proof. induction a as [|x a IH]; [done|]. by rewrite !app_cons, IH. Qed.

Lemma pretty_N_go_app x s : pretty_N_go x s = pretty_N_go x "" +:+ s.
Proof.
  revert s. induction (N.lt_wf_0 x) as [x _ IH]. intros s.
  destruct (decide (x = 0)%N) as [-> | Hx].
  - by rewrite !pretty_N_go_0.
  - rewrite (pretty_N_go_step x s), (pretty_N_go_step x "") by lia.
    assert (x `div` 10 < x)%N as Hlt by (apply N.div_lt; lia).
    rewrite (IH _ Hlt (String _ s)), (IH _ Hlt (String _ "")).
    by rewrite app_assoc_s, app_cons, app_empty_l.
Qed.

(** Reading back the decimals the printer writes. *)
Lemma read_digits_decimals d :
  ∀ x acc n s,
    read_digits acc n (decimals d x s)
    = read_digits (acc * 10 ^ Z.of_nat d + Z.of_N (x `mod` 10 ^ N.of_nat d)) (n + d) s.
Proof.
  induction d as [|d IH]; intros x acc n s.
  - cbn [decimals]. rewrite Nat.add_0_r. f_equal.
    change (10 ^ N.of_nat 0)%N with 1%N. rewrite N.mod_1_r. simpl. lia.
  - cbn [decimals]. rewrite IH. cbn [read_digits].
    rewrite digit_of_pretty by (apply N.mod_lt; lia).
    f_equal; [|lia].
    rewrite Nat2N.inj_succ, N.pow_succ_r', Nat2Z.inj_succ, Z.pow_succ_r by lia.
    rewrite (N.Div0.mod_mul_r x 10). lia.
Qed.

(** Reading back the integer part the printer writes in front of [rest]. *)
Lemma read_digits_integer q rest :
  0 ≤ q →
  ∃ (k : nat) c r,
    (0 < k)%nat ∧ (c < 10)%N ∧
    pretty q +:+ rest = String (pretty_N_char c) r ∧
    ∀ acc n,
      read_digits acc n (pretty q +:+ rest)
      = read_digits (acc * 10 ^ Z.of_nat k + q) (n + k) rest.
Proof.
  intros Hq. destruct q as [|p|p]; [| |lia].
  - exists 1%nat, 0%N, rest. split_and!; [lia | lia | done |].
    intros acc n. change (pretty 0) with "0". rewrite app_cons, app_empty_l.
    cbn [read_digits]. change (digit_of "0") with (Some 0). cbv iota beta.
    f_equal; lia.
  - change (pretty (Z.pos p)) with (pretty_N_go (N.pos p) "").
    rewrite <- pretty_N_go_app.
    destruct (pretty_head (N.pos p) rest) as (c & r & Hc & E); [lia|].
    destruct (read_digits_pretty (N.pos p)) as (k & Hk & Hr).
    exists k, c, r. split_and!; [apply Hk; lia | done | done |].
    intros acc n. by rewrite Hr.
Qed.

(** The store reads a number printed with a point as that decimal. *)
Lemma numeric_in_point (neg : bool) q d x :
  0 ≤ q →
  numeric_in ((if neg then "-" else "") +:+ pretty q +:+ "." +:+ decimals d x "")
  = Some (Numeric (let m := q * 10 ^ Z.of_nat d + Z.of_N (x `mod` 10 ^ N.of_nat d) in
                   if neg then - m else m) d).
Proof.
  intros Hq.
  destruct (read_digits_integer q ("." +:+ decimals d x "") Hq)
    as (k & c & r & Hk & Hc & E & Hr).
  assert (numeric_in (if neg then String "-" (String (pretty_N_char c) r)
                      else String (pretty_N_char c) r)
          = Some (Numeric (let m := q * 10 ^ Z.of_nat d + Z.of_N (x `mod` 10 ^ N.of_nat d) in
                   if neg then - m else m) d)) as H.
  { unfold numeric_in.
    assert (∀ b : bool,
      (let '(i, ni, s2) := read_digits 0 0 (String (pretty_N_char c) r) in
       let '(m, nf, rest) :=
         match s2 with
         | String "." s3 => read_digits i 0 s3
         | _ => (i, 0%nat, s2)
         end in
       if (0 <? ni + nf)%nat && all_spaces rest
       then Some (Numeric (if b then - m else m) nf) else None)
      = Some (Numeric (if b then - (q * 10 ^ Z.of_nat d + Z.of_N (x `mod` 10 ^ N.of_nat d))
                       else q * 10 ^ Z.of_nat d + Z.of_N (x `mod` 10 ^ N.of_nat d)) d)) as Hb.
    { intros b. rewrite <- E, Hr.
      change ("." +:+ ?s) with (String "." s). cbn [read_digits].
      change (digit_of ".") with (@None Z). cbv iota beta.
      rewrite read_digits_decimals. cbn [read_digits all_spaces skip_spaces].
      assert ((0 <? 0 + k + (0 + d))%nat = true) as -> by (apply Nat.ltb_lt; lia).
      cbn [andb]. do 3 f_equal; lia. }
    destruct neg.
    - change (skip_spaces (String "-" ?s)) with (String "-" s).
      rewrite is_nan_minus. change (read_sign (String "-" ?s)) with (true, s).
      cbv beta iota. exact (Hb true).
    - destruct (digit_head c r Hc) as [-> ->]. rewrite is_nan_digit by done.
      cbv beta iota. exact (Hb false). }
  rewrite <- H. destruct neg.
  - by rewrite app_cons, app_empty_l, E.
  - by rewrite app_empty_l, E.
Qed.

(** What [shortest] keeps of a numeral. *)
Lemma shortest_value m d :
  (shortest m d).1 * 10 ^ Z.of_nat (d - (shortest m d).2) = m ∧
  ((shortest m d).2 ≤ d)%nat.
Proof.
  revert m. induction d as [|d IH]; intros m; cbn [shortest].
  - simpl. lia.
  - destruct (Z.eqb_spec (m mod 10) 0) as [E|_].
    + destruct (IH (m / 10)) as [H1 H2]. split; [|lia].
      replace (S d - (shortest (m / 10) d).2)%nat
        with (S (d - (shortest (m / 10) d).2)) by lia.
      rewrite Nat2Z.inj_succ, Z.pow_succ_r by lia.
      pose proof (Z.div_mod m 10 ltac:(lia)). 
      rewrite (Z.mul_comm 10), Z.mul_assoc, H1. lia.
    + cbn [fst snd]. rewrite Nat.sub_diag. split; [simpl; lia | lia].
Qed.

(** The store reads a number JavaScript prints without an exponent as the
    decimal that was printed. *)
Lemma numeric_in_number m d :
  Z.abs m < 10 ^ 21 → (d ≤ 6)%nat →
  numeric_in (number_to_string m d)
  = Some (Numeric (shortest m d).1 (shortest m d).2).
Proof.
  intros Hm Hd. unfold number_to_string.
  destruct (shortest_value m d) as [Hv Hs].
  destruct (shortest m d) as [m' d'] eqn:E. cbn [fst snd] in *.
  assert (Z.abs m' ≤ Z.abs m) as Hle.
  { rewrite <- Hv, Z.abs_mul.
    assert (0 < 10 ^ Z.of_nat (d - d')) by (apply Z.pow_pos_nonneg; lia).
    rewrite (Z.abs_eq (10 ^ _)) by lia. nia. }
  destruct (Z.leb_spec (10 ^ Z.of_nat (21 + d')) (Z.abs m')) as [H|_].
  { assert (10 ^ 21 ≤ 10 ^ Z.of_nat (21 + d')) by (apply Z.pow_le_mono_r; lia). lia. }
  assert ((0 <? Z.abs m') && (Z.abs m' * 10 ^ 6 <? 10 ^ Z.of_nat d') = false) as ->.
  { apply andb_false_iff. destruct (Z.ltb_spec 0 (Z.abs m')); [right|by left].
    apply Z.ltb_ge.
    assert (10 ^ Z.of_nat d' ≤ 10 ^ 6) by (apply Z.pow_le_mono_r; lia). lia. }
  destruct (Nat.eqb_spec d' 0) as [-> | Hd'].
  - change (10 ^ Z.of_nat 0) with 1. rewrite Z.div_1_r, app_empty_r.
    replace ((if m' <? 0 then "-" else "") +:+ pretty (Z.abs m')) with (pretty m')
      by (by destruct m').
    apply numeric_in_pretty.
  - assert (0 < 10 ^ Z.of_nat d') as Hp by (apply Z.pow_pos_nonneg; lia).
    rewrite (numeric_in_point (m' <? 0)) by (apply Z.div_pos; lia).
    cbv zeta. do 2 f_equal.
    rewrite N.mod_small.
    + rewrite Z2N.id by (apply Z.mod_pos_bound; lia).
      pose proof (Z.div_mod (Z.abs m') (10 ^ Z.of_nat d') ltac:(lia)).
      destruct (Z.ltb_spec m' 0); lia.
    + pose proof (Z.mod_pos_bound (Z.abs m') (10 ^ Z.of_nat d') Hp).
      assert (Z.of_N (10 ^ N.of_nat d') = 10 ^ Z.of_nat d') as Hc.
      { rewrite N2Z.inj_pow. f_equal. lia. }
      lia.
Qed.

(** Where the store reads a truthy value within the column, it reads the
    supplied value. *)
Lemma taken_supplied c v x :
  truthy v = true → within c v = true → is_Some (stored c v) →
  supplied c v = Some x → stored c v = Some x.
Proof.
  intros Ht Hr Hs Hx. unfold stored in *. rewrite Ht in *.
  apply andb_true_iff in Hr as [Hw Hr].
  destruct c, v as [| |b|n|m d|i|s|t s]; try discriminate Hx;
    cbn [supplied] in Hx;
    try (destruct (Nat.leb_spec d 2) as [Hd|]; [|discriminate Hx]);
    injection Hx as <-;
    cbn [read text_sent prepareValue default from_option Datatypes.id Js.to_string] in *.
  - destruct Hs as [y Hy]. destruct (int4_in _) as [z|] eqn:Ez; [|done].
    by apply int4_in_integer_Some in Ez as [-> _].
  - apply Nat.leb_le in Hr. by rewrite varchar_chars.
  - destruct Hs as [y Hy]. destruct (int4_in _) as [z|] eqn:Ez; [|done].
    by apply int4_in_integer_Some in Ez as [-> _].
  - apply Z.leb_le in Hw.
    rewrite number_to_string_integer in * by lia.
    rewrite numeric_in_pretty in *.
    cbn [mbind option_bind] in *. rewrite numeric_10_2_integer in *.
    destruct (Z.abs (n * 100) <? 10 ^ 10); [|by destruct Hs].
    simpl. by rewrite (Z.mul_comm 100).
  - apply andb_true_iff in Hw as [Hw _]. apply Z.ltb_lt in Hw.
    rewrite numeric_in_number in * by lia.
    destruct (shortest_value m d) as [Hv Hl].
    destruct (shortest m d) as [m' d']. cbn [fst snd mbind option_bind] in *.
    unfold numeric_10_2 in *.
    assert ((d' <=? 2)%nat = true) as E by (apply Nat.leb_le; lia).
    rewrite E in *.
    assert (m' * 10 ^ Z.of_nat (2 - d') = m * 10 ^ Z.of_nat (2 - d)) as Em.
    { rewrite <- Hv, <- Z.mul_assoc, <- Z.pow_add_r by lia. do 2 f_equal. lia. }
    rewrite Em in *.
    destruct (Z.abs _ <? 10 ^ 10); [done | by destruct Hs].
  - apply Nat.leb_le in Hr. by rewrite varchar_chars.
  - done.
Qed.

Lemma readable_within c v : readable c v = true → within c v = true.
Proof.
  unfold readable, within. intros [-> H]%andb_true_iff. by destruct c.
Qed.

(** The store reads a truthy value it takes for the column. *)
Lemma readable_stored c v :
  truthy v = true → readable c v = true → is_Some (stored c v).
Proof.
  intros Hv Hr. unfold stored. rewrite Hv. apply andb_true_iff in Hr as [_ Hr].
  destruct c; cbn [read]; cbn [readable] in Hr;
    try (apply andb_true_iff in Hr as [Hr _]);
    try (apply bool_decide_eq_true in Hr as [y ->]; by eexists);
    try (apply Nat.leb_le in Hr; rewrite varchar_chars by done; by eexists).
  by eexists.
Qed.

(** A truthy value the column takes is stored as the supplied value. *)
Lemma stored_supplied c v x :
  truthy v = true → readable c v = true → supplied c v = Some x →
  stored c v = Some x.
Proof.
  intros Ht Hr Hx.
  apply taken_supplied; [done | by apply readable_within | | done].
  by apply readable_stored.
Qed.

(** An accepted INSERT or UPDATE read every text it was sent. *)
Lemma reads_of_request body bd f :
  bind8 (prepareValue (Js.prop body "title")) (prepareValue (Js.prop body "author"))
        (sent (Js.prop body "year")) (sent (Js.prop body "genre"))
        (sent (Js.prop body "pages")) (sent (Js.prop body "price"))
        (sent (Js.prop body "isbn")) (sent (Js.prop body "description")) = Some bd →
  assign bd = Some f →
  ∀ c, truthy (Js.prop body (field_name c)) = true →
       is_Some (stored c (Js.prop body (field_name c))).
Proof.
  unfold bind8, assign. intros Hb Ha c Hv.
  unfold stored. rewrite Hv.
  destruct (nullable int4_in (sent (Js.prop body "year"))) as [y'|] eqn:Ey; [|done].
  destruct (nullable int4_in (sent (Js.prop body "pages"))) as [p'|] eqn:Ep; [|done].
  destruct (nullable numeric_in (sent (Js.prop body "price"))) as [pr'|] eqn:Epr;
    [|done].
  simpl in Hb. injection Hb as <-. simpl in Ha.
  destruct (not_null (nullable (varchar 500) _)) as [t'|]; [|done].
  destruct (not_null (nullable (varchar 300) _)) as [a'|]; [|done].
  destruct (nullable (varchar 100) _) as [g'|] eqn:Eg; [|done].
  destruct (nullable numeric_10_2 pr') as [pr''|] eqn:Epr'; [|done].
  destruct (nullable (varchar 20) _) as [i'|] eqn:Ei; [|done].
  destruct c; cbn [field_name read] in *; rewrite sent_truthy in * by done;
    cbn [nullable] in *.
  - destruct (int4_in _); [by eexists | done].
  - destruct (varchar 100 _); [by eexists | done].
  - destruct (int4_in _); [by eexists | done].
  - destruct (numeric_in _) as [x|]; [|done]. simpl in Epr. injection Epr as <-.
    simpl in *. destruct (numeric_10_2 x); [by eexists | done].
  - destruct (varchar 20 _); [by eexists | done].
  - by eexists.
Qed.

Lemma sent_nullable {B} (f : string → option B) v :
  (truthy v = true → is_Some (f (text_sent v))) →
  ∃ r, nullable f (sent v) = Some r.
Proof.
  intros H. destruct (truthy v) eqn:E.
  - rewrite sent_truthy by done. destruct (H eq_refl) as [y Hy]. simpl.
    rewrite Hy. by eexists.
  - rewrite sent_falsy by done. by eexists.
Qed.

Lemma sent_price v :
  (truthy v = true → is_Some (numeric_in (text_sent v) ≫= numeric_10_2)) →
  ∃ r r', nullable numeric_in (sent v) = Some r ∧ nullable numeric_10_2 r = Some r'.
Proof.
  intros H. destruct (truthy v) eqn:E.
  - rewrite sent_truthy by done. destruct (H eq_refl) as [y Hy]. simpl.
    destruct (numeric_in (text_sent v)) as [x|]; [|done]. simpl in *.
    exists (Some x), (Some y). split; [done|]. simpl. by rewrite Hy.
  - rewrite sent_falsy by done. by eexists _, _.
Qed.

Lemma sent_varchar n v :
  (truthy v = true → (chars (text_sent v) ≤ n)%nat) →
  nullable (varchar n) (sent v) = Some (sent v).
Proof.
  intros H. destruct (truthy v) eqn:E.
  - rewrite sent_truthy by done. simpl. by rewrite varchar_chars by auto.
  - by rewrite sent_falsy.
Qed.

Lemma well_formed_columns body c :
  well_formed body = true →
  truthy (Js.prop body (field_name c)) = true →
  readable c (Js.prop body (field_name c)) = true.
Proof.
  unfold well_formed. intros [_ H]%andb_true_iff Hc.
  rewrite forallb_forall in H. specialize (H c). cbv zeta in H.
  rewrite Hc in H. apply H. destruct c; simpl; tauto.
Qed.

(** The store takes a well-formed body. *)
Lemma well_formed_acceptable body :
  truthy (Js.prop body "title") = true → truthy (Js.prop body "author") = true →
  well_formed body = true → acceptable body.
Proof.
  intros Ht Ha Hw.
  pose proof (λ c, well_formed_columns body c Hw) as Hcol.
  unfold well_formed in Hw.
  apply andb_true_iff in Hw as [[Hft Hfa]%andb_true_iff _].
  apply andb_true_iff in Hft as [_ Hft%Nat.leb_le].
  apply andb_true_iff in Hfa as [_ Hfa%Nat.leb_le].
  destruct (sent_nullable int4_in (Js.prop body "year")) as [y Ey].
  { intros T. specialize (Hcol Year T). apply andb_true_iff in Hcol as [_ H].
    by apply bool_decide_eq_true in H. }
  destruct (sent_nullable int4_in (Js.prop body "pages")) as [pg Epg].
  { intros T. specialize (Hcol Pages T). apply andb_true_iff in Hcol as [_ H].
    by apply bool_decide_eq_true in H. }
  destruct (sent_price (Js.prop body "price")) as (pr & pr' & Epr & Epr').
  { intros T. specialize (Hcol Price T). apply andb_true_iff in Hcol as [_ H].
    apply andb_true_iff in H as [H _]. by apply bool_decide_eq_true in H. }
  assert (nullable (varchar 100) (sent (Js.prop body "genre"))
          = Some (sent (Js.prop body "genre"))) as Eg.
  { apply sent_varchar. intros T. specialize (Hcol Genre T).
    apply andb_true_iff in Hcol as [_ H]. by apply Nat.leb_le in H. }
  assert (nullable (varchar 20) (sent (Js.prop body "isbn"))
          = Some (sent (Js.prop body "isbn"))) as Ei.
  { apply sent_varchar. intros T. specialize (Hcol Isbn T).
    apply andb_true_iff in Hcol as [_ H]. by apply Nat.leb_le in H. }
  unfold acceptable, bind8. rewrite Ey, Epg, Epr. cbn [mbind option_bind].
  unfold assign. cbn [b_title b_author b_year b_genre b_pages b_price b_isbn b_description].
  rewrite !prepareValue_truthy by done. cbn [nullable fmap option_fmap option_map].
  rewrite !varchar_chars by done. cbn [not_null mbind option_bind].
  rewrite Eg, Epr', Ei. cbn [mbind option_bind]. by eexists.
Qed.


(** And so is an Update of an id that reads as the id of a record, 200. *)
Lemma put_book_accepted id body w n :
  calm w = true →
  truthy (Js.prop body "title") = true → truthy (Js.prop body "author") = true →
  acceptable body →
  int4_in id = Some n → (∃ old, old ∈ books (db w) ∧ Pg.id old = n) →
  ∃ b w',
    put_book id body w = (Returned (Response 200 (JsonRow (Some (BookRow b)))), w').
Proof.
  intros Hc Ht Ha [f Hf] Hn (old & Ho & Hid).
  unfold put_book, try_catch, mbind, M_bind. rewrite Ht, Ha.
  cbn [negb orb]. cbv beta. rewrite pool_query_calm by done.
  unfold exec. cbn [fmap list_fmap]. unfold sent in Hf.
  destruct (bind8 _ _ _ _ _ _ _ _) as [bd|]; [|done].
  cbn [mbind option_bind prepareValue Js.to_string nullable fmap option_fmap option_map] in *.
  rewrite Hn. cbn [fmap option_fmap option_map mbind option_bind]. rewrite Hf.
  cbn [mbind option_bind].
  destruct (filter (id_is (Some n)) (books (db w))) as [|b hit] eqn:Eh.
  - rewrite filter_none_iff in Eh. destruct (Eh old Ho). by apply id_is_Some.
  - simpl. by eexists _, _.
Qed.





(** A zero does reach the table when it is sent as a text, which is truthy. *)
Example zero_as_text_is_stored :
  ∃ b,
    (post_book (<["year" := JStr "0"]> free_book) (at_rest one_book)).1
      = Returned (Response 201 (JsonRow (Some (BookRow b)))) ∧
    year b = Some 0.
Proof. eexists. vm_compute. split; reflexivity. Qed.

(** The sizes of the columns count characters: an isbn of 11 characters
    that take 22 bytes is stored. *)
Example sizes_count_characters :
  ∃ b,
    (post_book accented (at_rest one_book)).1
      = Returned (Response 201 (JsonRow (Some (BookRow b)))) ∧
    isbn b = Some "ééééééééééé" ∧
    String.length "ééééééééééé" = 22%nat.
Proof. eexists. vm_compute. split_and!; reflexivity. Qed.

(** C2, amended.  An Update answered 200 returns a record of the table as
    updated.  Every record keeps its place, its id and its created_at; a
    record with another id than the one addressed is untouched; an
    addressed record has updated_at set to the store's clock, which in a
    consistent table is not below the prior value, the supplied title and
    author where they fit their columns, NULL in every optional column
    whose field is absent or falsy, and in a column whose field is a truthy
    number or string of the type of the column, within the column, that
    very value.  And with the store reachable, a truthy title and author
    and a body the store takes, an Update of an id that reads as the id of
    a record is answered 200, and in every record with that id title and
    author are the supplied texts and every optional column holds NULL for
    an absent or falsy field and otherwise what the store reads from the
    supplied value: the supplied number or string itself where it has the
    type of the column. *)
Theorem update_replaces id body w :
  (∀ resp w', put_book id body w = (Returned resp, w') → status resp = 200 →
     ∃ n,
       (∀ m, int4_in id = Some m → m = n) ∧
       (∃ new, Server.body resp = JsonRow (Some (BookRow new)) ∧
               new ∈ books (db w') ∧ Pg.id new = n) ∧
       length (books (db w')) = length (books (db w)) ∧
       ∀ i old, books (db w) !! i = Some old →
         ∃ new,
           books (db w') !! i = Some new ∧
           Pg.id new = Pg.id old ∧
           created_at new = created_at old ∧
           (Pg.id old ≠ n → new = old) ∧
           (Pg.id old = n →
              updated_at new = clock (db w) ∧
              (consistent (db w) → updated_at old ≤ updated_at new) ∧
              (fits 500 (Js.prop body "title") = true →
                 title new = text_sent (Js.prop body "title")) ∧
              (fits 300 (Js.prop body "author") = true →
                 author new = text_sent (Js.prop body "author")) ∧
              ∀ c, let v := Js.prop body (field_name c) in
                   (truthy v = false → cell_of c new = None) ∧
                   (∀ x, truthy v = true → within c v = true →
                         supplied c v = Some x → cell_of c new = Some x))) ∧
  (calm w = true →
   truthy (Js.prop body "title") = true → truthy (Js.prop body "author") = true →
   well_formed body = true →
   ∀ n, int4_in id = Some n → (∃ old, old ∈ books (db w) ∧ Pg.id old = n) →
     ∃ resp w',
       put_book id body w = (Returned resp, w') ∧ status resp = 200 ∧
       ∀ new, new ∈ books (db w') → Pg.id new = n →
         title new = text_sent (Js.prop body "title") ∧
         author new = text_sent (Js.prop body "author") ∧
         ∀ c, let v := Js.prop body (field_name c) in
              cell_of c new = stored c v ∧
              (∀ x, truthy v = true → supplied c v = Some x →
                    cell_of c new = Some x)).
Proof.
  split.
  - intros resp w' H H200.
    apply put_book_updated in H as
      (bd & f & n & old0 & Ht & Ha & Hb & Hf & Hn & Ho & Hid & -> & Hd); [|done].
    exists n. split_and!; [intros m Hm; congruence | | by rewrite Hd, length_fmap |].
    + eexists. split_and!; [done | | done].
      rewrite Hd. apply list_elem_of_fmap. exists old0. split; [|done].
      by rewrite decide_True by (by apply id_is_Some).
    + intros i old Hi. rewrite Hd, list_lookup_fmap, Hi. simpl.
      eexists. split; [done|].
      destruct (decide (id_is (Some n) old)) as [Hy|Hy]; rewrite id_is_Some in Hy.
      * split_and!; [done | done | done |]. intros _.
        destruct (assigned _ _ _ _ _ _ _ _ _ _ Hb Hf) as (Et & Ea & _).
        rewrite prepareValue_truthy in Et, Ea by done.
        cbn [mbind option_bind] in Et, Ea.
        split_and!; [done | | | |].
        -- intros (Htime & _ & _).
           apply list_elem_of_lookup_2 in Hi. destruct (Htime old Hi). simpl. lia.
        -- intros [_ Hl%Nat.leb_le]%andb_true_iff.
           rewrite varchar_chars in Et by done. by injection Et.
        -- intros [_ Hl%Nat.leb_le]%andb_true_iff.
           rewrite varchar_chars in Ea by done. by injection Ea.
        -- intros c. cbv zeta.
           assert (cell_of c (set_fields f (clock (db w)) old)
                   = stored c (Js.prop body (field_name c))) as Hcell.
           { rewrite <- sent_read. by apply (cells_of_request body bd f). }
           rewrite Hcell. split.
           ++ intros E. unfold stored. by rewrite E.
           ++ intros x Hv Hw Hx. apply taken_supplied; [done | done | | done].
              by apply (reads_of_request body bd f).
      * split_and!; done.
  - intros Hc Ht Ha Hw n Hn Hex.
    pose proof (well_formed_acceptable body Ht Ha Hw) as Hacc.
    destruct (put_book_accepted id body w n Hc Ht Ha Hacc Hn Hex) as (b & w' & E).
    eexists _, w'. split_and!; [exact E | done |].
    apply put_book_updated in E as
      (bd & f & n' & old0 & _ & _ & Hb & Hf & Hn' & _ & _ & _ & Hd); [|done].
    assert (n' = n) as -> by congruence.
    intros new Hnew Hid. rewrite Hd in Hnew.
    apply list_elem_of_fmap in Hnew as (r & -> & Hr).
    destruct (decide (id_is (Some n) r)) as [Hy|Hy].
    2: { destruct Hy. by apply id_is_Some. }
    destruct (assigned _ _ _ _ _ _ _ _ _ _ Hb Hf) as (Et & Ea & _).
    rewrite prepareValue_truthy in Et, Ea by done.
    unfold well_formed in Hw.
    pose proof Hw as [[Hft Hfa]%andb_true_iff _]%andb_true_iff.
    apply andb_true_iff in Hft as [_ Hft%Nat.leb_le].
    apply andb_true_iff in Hfa as [_ Hfa%Nat.leb_le].
    cbn [mbind option_bind] in Et, Ea.
    rewrite varchar_chars in Et, Ea by done.
    split_and!; [by injection Et | by injection Ea |].
    intros c. cbv zeta.
    assert (cell_of c (set_fields f (clock (db w)) r)
            = stored c (Js.prop body (field_name c))) as Hcell.
    { rewrite <- sent_read. by apply (cells_of_request body bd f). }
    split; [done|]. intros x Hv Hx. rewrite Hcell.
    apply stored_supplied; [done | | done]. by apply well_formed_columns.
Qed.

Lemma update_replaces_witness :
  ∃ resp w',
    put_book "1" dune_1965 (at_rest one_book) = (Returned resp, w') ∧
    status resp = 200 ∧
    ∀ new, new ∈ books (db w') → Pg.id new = 1 →
      title new = "Dune" ∧ author new = "Frank Herbert" ∧
      cell_of Year new = Some (IntCell 1965) ∧
      cell_of Price new = Some (DecimalCell (Hundredths 1250)) ∧
      cell_of Genre new = None.
Proof.
  destruct (update_replaces "1" dune_1965 (at_rest one_book)) as [_ H].
  destruct (H eq_refl eq_refl eq_refl ltac:(vm_compute; reflexivity) 1 eq_refl)
    as (resp & w' & E & H200 & Hnew).
  { exists (Book 1 "Dune" "Herbert" (Some 1965) (Some "Sci-Fi") None
                 (Some (Hundredths 1250)) None None 100 100).
    split; [left | reflexivity]. }
  exists resp, w'. split_and!; [exact E | exact H200 |].
  intros new Hin Hid. destruct (Hnew new Hin Hid) as (Ht & Ha & Hc).
  destruct (Hc Year) as (_ & Hy), (Hc Price) as (Hp & _), (Hc Genre) as (Hg & _).
  split_and!.
  - exact Ht.
  - exact Ha.
  - apply Hy; vm_compute; reflexivity.
  - rewrite Hp. vm_compute. reflexivity.
  - rewrite Hg. vm_compute. reflexivity.
Defined.

(** C2 as stated fails: an Update that supplies year 0 leaves the year
    NULL, not 0. *)
Lemma update_stores_null_for_zero :
  ∃ new,
    (put_book "1" free_book (at_rest one_book)).1
      = Returned (Response 200 (JsonRow (Some (BookRow new)))) ∧
    free_book !! "year" = Some (JNum 0) ∧ year new = None.
Proof. eexists. vm_compute. split_and!; reflexivity. Qed.

(** * Further properties of the routes *)

#[local] Arguments pool_query : simpl never.

(** One query, in terms of what the store answers. *)
Lemma pool_query_answer q vs w :
  match answer q vs w with
  | Some (rows, d) => pool_query q vs w = (Returned rows, after q vs w d true)
  | None => ∃ e, pool_query q vs w = (Thrown e, after q vs w (db w) false)
  end.
Proof.
  unfold answer, pool_query, after. destruct (faults w) as [|[] fs]; simpl.
  - destruct (exec q _ (db w)) as [[rows d]|]; eauto.
  - eauto.
  - destruct (exec q _ (db w)) as [[rows d]|]; eauto.
Qed.

Lemma answer_exec q vs w rows d :
  answer q vs w = Some (rows, d) → exec q (prepareValue <$> vs) (db w) = Some (rows, d).
Proof. unfold answer. by destruct (faults w) as [|[] fs]. Qed.

(** Splits on the answer to the next query of the goal. *)
Ltac ask :=
  match goal with
  | |- context [pool_query ?q ?vs ?w] =>
      let H := fresh "Hq" in
      let A := fresh "Ha" in
      pose proof (pool_query_answer q vs w) as H;
      destruct (answer q vs w) as [[? ?]|] eqn:A;
      [ rewrite H; apply answer_exec in A
      | let e := fresh "e" in destruct H as [e H]; rewrite H ];
      clear H; cbv beta iota
  end.

(** Opens the handler of a request. *)
Ltac route r :=
  destruct r as [query | id | body | id body | id | | ]; simpl handle;
  [ rewrite get_books_query | unfold get_book | unfold post_book
  | unfold put_book | unfold delete_book | unfold get_stats | unfold get_genres ];
  unfold try_catch, mbind, M_bind, res_json, console_error, mret, M_ret;
  cbv beta iota.

Lemma exec_select_rows conditions params d rows d' :
  exec (SelectBooks conditions) params d = Some (rows, d') →
  d' = d ∧ ∃ bs, rows = BookRow <$> bs ∧ bs ⊆ books d ∧ Sorted newest_first bs.
Proof.
  unfold exec. destruct (mapM _ _) as [tests|]; simpl; [|done].
  intros [= <- <-]. split; [done|]. eexists. split_and!; [done| |].
  - intros b. rewrite merge_sort_Permutation. by intros [_ ?]%list_elem_of_filter.
  - apply Sorted_merge_sort, _.
Qed.

Lemma exec_by_id q k d rows d' :
  (q = SelectBook ∨ q = DeleteBook) →
  exec q [k] d = Some (rows, d') →
  ∃ k', nullable int4_in k = Some k' ∧
        rows = BookRow <$> filter (id_is k') (books d).
Proof.
  intros [-> | ->]; simpl; destruct (nullable int4_in k) as [k'|]; simpl;
    try done; intros [= <- _]; eauto.
Qed.

Lemma exec_insert ps d rows d' :
  exec InsertBook ps d = Some (rows, d') →
  ∃ f, rows = [BookRow (new_book (books_id_seq d) f (clock d))] ∧
       d' = Database (books d ++ [new_book (books_id_seq d) f (clock d)])
                     (books_id_seq d + 1) (clock d) (lc_ctype d).
Proof.
  simpl. destruct ps as [|t [|a [|y [|g [|p [|pr [|i [|ds [|]]]]]]]]]; try done.
  destruct (bind8 _ _ _ _ _ _ _ _) as [bd|]; simpl; [|done].
  destruct (assign bd) as [f|]; simpl; [|done].
  intros [= <- <-]. by exists f.
Qed.

Lemma exec_update ps d rows d' :
  exec UpdateBook ps d = Some (rows, d') →
  (rows = [] ∧ d' = d) ∨
  ∃ b bs, rows = BookRow b :: bs.
Proof.
  simpl. destruct ps as [|t [|a [|y [|g [|p [|pr [|i [|ds [|k [|]]]]]]]]]]; try done.
  destruct (bind8 _ _ _ _ _ _ _ _) as [bd|]; simpl; [|done].
  destruct (nullable int4_in k) as [k'|]; simpl; [|done].
  destruct (assign bd) as [f|]; simpl; [|done].
  destruct (filter (id_is k') (books d)) as [|old hit].
  - intros [= <- <-]. by left.
  - intros [= <- <-]. right. eauto.
Qed.

Lemma exec_reads q ps d rows d' :
  exec q ps d = Some (rows, d') →
  q ≠ InsertBook → q ≠ UpdateBook → q ≠ DeleteBook → d' = d.
Proof.
  intros E ? ? ?. destruct q; try done; simpl in E.
  - destruct (mapM _ _); simpl in E; [|done]. by injection E as _ <-.
  - destruct ps as [|k [|]]; try done.
    destruct (nullable int4_in k); simpl in E; [|done]. by injection E as _ <-.
  - destruct ps; [|done]. by injection E as _ <-.
  - destruct ps; [|done]. by injection E as _ <-.
  - destruct ps; [|done]. by injection E as _ <-.
  - destruct ps; [|done]. destruct (filter _ (books d)); by injection E as _ <-.
  - destruct ps; [|done]. by injection E as _ <-.
Qed.

Lemma exec_count q d rows d' :
  (q = CountBooks ∨ q = CountAuthors ∨ q = CountGenres) →
  exec q [] d = Some (rows, d') → ∃ n, rows = [CountRow n].
Proof. intros [-> | [-> | ->]]; simpl; intros [= <- _]; eauto. Qed.

Lemma exec_total d rows d' :
  exec SumPrice [] d = Some (rows, d') → ∃ t, rows = [TotalRow t].
Proof. simpl. destruct (filter _ (books d)); intros [= <- _]; eauto. Qed.


Lemma exec_delete k d rows d' :
  exec DeleteBook [k] d = Some (rows, d') →
  (rows = [] ∧ d' = d) ∨ ∃ b bs, rows = BookRow b :: bs.
Proof.
  simpl. destruct (nullable int4_in k) as [k'|]; simpl; [|done].
  intros [= <- <-].
  destruct (filter (id_is k') (books d)) as [|b bs] eqn:E; [left | right; eauto].
  split; [done|]. rewrite filter_all; [by destruct d|].
  intros b Hb Hk. rewrite filter_none_iff in E. by apply (E b).
Qed.

(** Simplifies the calls issued along a chain of queries. *)
Ltac calls :=
  unfold issued, after; cbn [queries db console faults];
  rewrite <- ?app_assoc, ?drop_app_length, ?drop_all; cbn [app length].

Ltac all_well := repeat constructor.

(** What a request leaves behind: either a regular answer, a silent
    console and only successful calls; or the internal error of the route,
    one console line, an untouched database and a failed last call. *)
Lemma handle_outcome r w :
  ∃ resp w',
    handle r w = (Returned resp, w') ∧
    ((regular r resp ∧ console w' = console w ∧
      Forall (λ c, ok c = true) (issued w w')) ∨
     (resp = Response 500 (JsonError (failure_of r)) ∧
      console w' = console w ++ [log_line_of r] ∧
      db w' = db w ∧
      ∃ pre c, issued w w' = pre ++ [c] ∧ ok c = false ∧
               Forall (λ c, ok c = true) pre)) ∧
    (length (issued w w') ≤ match r with Stats => 4 | _ => 1 end)%nat ∧
    (done_status r ≠ Some (status resp) → db w' = db w).
Proof.
  route r.
  - (* List *)
    destruct (in_effect (query !! "search")), (in_effect (query !! "genre")); ask;
      try (apply exec_select_rows in Ha as [-> (bs & -> & _)]);
      eexists _, _; (split; [reflexivity|]); calls;
      (split_and!; [|lia|done]);
      first [ left; split_and!; [by eexists | done | all_well]
            | right; split_and!; [done | done | done |];
              eexists [], _; split_and!; [done | done | all_well] ].
  - (* Get *)
    ask.
    + pose proof (exec_reads _ _ _ _ _ Ha ltac:(done) ltac:(done) ltac:(done)) as ->.
      apply exec_by_id in Ha as (k' & _ & ->); [|by left].
      destruct (filter (id_is k') (books (db w))) as [|b bs];
        eexists _, _; (split; [reflexivity|]); calls;
        (split_and!; [|lia|done]); left;
        (split_and!; [|done|all_well]); [by right | left; by eexists].
    + eexists _, _; (split; [reflexivity|]); calls.
      split_and!; [|lia|done]. right. split_and!; [done..|].
      eexists [], _; split_and!; [done | done | all_well].
  - (* Create *)
    destruct (truthy (Js.prop body "title")), (truthy (Js.prop body "author"));
      cbn [negb orb]; cbv beta iota.
    2-4: eexists _, _; (split; [reflexivity|]); rewrite issued_none;
         (split_and!; [|simpl; lia|done]); left;
         (split_and!; [by right | done | all_well]).
    ask.
    + apply exec_insert in Ha as (f & -> & ->).
      eexists _, _; (split; [reflexivity|]); calls.
      split_and!; [|lia|by intros []]. left.
      split_and!; [left; by eexists | done | all_well].
    + eexists _, _; (split; [reflexivity|]); calls.
      split_and!; [|lia|done]. right. split_and!; [done..|].
      eexists [], _; split_and!; [done | done | all_well].
  - (* Update *)
    destruct (truthy (Js.prop body "title")), (truthy (Js.prop body "author"));
      cbn [negb orb]; cbv beta iota.
    2-4: eexists _, _; (split; [reflexivity|]); rewrite issued_none;
         (split_and!; [|simpl; lia|done]); left;
         (split_and!; [right; by left | done | all_well]).
    ask.
    + apply exec_update in Ha as [[-> ->] | (b & bs & ->)];
        eexists _, _; (split; [reflexivity|]); calls.
      * split_and!; [|lia|done]. left.
        split_and!; [right; by right | done | all_well].
      * split_and!; [|lia|by intros []]. left.
        split_and!; [left; by eexists | done | all_well].
    + eexists _, _; (split; [reflexivity|]); calls.
      split_and!; [|lia|done]. right. split_and!; [done..|].
      eexists [], _; split_and!; [done | done | all_well].
  - (* Delete *)
    ask.
    + apply exec_delete in Ha as [[-> ->] | (b & bs & ->)];
        eexists _, _; (split; [reflexivity|]); calls.
      * split_and!; [|lia|done]. left. split_and!; [by right | done | all_well].
      * split_and!; [|lia|by intros []]. left.
        split_and!; [by left | done | all_well].
    + eexists _, _; (split; [reflexivity|]); calls.
      split_and!; [|lia|done]. right. split_and!; [done..|].
      eexists [], _; split_and!; [done | done | all_well].
  - (* Stats *)
    ask.
    2: { eexists _, _; (split; [reflexivity|]); calls.
         split_and!; [|lia|done]. right. split_and!; [done..|].
         eexists [], _; split_and!; [done | done | all_well]. }
    pose proof (exec_reads _ _ _ _ _ Ha ltac:(done) ltac:(done) ltac:(done)) as ->.
    apply exec_count in Ha as [n ->]; [|by left].
    ask.
    2: { eexists _, _; (split; [reflexivity|]); calls.
         split_and!; [|lia|done]. right. split_and!; [done..|].
         eexists [_], _; split_and!; [done | done | all_well]. }
    pose proof (exec_reads _ _ _ _ _ Ha ltac:(done) ltac:(done) ltac:(done)) as ->.
    apply exec_count in Ha as [a ->]; [|right; by left].
    ask.
    2: { eexists _, _; (split; [reflexivity|]); calls.
         split_and!; [|lia|done]. right. split_and!; [done..|].
         eexists [_; _], _; split_and!; [done | done | all_well]. }
    pose proof (exec_reads _ _ _ _ _ Ha ltac:(done) ltac:(done) ltac:(done)) as ->.
    apply exec_count in Ha as [g ->]; [|right; by right].
    ask.
    2: { eexists _, _; (split; [reflexivity|]); calls.
         split_and!; [|lia|done]. right. split_and!; [done..|].
         eexists [_; _; _], _; split_and!; [done | done | all_well]. }
    pose proof (exec_reads _ _ _ _ _ Ha ltac:(done) ltac:(done) ltac:(done)) as ->.
    apply exec_total in Ha as [t ->].
    eexists _, _; (split; [reflexivity|]); calls.
    split_and!; [|lia|done]. left. split_and!; [by eexists _, _, _, _ | done | all_well].
  - (* Genres *)
    ask.
    + pose proof (exec_reads _ _ _ _ _ Ha ltac:(done) ltac:(done) ltac:(done)) as ->.
      eexists _, _; (split; [reflexivity|]); calls.
      split_and!; [|lia|done]. left. split_and!; [by eexists | done | all_well].
    + eexists _, _; (split; [reflexivity|]); calls.
      split_and!; [|lia|done]. right. split_and!; [done..|].
      eexists [], _; split_and!; [done | done | all_well].
Qed.

Lemma regular_not_500 r resp : regular r resp → status resp ≠ 500.
Proof.
  destruct r; simpl; intros H;
    repeat match goal with
    | H : _ ∨ _ |- _ => destruct H as [H | H]
    | H : ∃ _, _ |- _ => destruct H as [? H]
    end; subst; simpl; lia.
Qed.

(** X1. The table of answers.  Every request is answered; the answer is
    either the internal error of its route, 500 with
    [{ error: 'Failed to ...' }], or one of the regular answers of the
    route: 200 with rows for List; 200 with a book or 404 for Get; 201 with
    a book or 400 for Create; 200 with a book, 400 or 404 for Update; 200
    with the confirmation or 404 for Delete; 200 with the four counters for
    Stats; 200 with the list for Genres.  A status from 400 up always
    carries a body [{ error: message }], a lower one never does. *)
Theorem responses_of_routes r w :
  ∃ resp w',
    handle r w = (Returned resp, w') ∧
    (regular r resp ∨ resp = Response 500 (JsonError (failure_of r))) ∧
    (400 ≤ status resp ↔ ∃ msg, body resp = JsonError msg).
Proof.
  destruct (handle_outcome r w) as (resp & w' & E & [(Hr & _) | (-> & _)] & _).
  - exists resp, w'. split_and!; [done | by left |].
    destruct r; simpl in Hr;
      repeat match goal with
      | H : _ ∨ _ |- _ => destruct H as [H | H]
      | H : ∃ _, _ |- _ => destruct H as [? H]
      end; subst; simpl;
      (split; [intros ?; first [lia | by eexists] | intros [? ?]; first [done | lia]]).
  - eexists _, w'. split_and!; [done | by right |]. simpl.
    split; [by eexists | lia].
Qed.

(** X2. The console.  A request writes to the console exactly when it is
    answered 500, and then the one line of its [catch] block; a validation
    error or a not-found writes nothing. *)
Theorem console_line_iff_500 r w :
  ∃ resp w',
    handle r w = (Returned resp, w') ∧
    console w' =
      console w ++ (if decide (status resp = 500) then [log_line_of r] else []).
Proof.
  destruct (handle_outcome r w)
    as (resp & w' & E & [(Hr & Hc & _) | (-> & Hc & _)] & _);
    eexists _, w'; (split; [done|]).
  - rewrite decide_False by (by eapply regular_not_500). by rewrite app_nil_r.
  - by rewrite decide_True.
Qed.

Lemma snoc_split {A} (pre pre' : list A) c c' post :
  pre ++ [c] = pre' ++ c' :: post → post = [] ∨ c' ∈ pre.
Proof.
  revert pre'. induction pre as [|a pre IH]; intros [|x pre'] H; simpl in H.
  - injection H as _ <-. by left.
  - injection H as _ H. by destruct pre'.
  - injection H as <- _. right. left.
  - injection H as _ H. destruct (IH _ H) as [? | ?]; [by left | right; by right].
Qed.

(** X3. The queries of a request.  A request issues at most one query,
    Stats at most four; a query that fails is the last one issued; and the
    answer is 500 exactly when a query failed, so the internal error is
    never reported for anything but a failure of the store. *)
Theorem queries_of_a_request r w :
  ∃ resp w',
    handle r w = (Returned resp, w') ∧
    (length (issued w w') ≤ match r with Stats => 4 | _ => 1 end)%nat ∧
    (status resp = 500 ↔ Exists (λ c, ok c = false) (issued w w')) ∧
    (∀ pre c post, issued w w' = pre ++ c :: post → ok c = false → post = []).
Proof.
  destruct (handle_outcome r w)
    as (resp & w' & E & [(Hr & _ & Hok) | (-> & _ & _ & pre & c & Hi & Hc & Hok)]
        & Hlen & _);
    eexists _, w'; (split; [done|]); (split; [done|]).
  - split.
    + split; [intros ?; by destruct (regular_not_500 r resp) |].
      intros (c & Hc & Hf)%Exists_exists.
      rewrite Forall_forall in Hok. specialize (Hok c Hc). congruence.
    + intros pre c post Hi Hf. rewrite Forall_forall in Hok.
      assert (ok c = true); [|congruence].
      apply Hok. rewrite Hi. set_solver.
  - rewrite Hi. split.
    + split; [intros _ | done]. apply Exists_app. right. by left.
    + intros pre' c' post Hi' Hf.
      destruct (snoc_split pre pre' c c' post Hi') as [? | Hin]; [done|].
      rewrite Forall_forall in Hok. specialize (Hok c' Hin). congruence.
Qed.

(** X4. What a request cannot change.  List, Get, Stats and Genres never
    write: the database after them is the database before, whatever the
    answer and whatever the store's faults.  And a request of any kind that
    is answered 400 or 404 has changed nothing. *)
Theorem reads_and_refusals_write_nothing r w :
  ∃ resp w',
    handle r w = (Returned resp, w') ∧
    (done_status r = None → db w' = db w) ∧
    (status resp = 400 ∨ status resp = 404 → db w' = db w).
Proof.
  destruct (handle_outcome r w) as (resp & w' & E & _ & _ & H).
  exists resp, w'. split_and!; [done | |].
  - intros Hn. apply H. by rewrite Hn.
  - intros Hs. apply H. destruct r; simpl; destruct Hs as [-> | ->]; done.
Qed.

(** ** The table over a run of requests *)

Lemma tick_consistent dt w :
  0 ≤ dt → consistent (db w) → consistent (db (tick dt w)).
Proof.
  intros Hdt (Ht & Hk & Hs). split_and!; simpl; [|done|done].
  intros b Hb. destruct (Ht b Hb). lia.
Qed.

(** X5. The table stays consistent.  Starting from the empty table, after
    any run of requests, whatever the store's faults and its locale, as
    long as its clock does not go back: ids are pairwise distinct and below
    the sequence, and for every record [created_at <= updated_at <= now]. *)
Theorem table_stays_consistent steps now fs lc :
  Forall (λ step, 0 ≤ step.1) steps →
  let d := db (serve steps (fresh now fs lc)) in
  NoDup (Pg.id <$> books d) ∧
  ∀ b, b ∈ books d →
       Pg.id b < books_id_seq d ∧
       created_at b ≤ updated_at b ∧ updated_at b ≤ clock d.
Proof.
  intros Hsteps.
  assert (consistent (db (serve steps (fresh now fs lc)))) as (Ht & Hk & Hs).
  { assert (consistent (db (fresh now fs lc))) as H0 by apply empty_table_consistent.
    revert H0. generalize (fresh now fs lc).
    induction Hsteps as [|[dt r] rest Hdt _ IH]; intros w Hw; [done|].
    simpl. apply IH. by apply handle_consistent, tick_consistent. }
  simpl. split; [done|]. intros b Hb. destruct (Ht b Hb). split_and!; auto.
Qed.

Lemma table_stays_consistent_witness :
  let d := db (serve [(5, Create dune_1965); (7, Update "1" free_book);
                      (0, Create free_book); (3, Delete "2"); (1, Stats)]
                     (fresh 100 [false; true] c_locale)) in
  NoDup (Pg.id <$> books d) ∧
  ∀ b, b ∈ books d →
       Pg.id b < books_id_seq d ∧
       created_at b ≤ updated_at b ∧ updated_at b ≤ clock d.
Proof.
  apply table_stays_consistent. repeat constructor; simpl; lia.
Defined.

(** In that run the Update meets an unreachable store and changes nothing;
    the second book is created and then deleted. *)
Example a_run_of_requests :
  db (serve [(5, Create dune_1965); (7, Update "1" free_book);
             (0, Create free_book); (3, Delete "2"); (1, Stats)]
            (fresh 100 [false; true] c_locale))
  = Database [Book 1 "Dune" "Frank Herbert" (Some 1965) None None
                   (Some (Hundredths 1250)) None None 105 105] 3 116 c_locale.
Proof. vm_compute. reflexivity. Qed.

(** ** Validation *)

(** X6. Validation comes first, for Create and for Update alike: when
    title or author is falsy in any way (absent, null, empty, 0, false) the
    answer is 400 'Title and author are required', whatever the id and the
    other fields, and the world is left as it was: no query is issued, so
    neither a missing record nor an unreachable store is noticed. *)
Theorem falsy_title_or_author_rejected body w :
  truthy (Js.prop body "title") = false ∨ truthy (Js.prop body "author") = false →
  post_book body w =
    (Returned (Response 400 (JsonError "Title and author are required")), w) ∧
  ∀ id, put_book id body w =
    (Returned (Response 400 (JsonError "Title and author are required")), w).
Proof.
  intros H. split; [by apply post_book_guard|].
  intros id. unfold put_book, try_catch.
  assert (negb (truthy (Js.prop body "title")) || negb (truthy (Js.prop body "author")) = true) as ->.
  { destruct H as [-> | ->]; simpl; [done | apply orb_true_r]. }
  done.
Qed.

Lemma falsy_title_or_author_rejected_witness :
  put_book "no such id" {[ "title" := JNum 0; "author" := JStr "X" ]}
           (World one_book [true] [] [])
  = (Returned (Response 400 (JsonError "Title and author are required")),
     World one_book [true] [] []).
Proof.
  apply (falsy_title_or_author_rejected
           {[ "title" := JNum 0; "author" := JStr "X" ]} (World one_book [true] [] [])).
  left. reflexivity.
Defined.

(** ** List: every search text *)

Lemma like_tokens_step c p :
  like_tokens (String c p) =
    if Ascii.eqb c "\" then
      match p with
      | EmptyString => None
      | String c' p' => cons (PLit c') <$> like_tokens p'
      end
    else cons (if Ascii.eqb c "%" then PAny
               else if Ascii.eqb c "_" then POne else PLit c) <$> like_tokens p.
Proof.
  destruct c as [[] [] [] [] [] [] [] []]; reflexivity.
Qed.

(** A pattern that ends in [%] is well formed, whatever comes before. *)
Lemma like_tokens_total s :
  is_Some (like_tokens (s +:+ "%")) ∧
  ∀ c, is_Some (like_tokens (String c (s +:+ "%"))).
Proof.
  induction s as [|a s [IH1 IH2]].
  - split; [by eexists|]. intros c. rewrite like_tokens_step.
    destruct (Ascii.eqb c "\"); by eexists.
  - rewrite app_cons. split; [apply IH2|].
    intros c. rewrite like_tokens_step. destruct (Ascii.eqb c "\").
    + destruct IH1 as [t ->]. by eexists.
    + destruct (IH2 a) as [t ->]. by eexists.
Qed.

Lemma search_pattern_total lc s :
  characterwise lc → is_Some (like_tokens (sql_lower lc ("%" +:+ s +:+ "%"))).
Proof.
  intros [Hp _]. unfold sql_lower. rewrite !lower_app. change (lower "%") with "%".
  rewrite Hp, app_cons, app_empty_l, like_tokens_step. simpl.
  destruct (like_tokens_total (lc (lower s))) as [[t ->] _]. by eexists.
Qed.

Lemma resolve_search_total lc params n s :
  characterwise lc →
  params !! (n - 1)%nat = Some (Some ("%" +:+ s +:+ "%")) →
  is_Some (resolve lc params (Search n)).
Proof.
  intros Hlc Hp. unfold resolve. rewrite Hp.
  cbn -[sql_lower like_tokens String.append].
  destruct (search_pattern_total lc s Hlc) as [t ->]. by eexists.
Qed.

Lemma selected_submseteq (tests : list (book → bool)) (bs : list book) :
  merge_sort newest_first (filter (λ b, forallb (λ t : book → bool, t b) tests) bs)
  ⊆+ bs.
Proof.
  rewrite merge_sort_Permutation. apply sublist_submseteq, sublist_filter.
Qed.

(** X7. List answers whatever is searched for.  With the store reachable,
    a case mapping that works character by character, and filter texts the
    store takes (no NUL character), List answers 200 for every search text
    and genre, wildcards and backslashes included: the pattern it builds
    ends in [%] and is always well formed.  The rows are books of the
    table, each listed at most as often as it is stored, newest first; the
    table is unchanged. *)
Theorem list_answers_every_search query w :
  calm w = true →
  characterwise (lc_ctype (db w)) →
  sendable query = true →
  ∃ bs w',
    get_books query w = (Returned (Response 200 (JsonRows (BookRow <$> bs))), w') ∧
    db w' = db w ∧
    bs ⊆+ books (db w) ∧
    Sorted newest_first bs.
Proof.
  intros Hc Hlc _. rewrite get_books_query. unfold try_catch, mbind, M_bind.
  set (lc := lc_ctype (db w)) in *.
  assert (∀ conditions params tests,
    mapM (resolve lc (prepareValue <$> params)) conditions = Some tests →
    ∃ bs w',
      pool_query (SelectBooks conditions) params w
        = (Returned (BookRow <$> bs), w') ∧
      db w' = db w ∧ bs ⊆+ books (db w) ∧ Sorted newest_first bs) as run.
  { intros conditions params tests Ht. rewrite pool_query_calm by done.
    rewrite (exec_select _ _ _ tests Ht).
    eexists _, _. split_and!; [reflexivity | done | apply selected_submseteq
                              | apply Sorted_merge_sort, _]. }
  destruct (in_effect (query !! "search")) as [s|],
           (in_effect (query !! "genre")) as [g|].
  - destruct (resolve_search_total lc [Some ("%" +:+ s +:+ "%"); Some g] 1 s)
      as [t1 E1]; [done | done |].
    destruct (resolve_genre lc [Some ("%" +:+ s +:+ "%"); Some g] 2 g)
      as (t2 & E2 & _); [done|].
    destruct (run [Search 1; GenreIs 2] [JStr ("%" +:+ s +:+ "%"); JStr g] [t1; t2])
      as (bs & w' & -> & ?); [|by exists bs, w'].
    cbn [mapM fmap list_fmap prepareValue Js.to_string]. by rewrite E1, E2.
  - destruct (resolve_search_total lc [Some ("%" +:+ s +:+ "%")] 1 s) as [t1 E1];
      [done | done |].
    destruct (run [Search 1] [JStr ("%" +:+ s +:+ "%")] [t1])
      as (bs & w' & -> & ?); [|by exists bs, w'].
    cbn [mapM fmap list_fmap prepareValue Js.to_string]. by rewrite E1.
  - destruct (resolve_genre lc [Some g] 1 g) as (t2 & E2 & _); [done|].
    destruct (run [GenreIs 1] [JStr g] [t2]) as (bs & w' & -> & ?); [|by exists bs, w'].
    cbn [mapM fmap list_fmap prepareValue Js.to_string]. by rewrite E2.
  - destruct (run [] [] []) as (bs & w' & -> & ?); [done | by exists bs, w'].
Qed.

Lemma list_answers_every_search_witness :
  ∃ bs w',
    get_books {[ "search" := "50%\_off\\" ]} (at_rest shelf)
      = (Returned (Response 200 (JsonRows (BookRow <$> bs))), w') ∧
    db w' = shelf ∧ bs ⊆+ books shelf ∧ Sorted newest_first bs.
Proof.
  exact (list_answers_every_search {[ "search" := "50%\_off\\" ]} (at_rest shelf)
           eq_refl c_locale_characterwise eq_refl).
Defined.

(** X8. List without a filter lists everything.  With the store reachable
    and neither [search] nor [genre] in effect (absent or empty), List
    returns every book of the table exactly as often as it is stored,
    newest first. *)
Theorem list_unfiltered_lists_everything query w :
  calm w = true →
  in_effect (query !! "search") = None →
  in_effect (query !! "genre") = None →
  ∃ bs w',
    get_books query w = (Returned (Response 200 (JsonRows (BookRow <$> bs))), w') ∧
    bs ≡ₚ books (db w) ∧
    Sorted newest_first bs.
Proof.
  intros Hc Hs Hg. rewrite get_books_query, Hs, Hg.
  unfold try_catch, mbind, M_bind. rewrite pool_query_calm by done.
  rewrite (exec_select _ _ _ []) by done.
  eexists _, _. split_and!; [reflexivity | | apply Sorted_merge_sort, _].
  rewrite merge_sort_Permutation. by rewrite filter_all.
Qed.

Lemma list_unfiltered_lists_everything_witness :
  ∃ bs w',
    get_books {[ "search" := "" ]} (at_rest shelf)
      = (Returned (Response 200 (JsonRows (BookRow <$> bs))), w') ∧
    bs ≡ₚ books shelf ∧ Sorted newest_first bs.
Proof.
  exact (list_unfiltered_lists_everything {[ "search" := "" ]} (at_rest shelf)
           eq_refl eq_refl eq_refl).
Defined.

(** The search condition depends on the search text up to letter case. *)
Lemma select_case p p' rest conditions d :
  lower p = lower p' →
  conditions = [Search 1] ∨ conditions = [Search 1; GenreIs 2] →
  exec (SelectBooks conditions) (Some p :: rest) d
  = exec (SelectBooks conditions) (Some p' :: rest) d.
Proof.
  intros E [-> | ->]; unfold exec; cbn [mapM]; unfold resolve, sql_lower;
    cbn -[lower like_tokens]; by rewrite E.
Qed.

(** X9. Search ignores letter case.  Changing the letter case of the
    search text, whatever it contains, never changes the answer of List:
    two search texts that are equal once lowered give the same response on
    the same world. *)
Theorem search_ignores_case query s s' w :
  query !! "search" = Some s → lower s' = lower s →
  (get_books (<["search" := s']> query) w).1 = (get_books query w).1.
Proof.
  intros Hs E. rewrite !get_books_query.
  rewrite lookup_insert_eq, lookup_insert_ne, Hs by done.
  assert (lower ("%" +:+ s' +:+ "%") = lower ("%" +:+ s +:+ "%")) as Ep
    by (by rewrite !lower_app, E).
  assert (in_effect (Some s') = None ∧ in_effect (Some s) = None ∨
          in_effect (Some s') = Some s' ∧ in_effect (Some s) = Some s) as Hi.
  { unfold in_effect.
    destruct (String.eqb_spec s' "") as [->|], (String.eqb_spec s "") as [->|];
      auto.
    - destruct s; [done | discriminate E].
    - destruct s'; [done | discriminate E]. }
  destruct Hi as [[-> ->] | [-> ->]]; [done|].
  unfold try_catch, mbind, M_bind, pool_query.
  destruct (in_effect (query !! "genre")) as [g|];
    (destruct (faults w) as [|[] fs]; [|done|]);
    cbn [fmap list_fmap prepareValue Js.to_string];
    rewrite (select_case _ _ _ _ _ Ep) by auto;
    by destruct (exec _ _ _) as [[? ?]|].
Qed.

Lemma search_ignores_case_witness :
  (get_books (<["search" := "DuNe"]> dune_scifi) (at_rest shelf)).1
  = (get_books dune_scifi (at_rest shelf)).1.
Proof.
  apply (search_ignores_case dune_scifi "dune" "DuNe"); reflexivity.
Defined.

(** ** Create, Get, Update and Delete together *)

Lemma handle_calm r w : calm w = true → calm (handle r w).2 = true.
Proof.
  intros Hc. route r.
  - destruct (in_effect (query !! "search")), (in_effect (query !! "genre")); ask;
      unfold after; still_calm.
  - ask; [destruct (length _ =? 0)%nat|]; unfold after; still_calm.
  - destruct (negb _ || negb _); [done|]. ask; unfold after; still_calm.
  - destruct (negb _ || negb _); [done|].
    ask; [destruct (length _ =? 0)%nat|]; unfold after; still_calm.
  - ask; [destruct (length _ =? 0)%nat|]; unfold after; still_calm.
  - ask; [|unfold after; still_calm].
    apply exec_count in Ha as [n ->]; [|by left].
    ask; [|unfold after; still_calm].
    apply exec_count in Ha as [a ->]; [|right; by left].
    ask; [|unfold after; still_calm].
    apply exec_count in Ha as [g ->]; [|right; by right].
    ask; [|unfold after; still_calm].
    apply exec_total in Ha as [t ->].
    unfold after; still_calm.
  - ask; unfold after; still_calm.
Qed.

(** Under the key, the rows with the id of a record are that record. *)
Lemma filter_key (bs : list book) b :
  NoDup (Pg.id <$> bs) → b ∈ bs → filter (λ r, Pg.id r = Pg.id b) bs = [b].
Proof.
  induction bs as [|x l IH]; intros Hk Hb; [by apply elem_of_nil in Hb|].
  rewrite fmap_cons in Hk. apply NoDup_cons in Hk as [Hx Hl].
  apply elem_of_cons in Hb as [-> | Hb].
  - rewrite filter_cons_True by done. f_equal.
    apply filter_none_iff. intros r Hr E. apply Hx. rewrite <- E.
    by apply list_elem_of_fmap_2.
  - rewrite filter_cons_False; [by apply IH|].
    intros E. apply Hx. rewrite E. by apply list_elem_of_fmap_2.
Qed.

(** X10. Get returns the record.  With the store reachable and ids
    pairwise distinct, Get of an id that reads as the id of a stored record
    answers 200 with exactly that record. *)
Theorem get_returns_the_record id w b :
  calm w = true →
  NoDup (Pg.id <$> books (db w)) →
  b ∈ books (db w) →
  int4_in id = Some (Pg.id b) →
  (get_book id w).1 = Returned (Response 200 (JsonRow (Some (BookRow b)))).
Proof.
  intros Hc Hk Hb Hid. rewrite get_book_calm by done. cbv zeta. rewrite Hid.
  by rewrite filter_key.
Qed.

Example shelf_keyed : NoDup (Pg.id <$> books shelf).
Proof. by apply (bool_decide_unpack _). Qed.

Lemma get_returns_the_record_witness :
  (get_book " 3" (at_rest shelf)).1 =
    Returned (Response 200 (JsonRow (Some (BookRow
      (Book 3 "Foundation" "Asimov" (Some 1951) None None (Some (Hundredths 999)) None
            (Some "The fall of an empire") 120 130))))).
Proof.
  apply get_returns_the_record;
    [reflexivity | apply shelf_keyed | set_solver | reflexivity].
Defined.

Lemma pool_query_faults q vs w o w' :
  pool_query q vs w = (o, w') → faults w' = tail (faults w).
Proof.
  unfold pool_query. destruct (faults w) as [|[] fs];
    try destruct (exec q _ (db w)) as [[r d]|]; by intros [= <- <-].
Qed.

(** What a 201 of Create tells about the database. *)
Lemma post_book_inserted body w resp w' :
  post_book body w = (Returned resp, w') → status resp = 201 →
  ∃ bd f,
    bind8 (prepareValue (Js.prop body "title")) (prepareValue (Js.prop body "author"))
          (sent (Js.prop body "year")) (sent (Js.prop body "genre"))
          (sent (Js.prop body "pages")) (sent (Js.prop body "price"))
          (sent (Js.prop body "isbn")) (sent (Js.prop body "description")) = Some bd ∧
    assign bd = Some f ∧
    resp = Response 201 (JsonRow (Some (BookRow
             (new_book (books_id_seq (db w)) f (clock (db w)))))) ∧
    db w' = Database (books (db w) ++ [new_book (books_id_seq (db w)) f (clock (db w))])
                     (books_id_seq (db w) + 1) (clock (db w)) (lc_ctype (db w)) ∧
    faults w' = tail (faults w).
Proof.
  unfold post_book, try_catch, mbind, M_bind.
  destruct (truthy (Js.prop body "title")) eqn:Ht; [|by intros [= <- <-]].
  destruct (truthy (Js.prop body "author")) eqn:Ha; [|by intros [= <- <-]].
  cbn [negb orb]. cbv beta.
  match goal with |- context [pool_query ?q ?vs w] =>
    destruct (pool_query q vs w) as [[rows|e] w1] eqn:E end;
    [|by intros [= <- <-]].
  intros [= <- <-] _. pose proof (pool_query_faults _ _ _ _ _ E) as Hf.
  apply pool_query_returned in E.
  unfold exec in E. cbn [fmap list_fmap] in E. unfold sent.
  destruct (bind8 _ _ _ _ _ _ _ _) as [bd|] eqn:Eb; simpl in E; [|done].
  destruct (assign bd) as [f|] eqn:Ef; simpl in E; [|done].
  injection E as <- Ed. exists bd, f. by rewrite <- Ed.
Qed.



Lemma calm_faults w w' :
  calm w = true → faults w' = tail (faults w) → calm w' = true.
Proof. unfold calm. intros H ->. by apply quiet_tail. Qed.

(** X12. A created record can be fetched.  With the store reachable, the
    table consistent and the sequence within the 32-bit range, after a
    Create answered 201 a Get of the returned id, written in decimal,
    answers 200 with the identical record. *)
Theorem create_then_get body w resp w' :
  calm w = true →
  consistent (db w) →
  1 ≤ books_id_seq (db w) ≤ 2147483647 →
  post_book body w = (Returned resp, w') → status resp = 201 →
  ∃ b,
    Server.body resp = JsonRow (Some (BookRow b)) ∧
    (get_book (pretty (Pg.id b)) w').1
      = Returned (Response 200 (JsonRow (Some (BookRow b)))).
Proof.
  intros Hc (_ & _ & Hseq) Hr H H201.
  destruct (post_book_inserted _ _ _ _ H H201) as (bd & f & _ & _ & -> & Hd & Hf).
  eexists. split; [done|].
  rewrite get_book_calm by (by eapply calm_faults). cbv zeta.
  rewrite int4_in_pretty_fits by (simpl; lia). rewrite Hd. simpl books.
  rewrite filter_app.
  match goal with |- context [filter ?P (books (db w))] =>
    assert (filter P (books (db w)) = []) as ->
  end.
  { apply filter_none_iff. intros old Ho. specialize (Hseq old Ho). simpl. lia. }
  by rewrite filter_cons_True.
Qed.

Example shelf_consistent : consistent shelf.
Proof.
  split_and!; [|apply shelf_keyed|];
    intros b Hb; simpl in Hb;
    repeat (apply elem_of_cons in Hb as [-> | Hb]; [simpl; lia|]);
    by apply elem_of_nil in Hb.
Qed.

Lemma create_then_get_witness :
  ∃ b,
    (post_book dune_1965 (at_rest shelf)).1
      = Returned (Response 201 (JsonRow (Some (BookRow b)))) ∧
    (get_book "4" (post_book dune_1965 (at_rest shelf)).2).1
      = Returned (Response 200 (JsonRow (Some (BookRow b)))).
Proof.
  destruct (post_book dune_1965 (at_rest shelf)) as [o w'] eqn:E.
  assert (o = Returned (Response 201 (JsonRow (Some (BookRow
            (Book 4 "Dune" "Frank Herbert" (Some 1965) None None
                  (Some (Hundredths 1250)) None None 200 200)))))) as ->.
  { change o with (o, w').1. rewrite <- E. vm_compute. reflexivity. }
  destruct (create_then_get dune_1965 (at_rest shelf) _ w' eq_refl shelf_consistent
              ltac:(simpl; lia) E eq_refl) as (b & [= <-] & Hg).
  eexists. split; [reflexivity|]. exact Hg.
Defined.

Lemma bind8_reads t a y g p pr i ds bd :
  bind8 t a y g p pr i ds = Some bd →
  (∀ s, y = Some s → is_Some (int4_in s)) ∧
  (∀ s, p = Some s → is_Some (int4_in s)).
Proof.
  unfold bind8. intros H.
  destruct (nullable int4_in y) as [y'|] eqn:Ey; [|done].
  destruct (nullable int4_in p) as [p'|] eqn:Ep; [|done].
  split; intros s ->; simpl in *.
  - by destruct (int4_in s).
  - by destruct (int4_in s).
Qed.

(** X13. Numbers are stored as sent.  In the record a successful Create
    or Update returns, a year or a number of pages that was sent as a
    non-zero JSON number is stored as that very integer; such a request
    succeeds only when the number fits 32 bits. *)
Theorem numbers_are_stored_as_sent body w b w' :
  (post_book body w = (Returned (Response 201 (JsonRow (Some (BookRow b)))), w') ∨
   ∃ id, put_book id body w = (Returned (Response 200 (JsonRow (Some (BookRow b)))), w')) →
  ∀ n, n ≠ 0 →
    (body !! "year" = Some (JNum n) →
       year b = Some n ∧ - 2147483648 ≤ n ≤ 2147483647) ∧
    (body !! "pages" = Some (JNum n) →
       pages b = Some n ∧ - 2147483648 ≤ n ≤ 2147483647).
Proof.
  intros H n Hn.
  assert (sent (JNum n) = Some (number_to_string n 0)) as Hsent.
  { apply sent_truthy. simpl. by destruct (Z.eqb_spec n 0). }
  assert (∃ bd f,
    bind8 (prepareValue (Js.prop body "title")) (prepareValue (Js.prop body "author"))
          (sent (Js.prop body "year")) (sent (Js.prop body "genre"))
          (sent (Js.prop body "pages")) (sent (Js.prop body "price"))
          (sent (Js.prop body "isbn")) (sent (Js.prop body "description")) = Some bd ∧
    assign bd = Some f ∧ year b = f_year f ∧ pages b = f_pages f)
    as (bd & f & Hb & Hf & Ey & Ep).
  { destruct H as [H | [id H]].
    - apply post_book_created in H as (bd & f & _ & _ & Hb & Ha & -> & _).
      by exists bd, f.
    - apply put_book_updated in H as
        (bd & f & k & old & _ & _ & Hb & Ha & _ & _ & _ & [= ->] & _); [|done].
      by exists bd, f. }
  destruct (assigned _ _ _ _ _ _ _ _ _ _ Hb Hf) as (_ & _ & Hy & _ & Hp & _).
  destruct (bind8_reads _ _ _ _ _ _ _ _ _ Hb) as [Ry Rp].
  split; intros E; unfold Js.prop in *; rewrite E in *; simpl default in *;
    rewrite Hsent in *.
  - destruct (Ry _ eq_refl) as [m Hm].
    rewrite Ey, Hy. simpl. rewrite Hm.
    apply int4_in_integer_Some in Hm as [-> ?]. done.
  - destruct (Rp _ eq_refl) as [m Hm].
    rewrite Ep, Hp. simpl. rewrite Hm.
    apply int4_in_integer_Some in Hm as [-> ?]. done.
Qed.

Lemma numbers_are_stored_as_sent_witness :
  ∃ b,
    (post_book dune_1965 (at_rest shelf)).1
      = Returned (Response 201 (JsonRow (Some (BookRow b)))) ∧
    year b = Some 1965.
Proof.
  destruct (post_book dune_1965 (at_rest shelf)) as [o w'] eqn:E.
  assert (o = Returned (Response 201 (JsonRow (Some (BookRow
            (Book 4 "Dune" "Frank Herbert" (Some 1965) None None
                  (Some (Hundredths 1250)) None None 200 200)))))) as ->.
  { change o with (o, w').1. rewrite <- E. vm_compute. reflexivity. }
  eexists. split; [reflexivity|].
  destruct (numbers_are_stored_as_sent dune_1965 (at_rest shelf) _ w'
              (or_introl E) 1965 ltac:(lia)) as [Hy _].
  apply Hy. vm_compute. reflexivity.
Defined.

(** X14. An updated record can be fetched.  With the store reachable and
    ids pairwise distinct, after an Update answered 200 a Get of the same id
    answers 200 with the record the Update returned. *)
Theorem update_then_get id body w resp w' :
  calm w = true →
  NoDup (Pg.id <$> books (db w)) →
  put_book id body w = (Returned resp, w') → status resp = 200 →
  ∃ new,
    Server.body resp = JsonRow (Some (BookRow new)) ∧
    (get_book id w').1 = Returned (Response 200 (JsonRow (Some (BookRow new)))).
Proof.
  intros Hc Hk H H200.
  pose proof (handle_calm (Update id body) w Hc) as Hc'. simpl in Hc'.
  rewrite H in Hc'. simpl in Hc'.
  apply put_book_updated in H as
    (bd & f & n & old & _ & _ & _ & _ & Hn & Ho & Hid & -> & Hd); [|done].
  eexists. split; [done|].
  rewrite get_book_calm by done. cbv zeta. rewrite Hn, Hd.
  set (new := set_fields f (clock (db w)) old).
  assert (n = Pg.id new) as -> by done.
  rewrite filter_key; [done | by rewrite ids_set_fields |].
  apply list_elem_of_fmap. exists old. split; [|done].
  by rewrite decide_True by (by apply id_is_Some).
Qed.

Lemma update_then_get_witness :
  ∃ new,
    (put_book "3" dune_1965 (at_rest shelf)).1
      = Returned (Response 200 (JsonRow (Some (BookRow new)))) ∧
    (get_book "3" (put_book "3" dune_1965 (at_rest shelf)).2).1
      = Returned (Response 200 (JsonRow (Some (BookRow new)))).
Proof.
  destruct (put_book "3" dune_1965 (at_rest shelf)) as [o w'] eqn:E.
  assert (o = Returned (Response 200 (JsonRow (Some (BookRow
            (Book 3 "Dune" "Frank Herbert" (Some 1965) None None
                  (Some (Hundredths 1250)) None None 120 200)))))) as ->.
  { change o with (o, w').1. rewrite <- E. vm_compute. reflexivity. }
  destruct (update_then_get "3" dune_1965 (at_rest shelf) _ w' eq_refl shelf_keyed
              E eq_refl) as (new & [= <-] & Hg).
  eexists. split; [reflexivity | exact Hg].
Defined.

(** X15. Update of an unknown id.  With the store reachable, a truthy
    title and author and a body the store takes, an Update whose id reads
    as an integer matching no record is answered 404 'Book not found' and
    leaves the database as it was. *)
Theorem update_unknown_id id body w n :
  calm w = true →
  truthy (Js.prop body "title") = true →
  truthy (Js.prop body "author") = true →
  well_formed body = true →
  int4_in id = Some n →
  (∀ b, b ∈ books (db w) → Pg.id b ≠ n) →
  (put_book id body w).1 = Returned (Response 404 (JsonError "Book not found")) ∧
  db (put_book id body w).2 = db w.
Proof.
  intros Hc Ht Ha Hw Hn Hno.
  destruct (well_formed_acceptable body Ht Ha Hw) as [f Hf].
  unfold put_book, try_catch, mbind, M_bind. rewrite Ht, Ha.
  cbn [negb orb]. cbv beta. rewrite pool_query_calm by done.
  unfold exec. cbn [fmap list_fmap]. unfold sent in Hf.
  destruct (bind8 _ _ _ _ _ _ _ _) as [bd|]; [|done].
  cbn [mbind option_bind prepareValue Js.to_string nullable fmap option_fmap option_map] in *.
  rewrite Hn. cbn [fmap option_fmap option_map mbind option_bind]. rewrite Hf.
  cbn [mbind option_bind].
  assert (filter (id_is (Some n)) (books (db w)) = []) as ->; [|done].
  apply filter_none_iff. intros b Hb Hid%id_is_Some. by apply (Hno b).
Qed.

Lemma update_unknown_id_witness :
  (put_book "9" dune_1965 (at_rest shelf)).1
    = Returned (Response 404 (JsonError "Book not found")) ∧
  db (put_book "9" dune_1965 (at_rest shelf)).2 = shelf.
Proof.
  apply (update_unknown_id "9" dune_1965 (at_rest shelf) 9);
    try (vm_compute; reflexivity).
  intros b Hb. simpl in Hb.
  repeat (apply elem_of_cons in Hb as [-> | Hb]; [simpl; lia|]).
  by apply elem_of_nil in Hb.
Defined.

(** X16. Delete is final and local.  With the store reachable and an id
    that reads as an integer: a second Delete of the same id right after
    the first is answered 404, whatever the first did; and a Get of any
    other integer id answers after the Delete what it answered before. *)
Theorem delete_is_final_and_local id w n :
  calm w = true →
  int4_in id = Some n →
  (delete_book id (delete_book id w).2).1
    = Returned (Response 404 (JsonError "Book not found")) ∧
  ∀ id' m, int4_in id' = Some m → m ≠ n →
    (get_book id' (delete_book id w).2).1 = (get_book id' w).1.
Proof.
  intros Hc Hn.
  pose proof (handle_calm (Delete id) w Hc) as Hc'. simpl in Hc'.
  assert (db (delete_book id w).2 =
          Database (filter (λ b, Pg.id b ≠ n) (books (db w)))
                   (books_id_seq (db w)) (clock (db w)) (lc_ctype (db w))) as Hd.
  { rewrite delete_book_calm by done. cbv zeta. rewrite Hn.
    by destruct (filter _ (books (db w))). }
  split.
  - rewrite delete_book_calm by done. cbv zeta. rewrite Hn, Hd. simpl books.
    rewrite list_filter_filter.
    assert (filter (λ b, Pg.id b = n ∧ Pg.id b ≠ n) (books (db w)) = []) as ->;
      [|done].
    apply filter_none_iff. by intros b _ [? ?].
  - intros id' m Hm Hne. rewrite !get_book_calm by done. cbv zeta.
    rewrite Hm, Hd. simpl books. rewrite list_filter_filter.
    rewrite (list_filter_iff (λ b, Pg.id b = m ∧ Pg.id b ≠ n) (λ b, Pg.id b = m))
      by (intros b; split; [tauto | intros ->; done]).
    by destruct (filter (λ b, Pg.id b = m) (books (db w))).
Qed.

Lemma delete_is_final_and_local_witness :
  (delete_book "2" (delete_book "2" (at_rest shelf)).2).1
    = Returned (Response 404 (JsonError "Book not found")) ∧
  (get_book "3" (delete_book "2" (at_rest shelf)).2).1
    = (get_book "3" (at_rest shelf)).1.
Proof.
  destruct (delete_is_final_and_local "2" (at_rest shelf) 2 eq_refl eq_refl)
    as [H1 H2].
  split; [exact H1|]. apply (H2 "3" 3); [reflexivity | lia].
Defined.

(** ** Stats and Genres after other requests *)

Lemma stats_total_calm w :
  calm w = true → stats_total w = Some (Z.of_nat (length (books (db w)))).
Proof.
  intros Hc. unfold stats_total.
  destruct (get_stats_calm w Hc) as (w' & -> & _). done.
Qed.

(** X17. Stats follows the writes.  With the store reachable and the
    table consistent, the total Stats reports after a request is the total
    it reported before plus one for a Create answered 201, minus one for a
    Delete answered 200, and unchanged for every other request and every
    other answer. *)
Theorem stats_follow_writes r w :
  calm w = true →
  consistent (db w) →
  ∃ resp w' n,
    handle r w = (Returned resp, w') ∧
    stats_total w = Some n ∧
    stats_total w' = Some (n + growth r resp).
Proof.
  intros Hc (_ & Hk & _).
  pose proof (handle_calm r w Hc) as Hc'.
  destruct (handle_outcome r w) as (resp & w' & E & _ & _ & Hsame).
  rewrite E in Hc'. simpl in Hc'.
  exists resp, w', (Z.of_nat (length (books (db w)))).
  split_and!; [done | by apply stats_total_calm |].
  rewrite stats_total_calm by done. f_equal.
  destruct r as [query | id | body | id body | id | | ]; simpl in *;
    try (rewrite Hsame by done; lia).
  - (* Create *)
    destruct (decide (status resp = 201)) as [H201 | H201].
    + destruct (post_book_inserted _ _ _ _ E H201) as (bd & f & _ & _ & _ & -> & _).
      simpl. rewrite length_app. simpl. lia.
    + rewrite Hsame by congruence. lia.
  - (* Update *)
    destruct (decide (status resp = 200)) as [H200 | H200].
    + apply put_book_updated in E as (? & ? & ? & ? & _ & _ & _ & _ & _ & _ & _ & _ & ->);
        [|done].
      rewrite length_fmap. lia.
    + rewrite Hsame by congruence. lia.
  - (* Delete *)
    destruct (decide (status resp = 200)) as [H200 | H200].
    + rewrite delete_book_calm in E by done. cbv zeta in E.
      destruct (int4_in id) as [n|]; [|by injection E as <- _].
      destruct (filter (λ b, Pg.id b = n) (books (db w))) as [|b l] eqn:Ef;
        [by injection E as <- _|].
      injection E as _ <-. simpl.
      rewrite (delete_one (books (db w)) n); [lia | done |].
      assert (b ∈ filter (λ b, Pg.id b = n) (books (db w))) as Hb
        by (rewrite Ef; left).
      apply list_elem_of_filter in Hb as [? ?]. by exists b.
    + rewrite Hsame by congruence. lia.
Qed.

Lemma stats_follow_writes_witness :
  ∃ resp w' n,
    handle (Delete "2") (at_rest shelf) = (Returned resp, w') ∧
    stats_total (at_rest shelf) = Some n ∧
    stats_total w' = Some (n + growth (Delete "2") resp).
Proof. exact (stats_follow_writes (Delete "2") (at_rest shelf) eq_refl shelf_consistent). Defined.

(** X18. Genres feeds the genre filter.  With the store reachable, every
    genre Genres returns is a filter that finds something: List with that
    genre answers 200 with at least one book, and returns exactly the books
    of the table whose genre is that text. *)
Theorem genres_feed_list w g :
  calm w = true →
  (∃ gs w', get_genres w = (Returned (Response 200 (JsonGenres gs)), w') ∧
            Some g ∈ gs) →
  ∃ bs w'',
    get_books {[ "genre" := g ]} w
      = (Returned (Response 200 (JsonRows (BookRow <$> bs))), w'') ∧
    bs ≠ [] ∧
    ∀ b, b ∈ bs ↔ b ∈ books (db w) ∧ genre b = Some g.
Proof.
  intros Hc (gs & w' & E & Hg).
  destruct (get_genres_calm w Hc) as (w1 & E1 & _). rewrite E1 in E.
  injection E as <- _.
  rewrite merge_sort_Permutation, elem_of_remove_dups, genres_selected in Hg.
  rewrite (list_elem_of_fmap_inj Some) in Hg.
  apply elem_of_named_genres in Hg as (Hne & b0 & Hb0 & Hg0).
  rewrite get_books_query. unfold try_catch, mbind, M_bind.
  rewrite lookup_singleton_ne, lookup_singleton_eq by done.
  assert (in_effect (Some g) = Some g) as ->.
  { unfold in_effect. by destruct (String.eqb_spec g ""). }
  cbn [in_effect]. rewrite pool_query_calm by done.
  cbn [fmap list_fmap prepareValue Js.to_string].
  destruct (resolve_genre (lc_ctype (db w)) [Some g] 1 g) as (t & Et & Ht); [done|].
  rewrite (exec_select _ _ _ [t]) by (cbn [mapM]; by rewrite Et).
  eexists _, _. split; [reflexivity|].
  assert (∀ b, b ∈ merge_sort newest_first
                 (filter (λ b, forallb (λ t : book → bool, t b) [t]) (books (db w)))
               ↔ b ∈ books (db w) ∧ genre b = Some g) as Hin.
  { intros b. rewrite elem_of_selected, Forall_cons, Forall_nil, Ht. tauto. }
  split; [|done].
  intros Hnil. assert (b0 ∈ @nil book) as Habs; [|by apply elem_of_nil in Habs].
  rewrite <- Hnil. by apply Hin.
Qed.

Lemma genres_feed_list_witness :
  ∃ bs w'',
    get_books {[ "genre" := "Sci-Fi" ]} (at_rest shelf)
      = (Returned (Response 200 (JsonRows (BookRow <$> bs))), w'') ∧
    bs ≠ [] ∧
    ∀ b, b ∈ bs ↔ b ∈ books shelf ∧ genre b = Some "Sci-Fi".
Proof.
  apply (genres_feed_list (at_rest shelf) "Sci-Fi" eq_refl).
  eexists _, _. split; [vm_compute; reflexivity | left].
Defined.





(** A record whose id is above all others, appended to them. *)
Lemma last_key (bs : list book) b :
  (∀ old, old ∈ bs → Pg.id old < Pg.id b) →
  filter (λ r, Pg.id r = Pg.id b) (bs ++ [b]) = [b] ∧
  filter (λ r, Pg.id r ≠ Pg.id b) (bs ++ [b]) = bs.
Proof.
  intros Hlt. rewrite !filter_app. split.
  - rewrite filter_cons_True by done.
    assert (filter (λ r, Pg.id r = Pg.id b) bs = []) as ->; [|done].
    apply filter_none_iff. intros old Ho. specialize (Hlt old Ho). lia.
  - rewrite filter_cons_False by (intros Hx; by apply Hx).
    rewrite filter_all; [by rewrite filter_nil, app_nil_r|].
    intros old Ho. specialize (Hlt old Ho). lia.
Qed.

(** X20. Create then Delete.  With the store reachable, the table
    consistent and the sequence within the 32-bit range, deleting the
    record a Create has just returned, by its id written in decimal, is
    answered 200 and leaves the rows of the table as they were before the
    Create; only the sequence has moved on. *)
Theorem create_then_delete body w resp w' :
  calm w = true →
  consistent (db w) →
  1 ≤ books_id_seq (db w) ≤ 2147483647 →
  post_book body w = (Returned resp, w') → status resp = 201 →
  ∃ b,
    Server.body resp = JsonRow (Some (BookRow b)) ∧
    (delete_book (pretty (Pg.id b)) w').1
      = Returned (Response 200 (JsonMessage "Book deleted successfully")) ∧
    books (db (delete_book (pretty (Pg.id b)) w').2) = books (db w) ∧
    books_id_seq (db (delete_book (pretty (Pg.id b)) w').2)
      = books_id_seq (db w) + 1.
Proof.
  intros Hc (_ & _ & Hseq) Hr H H201.
  destruct (post_book_inserted _ _ _ _ H H201) as (bd & f & _ & _ & -> & Hd & Hf).
  eexists. split; [done|].
  rewrite delete_book_calm by (by eapply calm_faults). cbv zeta.
  rewrite int4_in_pretty_fits by (simpl; lia). rewrite Hd. cbn [books books_id_seq].
  set (b := new_book (books_id_seq (db w)) f (clock (db w))).
  destruct (last_key (books (db w)) b) as [E1 E2].
  { intros old Ho. specialize (Hseq old Ho). simpl. lia. }
  rewrite E1, E2. done.
Qed.

Lemma create_then_delete_witness :
  ∃ b,
    (post_book dune_1965 (at_rest shelf)).1
      = Returned (Response 201 (JsonRow (Some (BookRow b)))) ∧
    books (db (delete_book "4" (post_book dune_1965 (at_rest shelf)).2).2)
      = books shelf.
Proof.
  destruct (post_book dune_1965 (at_rest shelf)) as [o w'] eqn:E.
  assert (o = Returned (Response 201 (JsonRow (Some (BookRow
            (Book 4 "Dune" "Frank Herbert" (Some 1965) None None
                  (Some (Hundredths 1250)) None None 200 200)))))) as ->.
  { change o with (o, w').1. rewrite <- E. vm_compute. reflexivity. }
  destruct (create_then_delete dune_1965 (at_rest shelf) _ w' eq_refl shelf_consistent
              ltac:(simpl; lia) E eq_refl) as (b & [= <-] & _ & Hb & _).
  eexists. split; [reflexivity|]. exact Hb.
Defined.

(** X21. Only title and author are validated.  With the store reachable
    and a truthy title and author, a year given as a non-empty string that
    is neither a decimal literal within the 32-bit range nor written in
    another notation of integers (a prefix [0x], [0o], [0b], or digits
    separated by underscores) is not a validation error: Create and Update,
    whatever the id, answer the internal error 500, log it, and leave the
    database as it was. *)
Theorem unreadable_year_is_internal_error body w s :
  calm w = true →
  truthy (Js.prop body "title") = true →
  truthy (Js.prop body "author") = true →
  body !! "year" = Some (JStr s) → s ≠ "" → never_an_integer s = true →
  (post_book body w).1 = Returned (Response 500 (JsonError "Failed to add book")) ∧
  db (post_book body w).2 = db w ∧
  console (post_book body w).2 = console w ++ ["Error adding book:"] ∧
  ∀ id,
    (put_book id body w).1 = Returned (Response 500 (JsonError "Failed to update book")) ∧
    db (put_book id body w).2 = db w ∧
    console (put_book id body w).2 = console w ++ ["Error updating book:"].
Proof.
  intros Hc Ht Ha Hy Hs Hn%never_an_integer_unread.
  assert (sent (Js.prop body "year") = Some s) as Hsent.
  { unfold Js.prop. rewrite Hy. simpl default. rewrite sent_truthy; [done|].
    simpl. by destruct (String.eqb_spec s ""). }
  assert (∀ t a g p pr i d,
    bind8 t a (sent (Js.prop body "year")) g p pr i d = None) as Hb.
  { intros. unfold bind8. rewrite Hsent. simpl. by rewrite Hn. }
  split_and!; [| | |intros id; split_and!];
    unfold post_book, put_book, try_catch, mbind, M_bind;
    rewrite Ht, Ha; cbn [negb orb]; cbv beta;
    rewrite pool_query_calm by done;
    unfold exec; cbn [fmap list_fmap]; fold (sent (Js.prop body "year"));
    rewrite Hb; done.
Qed.

Lemma unreadable_year_is_internal_error_witness :
  (post_book (<["year" := JStr "MCMLXV"]> dune_1965) (at_rest shelf)).1
    = Returned (Response 500 (JsonError "Failed to add book")) ∧
  (put_book "1" (<["year" := JStr "MCMLXV"]> dune_1965) (at_rest shelf)).1
    = Returned (Response 500 (JsonError "Failed to update book")).
Proof.
  destruct (unreadable_year_is_internal_error
              (<["year" := JStr "MCMLXV"]> dune_1965) (at_rest shelf) "MCMLXV")
    as (H1 & _ & _ & H2); try (vm_compute; reflexivity); [discriminate|].
  split; [exact H1 | apply (H2 "1")].
Defined.
